(** * AmpliGraph: the SQLite triple-store adapter

    A shallow embedding of [ampligraph/datasets/sqlite_adapter.py]
    (class [SQLiteAdapter]) and the properties of it that the
    specification states.

    The adapter talks to SQLite by building SQL text with [str.format]
    and handing it to [sqlite3].  Both sides are modelled:

    - [Py]     : Python values, exceptions, strings and [str.format];
    - [Sqlite] : the part of SQLite the adapter's statements reach
                 (tokens, statements, their effect on a database);
    - the adapter itself, method by method, in a state-and-exception
      monad over the object [self]. *)

From Stdlib Require Import List String Ascii ZArith Bool Arith Lia Permutation DecimalString.
Import ListNotations.
Local Open Scope string_scope.
Local Open Scope list_scope.

(* ================================================================== *)
(** * Python: exceptions, values, strings *)
(* ================================================================== *)

Module Py.

(** Errors of the [sqlite3] module; all are subclasses of
    [sqlite3.Error], the class the adapter's [except] clauses name. *)
Inductive sqlite_error :=
| OperationalError (msg : string)
| ProgrammingError (msg : string)
| InterfaceError (msg : string).

Definition error_text (e : sqlite_error) : string :=
  match e with
  | OperationalError m | ProgrammingError m | InterfaceError m => m
  end.

Inductive exn :=
| AssertionError (msg : string)
| AttributeError (attr : string)
| KeyError (key : string)
| IndexError (msg : string)
| ValueError (msg : string)
| TypeError (msg : string)
| ZeroDivisionError
| Error (e : sqlite_error).

(** What evaluating an expression or running a statement ends in. *)
Inductive outcome (A : Type) :=
| Return (a : A)
| Raise (e : exn).
Arguments Return {A} a.
Arguments Raise {A} e.

Definition raised {A} (o : outcome A) : bool :=
  match o with Return _ => false | Raise _ => true end.

(** A cell of a row: what [sqlite3] hands back from [fetchall] and
    accepts as a bound parameter.  [VObj] stands for a Python object
    [sqlite3] cannot bind (a [complex], a list, ...). *)
Inductive value :=
| VInt (n : Z)
| VText (s : string)
| VNull
| VObj.

Definition value_eqb (a b : value) : bool :=
  match a, b with
  | VInt x, VInt y => Z.eqb x y
  | VText x, VText y => String.eqb x y
  | VNull, VNull => true
  | VObj, VObj => true
  | _, _ => false
  end.

Definition row := list value.
Definition rows := list row.

(** ** Strings

    A Python [str] is kept as a rope.  [Lit] is text written in the
    program (or typed by a caller): [str.format] scans it for
    replacement fields and SQLite reads it character by character.
    [Txt] is the text of a partition label and [Num] the decimal text of
    an integer: both are kept whole.  A label is taken to hold neither a
    brace nor a quote (the data model has train, test and validation),
    so that [str.format] and the SQL tokenizer leave it in one piece. *)
Inductive seg :=
| Lit (s : string)
| Txt (s : string)
| Num (n : Z).

Definition str := list seg.

(** A string written in the program; the empty string is the empty rope. *)
Definition lit (s : string) : str :=
  match s with
  | "" => []
  | _ => [Lit s]
  end.

(** [sep.join(xs)] *)
Fixpoint join (sep : string) (xs : list str) : str :=
  match xs with
  | [] => []
  | [x] => x
  | x :: rest => x ++ Lit sep :: join sep rest
  end.

(** [str(v)] of an integer *)
Definition str_of_int (v : Z) : str := [Num v].

(** The characters of a string, for printing. *)
Fixpoint text_of (s : str) : string :=
  match s with
  | [] => ""
  | Lit t :: s' => t ++ text_of s'
  | Txt t :: s' => t ++ text_of s'
  | Num n :: s' => NilEmpty.string_of_int (Z.to_int n) ++ text_of s'
  end.

(** ** [str.format] with positional arguments

    The scanner follows CPython's: [{{] and [}}] are escaped braces, a
    field runs from [{] to the next [}], an empty field name takes the
    next positional argument, a decimal one takes that argument, and any
    other name is looked up among the keyword arguments, of which the
    adapter never passes any: [KeyError].  Conversions and format
    specifications ([!r], [:>5]) are not modelled; no format string of
    the adapter has one. *)
Inductive mode :=
| MText                   (* in literal text *)
| MOpen                   (* one opening brace seen *)
| MField (name : string)  (* inside a field *)
| MClose.                 (* one closing brace seen *)

Definition snoc (s : string) (c : ascii) : string := s ++ String c "".

Definition emit (txt : string) (out : str) : str :=
  match txt with
  | "" => out
  | _ => out ++ [Lit txt]
  end.

Definition is_digit (c : ascii) : bool :=
  let n := nat_of_ascii c in (48 <=? n)%nat && (n <=? 57)%nat.

Fixpoint all_digits (s : string) : bool :=
  match s with
  | "" => true
  | String c s' => is_digit c && all_digits s'
  end.

Fixpoint digits_value (acc : nat) (s : string) : nat :=
  match s with
  | "" => acc
  | String c s' => digits_value (10 * acc + (nat_of_ascii c - 48)) s'
  end.

(** The argument a field stands for.  [next] is the automatic counter. *)
Definition field_arg (args : list str) (next : nat) (name : string)
  : outcome (str * nat) :=
  match name with
  | "" =>
      match nth_error args next with
      | Some a => Return (a, S next)
      | None => Raise (IndexError "Replacement index out of range for positional args tuple")
      end
  | _ =>
      if all_digits name then
        match nth_error args (digits_value 0 name) with
        | Some a => Return (a, next)
        | None => Raise (IndexError "Replacement index out of range for positional args tuple")
        end
      else Raise (KeyError name)
  end.

Definition lbrace : ascii := "{"%char.
Definition rbrace : ascii := "}"%char.

(** One literal segment: [txt] is the text gathered since the last
    field, [out] what was produced so far. *)
Fixpoint format_lit (args : list str) (m : mode) (txt : string) (out : str)
                    (next : nat) (s : string) : outcome (str * nat) :=
  match s with
  | "" =>
      match m with
      | MText => Return (emit txt out, next)
      | MOpen => Raise (ValueError "Single '{' encountered in format string")
      | MField _ => Raise (ValueError "expected '}' before end of string")
      | MClose => Raise (ValueError "Single '}' encountered in format string")
      end
  | String c s' =>
      match m with
      | MText =>
          if Ascii.eqb c lbrace then format_lit args MOpen txt out next s'
          else if Ascii.eqb c rbrace then format_lit args MClose txt out next s'
          else format_lit args MText (snoc txt c) out next s'
      | MOpen =>
          if Ascii.eqb c lbrace then format_lit args MText (snoc txt c) out next s'
          else if Ascii.eqb c rbrace then
            match field_arg args next "" with
            | Return (a, next') => format_lit args MText "" (emit txt out ++ a) next' s'
            | Raise e => Raise e
            end
          else format_lit args (MField (String c "")) txt out next s'
      | MField name =>
          if Ascii.eqb c rbrace then
            match field_arg args next name with
            | Return (a, next') => format_lit args MText "" (emit txt out ++ a) next' s'
            | Raise e => Raise e
            end
          else format_lit args (MField (snoc name c)) txt out next s'
      | MClose =>
          if Ascii.eqb c rbrace then format_lit args MText (snoc txt c) out next s'
          else Raise (ValueError "Single '}' encountered in format string")
      end
  end.

Fixpoint format_segs (args : list str) (out : str) (next : nat) (s : str)
  : outcome str :=
  match s with
  | [] => Return out
  | Lit l :: s' =>
      match format_lit args MText "" out next l with
      | Return (out', next') => format_segs args out' next' s'
      | Raise e => Raise e
      end
  | Txt t :: s' => format_segs args (out ++ [Txt t]) next s'
  | Num n :: s' => format_segs args (out ++ [Num n]) next s'
  end.

(** [template.format( *args )] *)
Definition format (template : str) (args : list str) : outcome str :=
  format_segs args [] 0 template.

End Py.


Import Py.

(* ================================================================== *)
(** * SQLite: the statements the adapter issues *)
(* ================================================================== *)

Module Sqlite.

(** ** Tokens *)

Inductive token :=
| TWord (w : string)     (* keyword or identifier, in lower case *)
| TNum (n : Z)
| TText (s : string)     (* a quoted string literal *)
| TPunct (c : ascii).

Inductive lmode :=
| LIdle
| LWord (w : string)
| LQuote (s : string)    (* inside quotes *)
| LQEnd (s : string).    (* a quote seen inside quotes: the end, or a doubled quote *)

Definition quote : ascii := "'"%char.

Definition is_space (c : ascii) : bool :=
  let n := nat_of_ascii c in
  (n =? 32)%nat || (n =? 9)%nat || (n =? 10)%nat || (n =? 13)%nat.

Definition is_upper (c : ascii) : bool :=
  let n := nat_of_ascii c in (65 <=? n)%nat && (n <=? 90)%nat.

Definition is_lower (c : ascii) : bool :=
  let n := nat_of_ascii c in (97 <=? n)%nat && (n <=? 122)%nat.

Definition is_word_char (c : ascii) : bool :=
  is_upper c || is_lower c || is_digit c || Ascii.eqb c "_"%char.

(** Keywords and identifiers are case-insensitive in SQLite. *)
Definition lower_char (c : ascii) : ascii :=
  if is_upper c then ascii_of_nat (nat_of_ascii c + 32) else c.

Fixpoint lower (s : string) : string :=
  match s with
  | "" => ""
  | String c s' => String (lower_char c) (lower s')
  end.

Definition word_token (w : string) : token :=
  if all_digits w then TNum (Z.of_nat (digits_value 0 w)) else TWord (lower w).

(** A character met outside a word and outside quotes. *)
Definition idle_char (c : ascii) (acc : list token) : lmode * list token :=
  if is_word_char c then (LWord (String c ""), acc)
  else if is_space c then (LIdle, acc)
  else if Ascii.eqb c quote then (LQuote "", acc)
  else (LIdle, TPunct c :: acc).

(** Tokens are gathered in reverse. *)
Fixpoint lex_lit (m : lmode) (acc : list token) (s : string) : lmode * list token :=
  match s with
  | "" => (m, acc)
  | String c s' =>
      match m with
      | LIdle => let '(m', acc') := idle_char c acc in lex_lit m' acc' s'
      | LWord w =>
          if is_word_char c then lex_lit (LWord (snoc w c)) acc s'
          else let '(m', acc') := idle_char c (word_token w :: acc) in lex_lit m' acc' s'
      | LQuote t =>
          if Ascii.eqb c quote then lex_lit (LQEnd t) acc s'
          else lex_lit (LQuote (snoc t c)) acc s'
      | LQEnd t =>
          if Ascii.eqb c quote then lex_lit (LQuote (snoc t c)) acc s'
          else let '(m', acc') := idle_char c (TText t :: acc) in lex_lit m' acc' s'
      end
  end.

(** A label is read only inside quotes and a number only outside a
    word; [None] is SQLite's "unrecognized token". *)
Fixpoint lex_segs (m : lmode) (acc : list token) (q : str) : option (lmode * list token) :=
  match q with
  | [] => Some (m, acc)
  | Lit s :: q' => let '(m', acc') := lex_lit m acc s in lex_segs m' acc' q'
  | Txt t :: q' =>
      match m with
      | LQuote t0 => lex_segs (LQuote (t0 ++ t)) acc q'
      | _ => None
      end
  | Num n :: q' =>
      match m with
      | LIdle => lex_segs LIdle (TNum n :: acc) q'
      | LQEnd t => lex_segs LIdle (TNum n :: TText t :: acc) q'
      | _ => None
      end
  end.

(** The end of the text closes a word or a string; an open quote is
    an error. *)
Definition lex_end (m : lmode) (acc : list token) : option (list token) :=
  match m with
  | LIdle => Some (rev acc)
  | LWord w => Some (rev (word_token w :: acc))
  | LQuote _ => None
  | LQEnd t => Some (rev (TText t :: acc))
  end.

Definition lex (q : str) : option (list token) :=
  match lex_segs LIdle [] q with
  | Some (m, acc) => lex_end m acc
  | None => None
  end.

(** ** Statements *)

Inductive projection :=
| PStar
| PCount
| PDistinct (col : string).

Inductive term :=
| TEq (col : string) (v : value)
| TIn (col : string) (vs : list Z).

Inductive ordering :=
| ONone
| OCols (cols : list string)
| ORandom.

Record select := {
  proj : projection;
  from : string;
  indexed_by : option string;
  where_ : list term;              (* a conjunction *)
  order_by : ordering;
  limit : option (Z * Z)           (* LIMIT offset, count *)
}.

Inductive stmt :=
| Select (s : select)
| Insert (table : string) (nvalues : nat)
| CreateTable (name : string) (cols : list (string * string))
| CreateIndex (name table : string) (cols : list string)
| DropIndex (name : string)        (* IF EXISTS *)
| DropTable (name : string).       (* IF EXISTS *)

(** ** Parser *)

Definition P (A : Type) := list token -> option (A * list token).

Definition ret {A} (a : A) : P A := fun ts => Some (a, ts).

Definition fail {A} : P A := fun _ => None.

Definition bind {A B} (p : P A) (k : A -> P B) : P B := fun ts =>
  match p ts with
  | Some (a, r) => k a r
  | None => None
  end.

Local Notation "x <- p ;; k" := (bind p (fun x => k))
  (at level 61, p at next level, right associativity).
Local Notation "p ;; k" := (bind p (fun _ => k))
  (at level 61, right associativity).

Definition kw (k : string) : P unit := fun ts =>
  match ts with
  | TWord w :: r => if String.eqb w k then Some (tt, r) else None
  | _ => None
  end.

Definition punct (c : ascii) : P unit := fun ts =>
  match ts with
  | TPunct d :: r => if Ascii.eqb c d then Some (tt, r) else None
  | _ => None
  end.

Definition ident : P string := fun ts =>
  match ts with
  | TWord w :: r => Some (w, r)
  | _ => None
  end.

Definition number : P Z := fun ts =>
  match ts with
  | TNum n :: r => Some (n, r)
  | _ => None
  end.

(** Look at the next token without taking it. *)
Definition next_is_kw (k : string) : P bool := fun ts =>
  match ts with
  | TWord w :: _ => Some (String.eqb w k, ts)
  | _ => Some (false, ts)
  end.

Definition next_is_punct (c : ascii) : P bool := fun ts =>
  match ts with
  | TPunct d :: _ => Some (Ascii.eqb c d, ts)
  | _ => Some (false, ts)
  end.

(** The number of tokens left, as fuel for the repetitions. *)
Definition remaining : P nat := fun ts => Some (List.length ts, ts).

(** [, n , n ... )] *)
Fixpoint numbers_tail (ts : list token) : option (list Z * list token) :=
  match ts with
  | TPunct c :: r =>
      if Ascii.eqb c ")"%char then Some ([], r)
      else if Ascii.eqb c ","%char then
        match r with
        | TNum n :: r' =>
            match numbers_tail r' with
            | Some (ns, r'') => Some (n :: ns, r'')
            | None => None
            end
        | _ => None
        end
      else None
  | _ => None
  end.

(** What follows the opening parenthesis of [in (]; the list may be
    empty, which SQLite accepts. *)
Definition numbers : P (list Z) := fun ts =>
  match ts with
  | TPunct c :: r => if Ascii.eqb c ")"%char then Some ([], r) else None
  | TNum n :: r =>
      match numbers_tail r with
      | Some (ns, r') => Some (n :: ns, r')
      | None => None
      end
  | _ => None
  end.

(** [, col , col ...] *)
Fixpoint idents_tail (ts : list token) : list string * list token :=
  match ts with
  | TPunct c :: TWord w :: r =>
      if Ascii.eqb c ","%char then
        let '(ws, r') := idents_tail r in (w :: ws, r')
      else ([], ts)
  | _ => ([], ts)
  end.

Definition idents : P (list string) :=
  w <- ident ;;
  ws <- (fun ts => Some (idents_tail ts)) ;;
  ret (w :: ws).

Definition literal : P value := fun ts =>
  match ts with
  | TNum n :: r => Some (VInt n, r)
  | TText t :: r => Some (VText t, r)
  | _ => None
  end.

Definition term_p : P term :=
  col <- ident ;;
  eq <- next_is_punct "="%char ;;
  if eq then
    punct "="%char ;; v <- literal ;; ret (TEq col v)
  else
    kw "in" ;; punct "("%char ;; ns <- numbers ;; ret (TIn col ns).

(** [term and term and ...] *)
Fixpoint terms (fuel : nat) : P (list term) :=
  match fuel with
  | O => fail
  | S fuel' =>
      t <- term_p ;;
      more <- next_is_kw "and" ;;
      if more then
        kw "and" ;; ts <- terms fuel' ;; ret (t :: ts)
      else ret [t]
  end.

Definition projection_p : P projection :=
  star <- next_is_punct "*"%char ;;
  if star then punct "*"%char ;; ret PStar
  else
    count <- next_is_kw "count" ;;
    if count then
      kw "count" ;; punct "("%char ;; punct "*"%char ;; punct ")"%char ;;
      ret PCount
    else
      kw "distinct" ;; col <- ident ;; ret (PDistinct col).

Definition indexed_p : P (option string) :=
  idx <- next_is_kw "indexed" ;;
  if idx then kw "indexed" ;; kw "by" ;; i <- ident ;; ret (Some i)
  else ret None.

Definition where_p : P (list term) :=
  wh <- next_is_kw "where" ;;
  if wh then kw "where" ;; n <- remaining ;; terms n
  else ret [].

Definition order_p : P ordering :=
  ord <- next_is_kw "order" ;;
  if ord then
    kw "order" ;; kw "by" ;;
    rnd <- next_is_kw "random" ;;
    if rnd then kw "random" ;; punct "("%char ;; punct ")"%char ;; ret ORandom
    else cols <- idents ;; ret (OCols cols)
  else ret ONone.

Definition limit_p : P (option (Z * Z)) :=
  lim <- next_is_kw "limit" ;;
  if lim then
    kw "limit" ;; off <- number ;; punct ","%char ;; cnt <- number ;;
    ret (Some (off, cnt))
  else ret None.

(** The end of a statement: an optional semicolon and nothing more. *)
Definition finish : P unit := fun ts =>
  match ts with
  | [] => Some (tt, [])
  | [TPunct c] => if Ascii.eqb c ";"%char then Some (tt, []) else None
  | _ => None
  end.

Definition select_p : P stmt :=
  p <- projection_p ;;
  kw "from" ;;
  t <- ident ;;
  i <- indexed_p ;;
  w <- where_p ;;
  o <- order_p ;;
  l <- limit_p ;;
  finish ;;
  ret (Select {| proj := p; from := t; indexed_by := i; where_ := w;
                 order_by := o; limit := l |}).

(** [, ? , ? ... )] *)
Fixpoint placeholders_tail (ts : list token) : option (nat * list token) :=
  match ts with
  | TPunct c :: r =>
      if Ascii.eqb c ")"%char then Some (O, r)
      else if Ascii.eqb c ","%char then
        match r with
        | TPunct d :: r' =>
            if Ascii.eqb d "?"%char then
              match placeholders_tail r' with
              | Some (n, r'') => Some (S n, r'')
              | None => None
              end
            else None
        | _ => None
        end
      else None
  | _ => None
  end.

Definition insert_p : P stmt :=
  kw "into" ;;
  t <- ident ;;
  kw "values" ;; punct "("%char ;; punct "?"%char ;;
  n <- placeholders_tail ;;
  finish ;;
  ret (Insert t (S n)).

(** A column's type, with its optional length: [integer], [text(50)]. *)
Definition coltype : P string :=
  ty <- ident ;;
  len <- next_is_punct "("%char ;;
  if len then punct "("%char ;; number ;; punct ")"%char ;; ret ty
  else ret ty.

(** [name type , name type ... )] *)
Fixpoint coldefs (fuel : nat) : P (list (string * string)) :=
  match fuel with
  | O => fail
  | S fuel' =>
      c <- ident ;;
      ty <- coltype ;;
      more <- next_is_punct ","%char ;;
      if more then
        punct ","%char ;; cs <- coldefs fuel' ;; ret ((c, ty) :: cs)
      else punct ")"%char ;; ret [(c, ty)]
  end.

Definition create_p : P stmt :=
  tbl <- next_is_kw "table" ;;
  if tbl then
    kw "table" ;; t <- ident ;; punct "("%char ;;
    n <- remaining ;; cols <- coldefs n ;;
    finish ;;
    ret (CreateTable t cols)
  else
    kw "index" ;; i <- ident ;; kw "on" ;; t <- ident ;;
    punct "("%char ;; cols <- idents ;; punct ")"%char ;;
    finish ;;
    ret (CreateIndex i t cols).

Definition drop_p : P stmt :=
  tbl <- next_is_kw "table" ;;
  if tbl then
    kw "table" ;; kw "if" ;; kw "exists" ;; t <- ident ;; finish ;;
    ret (DropTable t)
  else
    kw "index" ;; kw "if" ;; kw "exists" ;; i <- ident ;; finish ;;
    ret (DropIndex i).

Definition statement : P stmt :=
  w <- ident ;;
  if String.eqb w "select" then select_p
  else if String.eqb w "insert" then insert_p
  else if String.eqb w "create" then create_p
  else if String.eqb w "drop" then drop_p
  else fail.

(** What SQLite makes of a statement's text; [None] is a syntax error. *)
Definition parse (q : str) : option stmt :=
  match lex q with
  | Some ts =>
      match statement ts with
      | Some (s, _) => Some s
      | None => None
      end
  | None => None
  end.

(** ** Databases *)

Record table := {
  columns : list (string * string);   (* name and declared type *)
  body : rows                         (* in rowid order *)
}.

Record index := {
  on_table : string;
  on_columns : list string
}.

Record database := {
  tables : list (string * table);
  indexes : list (string * index)
}.

Definition empty : database := {| tables := []; indexes := [] |}.

Fixpoint assoc {A} (k : string) (l : list (string * A)) : option A :=
  match l with
  | [] => None
  | (k', a) :: l' => if String.eqb k k' then Some a else assoc k l'
  end.

Fixpoint put {A} (k : string) (a : A) (l : list (string * A)) : list (string * A) :=
  match l with
  | [] => [(k, a)]
  | (k', a') :: l' => if String.eqb k k' then (k, a) :: l' else (k', a') :: put k a l'
  end.

Definition drop {A} (k : string) (l : list (string * A)) : list (string * A) :=
  filter (fun b => negb (String.eqb k (fst b))) l.

Fixpoint column_index (c : string) (cols : list (string * string)) : option nat :=
  match cols with
  | [] => None
  | (c', _) :: cols' =>
      if String.eqb c c' then Some O
      else match column_index c cols' with
           | Some i => Some (S i)
           | None => None
           end
  end.

(** ** SELECT *)

(** A term of the WHERE clause with its column resolved. *)
Inductive rterm :=
| REq (i : nat) (v : value)
| RIn (i : nat) (vs : list Z).

Definition resolve_term (cols : list (string * string)) (t : term) : option rterm :=
  match t with
  | TEq c v => option_map (fun i => REq i v) (column_index c cols)
  | TIn c vs => option_map (fun i => RIn i vs) (column_index c cols)
  end.

Fixpoint resolve (cols : list (string * string)) (ts : list term) : option (list rterm) :=
  match ts with
  | [] => Some []
  | t :: ts' =>
      match resolve_term cols t, resolve cols ts' with
      | Some r, Some rs => Some (r :: rs)
      | _, _ => None
      end
  end.

Definition holds (r : row) (t : rterm) : bool :=
  match t with
  | REq i v =>
      match nth_error r i with
      | Some x => value_eqb x v
      | None => false
      end
  | RIn i vs =>
      match nth_error r i with
      | Some x => existsb (fun n => value_eqb x (VInt n)) vs
      | None => false
      end
  end.

Definition satisfies (ts : list rterm) (r : row) : bool := forallb (holds r) ts.

Fixpoint row_eqb (a b : row) : bool :=
  match a, b with
  | [], [] => true
  | x :: a', y :: b' => value_eqb x y && row_eqb a' b'
  | _, _ => false
  end.

(** DISTINCT keeps the first of equal rows. *)
Fixpoint distinct (l : rows) : rows :=
  match l with
  | [] => []
  | r :: l' => r :: filter (fun r' => negb (row_eqb r r')) (distinct l')
  end.

(** SQLite's order of values: NULL, then numbers, then text. *)
Definition value_leb (a b : value) : bool :=
  match a, b with
  | VNull, _ => true
  | VInt _, VNull => false
  | VInt x, VInt y => Z.leb x y
  | VInt _, _ => true
  | VText _, (VNull | VInt _) => false
  | VText x, VText y => String.leb x y
  | VText _, VObj => true
  | VObj, VObj => true
  | VObj, _ => false
  end.

Fixpoint keys_leb (a b : row) : bool :=
  match a, b with
  | x :: a', y :: b' => if value_eqb x y then keys_leb a' b' else value_leb x y
  | _, _ => true
  end.

Definition key (ks : list nat) (r : row) : row :=
  map (fun i => nth i r VNull) ks.

Fixpoint insert_sorted (ks : list nat) (r : row) (l : rows) : rows :=
  match l with
  | [] => [r]
  | r' :: l' =>
      if keys_leb (key ks r) (key ks r') then r :: l
      else r' :: insert_sorted ks r l'
  end.

(** ORDER BY, as a stable sort: rows with equal keys keep their rowid
    order, as they do when SQLite walks an index. *)
Definition sort_by (ks : list nat) (l : rows) : rows :=
  fold_right (insert_sorted ks) [] l.

Fixpoint column_indexes (cols : list (string * string)) (cs : list string) : option (list nat) :=
  match cs with
  | [] => Some []
  | c :: cs' =>
      match column_index c cols, column_indexes cols cs' with
      | Some i, Some ks => Some (i :: ks)
      | _, _ => None
      end
  end.

(** [LIMIT off, cnt]: a negative offset is no offset, a negative count
    no limit. *)
Definition apply_limit (l : option (Z * Z)) (rs : rows) : rows :=
  match l with
  | None => rs
  | Some (off, cnt) =>
      let rs' := skipn (Z.to_nat off) rs in
      if Z.ltb cnt 0 then rs' else firstn (Z.to_nat cnt) rs'
  end.

Section Engine.

(** [random()] is not reproducible: the order it gives is left to an
    oracle [shuffle], asked with the number of the query. *)
Variable shuffle : nat -> rows -> rows.

Definition no_such (what name : string) : sqlite_error :=
  OperationalError ("no such " ++ what ++ ": " ++ name).

Definition exec_select (seed : nat) (d : database) (s : select)
  : sqlite_error + rows :=
  match assoc (from s) (tables d) with
  | None => inl (no_such "table" (from s))
  | Some t =>
      let index_ok :=
        match indexed_by s with
        | None => true
        | Some i =>
            match assoc i (indexes d) with
            | Some ix => String.eqb (on_table ix) (from s)
            | None => false
            end
        end in
      if negb index_ok then inl (no_such "index" (match indexed_by s with Some i => i | None => "" end))
      else
        match resolve (columns t) (where_ s) with
        | None => inl (OperationalError "no such column")
        | Some ts =>
            let found := filter (satisfies ts) (body t) in
            let ordered :=
              match order_by s with
              | ONone => Some found
              | OCols cs => option_map (fun ks => sort_by ks found) (column_indexes (columns t) cs)
              | ORandom => Some (shuffle seed found)
              end in
            match ordered with
            | None => inl (OperationalError "no such column")
            | Some rs =>
                match proj s with
                | PStar => inr (apply_limit (limit s) rs)
                | PCount => inr (apply_limit (limit s) [[VInt (Z.of_nat (List.length rs))]])
                | PDistinct c =>
                    match column_index c (columns t) with
                    | None => inl (OperationalError "no such column")
                    | Some i => inr (apply_limit (limit s) (distinct (map (fun r => [nth i r VNull]) rs)))
                    end
                end
            end
        end
  end.

(** ** One statement: [cursor.execute(query)] then [fetchall()] *)

Inductive result :=
| Ok (out : rows) (d : database)
| Rejected (e : sqlite_error).

Definition syntax_error : sqlite_error := OperationalError "syntax error".

Definition execute (seed : nat) (d : database) (q : str) : result :=
  match parse q with
  | None => Rejected syntax_error
  | Some (Select s) =>
      match exec_select seed d s with
      | inr out => Ok out d
      | inl e => Rejected e
      end
  | Some (Insert _ n) =>
      Rejected (ProgrammingError "Incorrect number of bindings supplied")
  | Some (CreateTable t cols) =>
      match assoc t (tables d) with
      | Some _ => Rejected (OperationalError ("table " ++ t ++ " already exists"))
      | None =>
          Ok [] {| tables := put t {| columns := cols; body := [] |} (tables d);
                   indexes := indexes d |}
      end
  | Some (CreateIndex i t cols) =>
      match assoc i (indexes d), assoc t (tables d) with
      | Some _, _ => Rejected (OperationalError ("index " ++ i ++ " already exists"))
      | None, None => Rejected (no_such "table" t)
      | None, Some tb =>
          match column_indexes (columns tb) cols with
          | None => Rejected (OperationalError "no such column")
          | Some _ =>
              Ok [] {| tables := tables d;
                       indexes := put i {| on_table := t; on_columns := cols |} (indexes d) |}
          end
      end
  | Some (DropIndex i) =>
      Ok [] {| tables := tables d; indexes := drop i (indexes d) |}
  | Some (DropTable t) =>
      Ok [] {| tables := drop t (tables d);
               indexes := filter (fun b => negb (String.eqb (on_table (snd b)) t)) (indexes d) |}
  end.

End Engine.

(** ** A batched insert: [cursor.executemany(query, params)] *)

Definition bindable (v : value) : bool :=
  match v with
  | VObj => false
  | _ => true
  end.

Definition append_row (t : string) (r : row) (d : database) : database :=
  match assoc t (tables d) with
  | Some tb =>
      {| tables := put t {| columns := columns tb; body := body tb ++ [r] |} (tables d);
         indexes := indexes d |}
  | None => d
  end.

(** The rows are bound and inserted one after the other; the first that
    cannot be bound stops the statement, and those before it stay in
    the open transaction. *)
Fixpoint insert_rows (t : string) (n : nat) (params : rows) (d : database)
  : database * option sqlite_error :=
  match params with
  | [] => (d, None)
  | r :: params' =>
      if negb (List.length r =? n)%nat then
        (d, Some (ProgrammingError "Incorrect number of bindings supplied"))
      else if negb (forallb bindable r) then
        (d, Some (InterfaceError "Error binding parameter - probably unsupported type"))
      else insert_rows t n params' (append_row t r d)
  end.

Definition executemany (d : database) (q : str) (params : rows)
  : database * option sqlite_error :=
  match parse q with
  | None => (d, Some syntax_error)
  | Some (Insert t n) =>
      match assoc t (tables d) with
      | None => (d, Some (no_such "table" t))
      | Some tb =>
          if (List.length (columns tb) =? n)%nat then insert_rows t n params d
          else (d, Some (OperationalError "table has a different number of columns than values supplied"))
      end
  | Some _ =>
      (d, Some (ProgrammingError "executemany() can only execute DML statements"))
  end.

End Sqlite.

Import Sqlite.

(* ================================================================== *)
(** * The adapter *)
(* ================================================================== *)

Definition DEFAULT_CHUNKSIZE : Z := 30000.

(** The entity/relation indexer ([ampligraph.datasets.DataIndexer]) is
    outside the adapter: all it gives is [get_indexes]. *)
Record DataIndexer := {
  get_indexes : rows -> rows
}.

(** [use_indexer]: a flag or a prebuilt indexer. *)
Inductive indexer_option :=
| Flag (b : bool)
| Prebuilt (m : DataIndexer).

(** [use_indexer != False] *)
Definition indexing_requested (u : indexer_option) : bool :=
  match u with
  | Flag b => b
  | Prebuilt _ => true
  end.

(** A [sqlite3.Connection]: the database as this connection sees it,
    with the changes of its open transaction, and whether [close] was
    called. *)
Record Connection := {
  working : database;
  closed : bool
}.

(** The object [self].  An attribute that [__init__] does not always
    assign ([chunk_size]) or that another method creates
    ([connection], [batches_count], [mapper]) is [None] until it is
    set; [hasattr] is [None]-ness. *)
Record SQLiteAdapter := {
  db_name : string;
  root_directory : string;
  db_path : string;
  use_indexer : indexer_option;
  remap : bool;
  name : string;
  verbose : bool;
  in_memory : bool;
  chunk_size : option Z;
  connection : option Connection;
  batches_count : option Z;
  mapper : option DataIndexer
}.

(** The object together with what lies outside it: the database file
    (its committed content, [None] while there is no file), what was
    printed, and how many statements SQLite has run. *)
Record world := {
  self : SQLiteAdapter;
  disk : option database;
  stdout : list string;
  clock : nat
}.

Definition with_self (o : SQLiteAdapter) (w : world) : world :=
  {| self := o; disk := disk w; stdout := stdout w; clock := clock w |}.

Definition with_disk (d : option database) (w : world) : world :=
  {| self := self w; disk := d; stdout := stdout w; clock := clock w |}.

Definition set_connection (c : option Connection) (o : SQLiteAdapter) : SQLiteAdapter :=
  {| db_name := db_name o; root_directory := root_directory o; db_path := db_path o;
     use_indexer := use_indexer o; remap := remap o; name := name o;
     verbose := verbose o; in_memory := in_memory o; chunk_size := chunk_size o;
     connection := c; batches_count := batches_count o; mapper := mapper o |}.

Definition set_batches_count (n : option Z) (o : SQLiteAdapter) : SQLiteAdapter :=
  {| db_name := db_name o; root_directory := root_directory o; db_path := db_path o;
     use_indexer := use_indexer o; remap := remap o; name := name o;
     verbose := verbose o; in_memory := in_memory o; chunk_size := chunk_size o;
     connection := connection o; batches_count := n; mapper := mapper o |}.

(** ** Statements with state and exceptions *)

Definition M (A : Type) := world -> outcome A * world.

Definition ret {A} (a : A) : M A := fun w => (Return a, w).

Definition raise {A} (e : exn) : M A := fun w => (Raise e, w).

Definition bind {A B} (m : M A) (k : A -> M B) : M B := fun w =>
  match m w with
  | (Return a, w') => k a w'
  | (Raise e, w') => (Raise e, w')
  end.

Notation "x <- m ;; k" := (bind m (fun x => k))
  (at level 61, m at next level, right associativity).
Notation "m ;; k" := (bind m (fun _ => k))
  (at level 61, right associativity).

(** The value or the exception of a pure computation. *)
Definition lift {A} (o : outcome A) : M A := fun w => (o, w).

(** [try: body / except Error as e: handler(e)]: only [sqlite3.Error]
    and its subclasses are caught. *)
Definition try_except {A} (body : M A) (handler : sqlite_error -> M A) : M A := fun w =>
  match body w with
  | (Raise (Error e), w') => handler e w'
  | r => r
  end.

Definition print (line : string) : M unit := fun w =>
  (Return tt, {| self := self w; disk := disk w; stdout := stdout w ++ [line];
                 clock := clock w |}).

Definition when (b : bool) (m : M unit) : M unit := if b then m else ret tt.

Definition get_self : M SQLiteAdapter := fun w => (Return (self w), w).

Definition tick : M nat := fun w =>
  (Return (clock w),
   {| self := self w; disk := disk w; stdout := stdout w; clock := S (clock w) |}).

(** ** The connection *)

Definition closed_database : exn :=
  Error (ProgrammingError "Cannot operate on a closed database.").

(** [self.connection], for an operation that needs it open. *)
Definition open_connection : M Connection := fun w =>
  match connection (self w) with
  | None => (Raise (AttributeError "connection"), w)
  | Some c => if closed c then (Raise closed_database, w) else (Return c, w)
  end.

Definition set_working (d : database) : M unit := fun w =>
  (Return tt, with_self (set_connection (Some {| working := d; closed := false |}) (self w)) w).

(** [self.connection.cursor()] *)
Definition cursor : M unit := open_connection ;; ret tt.

(** [self.connection.commit()]: the open transaction reaches the file. *)
Definition commit : M unit :=
  c <- open_connection ;;
  fun w => (Return tt, with_disk (Some (working c)) w).

(** [self.connection.rollback()]: the open transaction is dropped. *)
Definition rollback : M unit :=
  c <- open_connection ;;
  fun w =>
    match disk w with
    | Some d => set_working d w
    | None => (Return tt, w)
    end.

(** [self.connection.close()]; closing twice is allowed. *)
Definition close : M unit := fun w =>
  match connection (self w) with
  | None => (Raise (AttributeError "connection"), w)
  | Some c =>
      (Return tt, with_self (set_connection (Some {| working := working c; closed := true |}) (self w)) w)
  end.

(** ** [__init__] *)

Record init_args := {
  arg_db_name : string;
  arg_chunk_size : option Z;        (* [None] is Python's [None] *)
  arg_root_directory : string;
  arg_use_indexer : indexer_option;
  arg_verbose : bool;
  arg_remap : bool;
  arg_name : string;
  arg_in_memory : bool
}.

(** The arguments of [SQLiteAdapter(db_name)], every other parameter
    left to its default. *)
Definition defaults (db : string) : init_args :=
  {| arg_db_name := db;
     arg_chunk_size := Some DEFAULT_CHUNKSIZE;
     arg_root_directory := "./";
     arg_use_indexer := Flag true;
     arg_verbose := false;
     arg_remap := false;
     arg_name := "main_partition";
     arg_in_memory := false |}.

Definition ends_with_slash (s : string) : bool :=
  match get (String.length s - 1) s with
  | Some c => Ascii.eqb c "/"%char
  | None => false
  end.

(** [os.path.join(a, b)] on POSIX. *)
Definition os_path_join (a b : string) : string :=
  if prefix "/" b then b
  else if String.eqb a "" || ends_with_slash a then a ++ b
  else a ++ "/" ++ b.

(** The object as [__init__] leaves it, and how [__init__] ends.  When
    it raises, the attributes assigned after the raising statement are
    shown with the argument's value all the same; [chunk_size], which
    the claims are about, is shown as the code leaves it. *)
Definition __init__ (a : init_args) : outcome unit * SQLiteAdapter :=
  let o := {| db_name := arg_db_name a;
              root_directory := arg_root_directory a;
              db_path := os_path_join (arg_root_directory a) (arg_db_name a);
              use_indexer := arg_use_indexer a;
              remap := arg_remap a;
              name := arg_name a;
              verbose := arg_verbose a;
              in_memory := arg_in_memory a;
              chunk_size := None;
              connection := None;
              batches_count := None;
              mapper := None |} in
  if arg_remap a then
    (Raise (AssertionError "Remapping is not supported for DataLoaders with SQLite Adapter as backend"), o)
  else
    match arg_chunk_size a with
    | None =>
        (* chunk_size = DEFAULT_CHUNKSIZE binds the local name only; the
           argument of print is evaluated first, and self.__name__ is
           not an attribute of an instance. *)
        (Raise (AttributeError "__name__"), o)
    | Some c =>
        (Return tt,
         {| db_name := db_name o; root_directory := root_directory o;
            db_path := db_path o; use_indexer := use_indexer o; remap := remap o;
            name := name o; verbose := verbose o; in_memory := in_memory o;
            chunk_size := Some c;
            connection := None; batches_count := None; mapper := None |})
    end.

Section Adapter.

Variable shuffle : nat -> rows -> rows.

(** ** Schema *)

Definition _get_db_schema : list str := [
  [Lit "CREATE TABLE triples_table (subject integer,
                                    predicate integer,
                                    object integer,
                                    dataset_type text(50)
                                    );"];
  [Lit "CREATE INDEX triples_table_sp_idx ON triples_table (subject, predicate);"];
  [Lit "CREATE INDEX triples_table_po_idx ON triples_table (predicate, object);"];
  [Lit "CREATE INDEX triples_table_type_idx ON triples_table (dataset_type);"];
  [Lit "CREATE INDEX triples_table_sub_obj_idx ON triples_table (subject, object);"];
  [Lit "CREATE INDEX triples_table_subject_idx ON triples_table (subject);"];
  [Lit "CREATE INDEX triples_table_object_idx ON triples_table (object);"]
].

Definition _get_clean_up : list str := [
  [Lit "drop index IF EXISTS triples_table_po_idx"];
  [Lit "drop index IF EXISTS triples_table_sp_idx"];
  [Lit "drop index IF EXISTS triples_table_type_idx"];
  [Lit "drop table IF EXISTS triples_table"]
].

(** ** [_execute_query] *)

Definition _execute_query (query : str) : M (option rows) :=
  cursor ;;
  try_except
    (c <- open_connection ;;
     now <- tick ;;
     match execute shuffle now (working c) query with
     | Rejected e => raise (Error e)
     | Ok output d =>
         set_working d ;;
         commit ;;
         o <- get_self ;;
         when (verbose o) (print "Query executed successfully") ;;
         ret (Some output)
     end)
    (fun e =>
       print ("Query failed. The error '" ++ error_text e ++ "' occurred") ;;
       ret None).

Fixpoint _execute_queries (list_of_queries : list str) : M unit :=
  match list_of_queries with
  | [] => ret tt
  | query :: rest => _execute_query query ;; _execute_queries rest
  end.

Definition _create_database : M unit := _execute_queries _get_db_schema.

Definition clean_up : M unit := _execute_queries _get_clean_up.

(** ** The context manager *)

(** [sqlite3.connect] with [mode=rw] opens an existing file only;
    without the mode it creates the file. *)
Definition __enter__ : M unit := fun w =>
  match disk w with
  | Some d =>
      (Return tt, with_self (set_connection (Some {| working := d; closed := false |}) (self w)) w)
  | None =>
      (print "Missing Database, creating one..." ;;
       (fun w' => (Return tt, with_disk (Some empty) w')) ;;
       set_working empty ;;
       _create_database) w
  end.

(** [tb] is the traceback of the exception leaving the [with] block,
    [None] when the block ended normally. *)
Definition __exit__ (tb : option exn) : M unit :=
  match tb with
  | None =>
      commit ;;
      close
  | Some _ =>
      (* Exception occurred, so rollback. *)
      rollback
  end.

(** [with self: body].  [__exit__] returns [None], so the exception of
    the body is raised again after it. *)
Definition with_self_do {A} (body : M A) : M A := fun w =>
  match __enter__ w with
  | (Raise e, w1) => (Raise e, w1)
  | (Return _, w1) =>
      match body w1 with
      | (Return a, w2) => (__exit__ None ;; ret a) w2
      | (Raise e, w2) => (__exit__ (Some e) ;; raise e) w2
      end
  end.

(** ** [_insert_values_to_a_table] *)

(** An element of [values]: a bare int or str, or a row. *)
Inductive element :=
| IntElem (n : Z)
| StrElem (s : string)
| RowElem (r : row).

Definition row_length (e : element) : option nat :=
  match e with
  | RowElem r => Some (List.length r)
  | _ => None
  end.

(** [np.shape(values)]: (N, k) for N rows of k cells each (N > 0), and
    (N,) otherwise: a list of bare values, an empty list, or a ragged
    one, which the NumPy of the adapter's time held as N objects. *)
Definition np_shape (values : list element) : list nat :=
  match values with
  | RowElem r :: rest =>
      if forallb (fun e => match row_length e with
                           | Some k => (k =? List.length r)%nat
                           | None => false
                           end) rest
      then [List.length values; List.length r]
      else [List.length values]
  | _ => [List.length values]
  end.

(** [(v,) if isinstance(v, int) or isinstance(v, str) else v] *)
Definition as_params (v : element) : row :=
  match v with
  | IntElem n => [VInt n]
  | StrElem s => [VText s]
  | RowElem r => r
  end.

Definition _insert_values_to_a_table (table : str) (values : list element) : M unit :=
  o <- get_self ;;
  when (verbose o) (print "inserting to a table...") ;;
  let size :=
    if (List.length (np_shape values) <? 2)%nat then 1%nat
    else nth 1 (np_shape values) 0%nat in
  cursor ;;
  try_except
    (values_placeholder <- lift (format [Lit "({})"] [join ", " (repeat [Lit "?"] size)]) ;;
     query <- lift (format [Lit "INSERT INTO {} VALUES {}"] [table; values_placeholder]) ;;
     c <- open_connection ;;
     let '(d, failure) := executemany (working c) query (map as_params values) in
     set_working d ;;
     match failure with
     | Some e => raise (Error e)
     | None =>
         commit ;;
         when (verbose o) (print ("commited to table: " ++ text_of table))
     end)
    (fun e =>
       print ("Error " ++ error_text e) ;;
       rollback) ;;
  (* cursor.close() *)
  ret tt.

(** ** [get_indexed_triples] *)

(** [np.append(a, column, axis=1)]: one more cell on every row; the two
    must have as many rows. *)
Fixpoint append_column (a : rows) (column : list value) : outcome rows :=
  match a, column with
  | [], [] => Return []
  | r :: a', v :: column' =>
      match append_column a' column' with
      | Return rest => Return ((r ++ [v]) :: rest)
      | Raise e => Raise e
      end
  | _, _ => Raise (ValueError "all the input array dimensions except for the concatenation axis must match exactly")
  end.

(** The chunk is a data frame; [chunk] here is [chunk.values].  NumPy
    turns the cells of the result into text, and SQLite's column
    affinity turns the integers back on insertion; the cells are kept
    as they were. *)
Definition get_indexed_triples (chunk : rows) (dataset_type : string) : M rows :=
  o <- get_self ;;
  when (verbose o) (print "getting triples...") ;;
  let labels := repeat (VText dataset_type) (List.length chunk) in
  if indexing_requested (use_indexer o) then
    match mapper o with
    | None => raise (AttributeError "mapper")
    | Some m => lift (append_column (get_indexes m chunk) labels)
    end
  else lift (append_column chunk labels).

(** ** [get_data_size] *)

(** [isinstance(count, list)] and [isinstance(count[0], tuple)]:
    [fetchall] returns a list of tuples (the adapter sets no row
    factory), so both hold of whatever [_execute_query] hands back
    that is not [None]. *)
Definition isinstance_list (count : rows) : bool := true.
Definition isinstance_tuple (r : row) : bool := true.

(** [l[0]] *)
Definition first_item {A} (what : string) (l : list A) : M A :=
  match l with
  | x :: _ => ret x
  | [] => raise (IndexError (what ++ " index out of range"))
  end.

Definition get_data_size (table condition : str) : M (option value) :=
  query <- lift (format [Lit "SELECT count(*) from {} {};"] [table; condition]) ;;
  count <- _execute_query query ;;
  match count with
  | None =>
      print "Table is empty or not such table exists." ;;
      ret None
  | Some count =>
      if negb (isinstance_list count) then
        raise (ValueError "Cannot get count for the table with provided condition.")
      else
        first <- first_item "list" count ;;
        if negb (isinstance_tuple first) then
          raise (ValueError "Cannot get count for the table with provided condition.")
        else
          n <- first_item "tuple" first ;;
          ret (Some n)
  end.

(** ** Complementary entities *)

(** [triples] is an N x 3 array of integers. *)
Definition triple := (Z * Z * Z)%type.
Definition subject (t : triple) : Z := fst (fst t).
Definition predicate (t : triple) : Z := snd (fst t).
Definition object (t : triple) : Z := snd t.

Definition _get_complementary_objects (triples : list triple) : M (option rows) :=
  query <- lift (format
    [Lit "select distinct object from triples_table INDEXED BY triples_table_sp_idx where subject in ({}) and predicate in ({});"]
    [join "," (map (fun t => str_of_int (subject t)) triples);
     join "," (map (fun t => str_of_int (predicate t)) triples)]) ;;
  _execute_query query.

Definition _get_complementary_subjects (triples : list triple) : M (option rows) :=
  query <- lift (format
    [Lit "select distinct subject from triples_table INDEXED BY                  triples_table_po_idx where predicate in ({})  and object in ({})"]
    [join "," (map (fun t => str_of_int (predicate t)) triples);
     join "," (map (fun t => str_of_int (object t)) triples)]) ;;
  _execute_query query.

Definition _get_complementary_entities (triples : list triple)
  : M (option rows * option rows) :=
  objects <- _get_complementary_objects triples ;;
  subjects <- _get_complementary_subjects triples ;;
  ret (subjects, objects).

(** ** [_get_batch] *)

Record batch_args := {
  batch_size : Z;
  dataset_type : string;
  random : bool;
  use_filter : bool;
  index_by : string
}.

(** What one [yield] hands over. *)
Inductive item :=
| Out (out : option rows)
| OutWithFilter (out : option rows) (participating_entities : option rows * option rows).

Definition batch_of (it : item) : option rows :=
  match it with
  | Out out | OutWithFilter out _ => out
  end.

(** [int(size / batch_size)]: true division, then truncation towards
    zero.  The quotient is a float; it is the exact one while the
    operands stay below 2^53. *)
Definition int_div (size : option value) (batch_size : Z) : outcome Z :=
  match size with
  | Some (VInt n) =>
      if Z.eqb batch_size 0 then Raise ZeroDivisionError
      else Return (Z.quot n batch_size)
  | _ => Raise (TypeError "unsupported operand type(s) for /")
  end.

Definition assert (b : bool) (msg : str) : M unit :=
  if b then ret tt else raise (AssertionError (text_of msg)).

(** The names the class body binds: its methods. *)
Definition methods : list string :=
  ["__init__"; "__enter__"; "__exit__"; "_get_db_schema"; "_get_clean_up";
   "_execute_query"; "_execute_queries"; "_insert_values_to_a_table";
   "_create_database"; "_get_triples"; "get_indexed_triples"; "index_entities";
   "is_indexed"; "reload_data"; "populate"; "get_data_size"; "clean_up";
   "remove_db"; "_get_complementary_objects"; "_get_complementary_subjects";
   "_get_complementary_entities"; "_get_batch"; "summary"; "_load"].

Definition has_method (name : string) : bool := existsb (String.eqb name) methods.

(** [self.get_complementary_entities]: the class has no attribute of
    this name (its resolver is [_get_complementary_entities]) and no
    method creates one, so the lookup raises before anything is
    called. *)
Definition get_complementary_entities (out : option rows)
  : M (option rows * option rows) :=
  raise (AttributeError "get_complementary_entities").

(** The local variables that live across a [yield]; [i] is the next
    value of the loop variable and [stop] the end of the [range]. *)
Record frame := {
  index : str;
  query : str;
  i : nat;
  stop : nat
}.

Definition page_query : str :=
  [Lit "SELECT * FROM triples_table INDEXED BY                  triples_table_type_idx where dataset_type ='{}' {} LIMIT {}, {}"].

Definition random_page_query : str :=
  [Lit "select * from triples_table INDEXED BY triples_table_type_idx                          where dataset_type = '{}' order by random() limit {}, {};"].

(** The body of the generator up to the loop. *)
Definition prologue (a : batch_args) : M frame :=
  o <- get_self ;;
  match batches_count o with
  | Some _ => ret tt
  | None =>
      condition <- lift (format [Lit "where dataset_type ='{}'"] [[Txt (dataset_type a)]]) ;;
      size <- get_data_size [Lit "triples_table"] condition ;;
      count <- lift (int_div size (batch_size a)) ;;
      fun w => (Return tt, with_self (set_batches_count (Some count) (self w)) w)
  end ;;
  index <-
    (if String.eqb (index_by a) "" then ret []
     else
       msg <- lift (format
         [Lit "Field index_by can only be used with random set to False and can only take values                    from this set: \{s,o,so,os,''\}, instead got: {}"]
         [lit (index_by a)]) ;;
       assert ((String.eqb (index_by a) "s" || String.eqb (index_by a) "o"
                || String.eqb (index_by a) "so" || String.eqb (index_by a) "os")
               && Bool.eqb (random a) false) msg ;;
       let index := [] in
       let index := if String.eqb (index_by a) "s" then [Lit "ORDER BY subject"] else index in
       let index := if String.eqb (index_by a) "o" then [Lit "ORDER BY object"] else index in
       let index := if String.eqb (index_by a) "so" || String.eqb (index_by a) "os"
                    then [Lit "ORDER BY subject, object"] else index in
       ret index) ;;
  o <- get_self ;;
  match batches_count o with
  | None => raise (AttributeError "batches_count")
  | Some n =>
      ret {| index := index; query := page_query; i := 0; stop := Z.to_nat n |}
  end.

(** One turn of the loop, from its head to the [yield]. *)
Definition iteration (a : batch_args) (f : frame) : M (item * frame) :=
  let offset := (Z.of_nat (i f) * batch_size a)%Z in
  query <- lift (format (query f)
    [[Txt (dataset_type a)]; index f; str_of_int offset; str_of_int (batch_size a)]) ;;
  query <-
    (if random a then
       lift (format random_page_query
         [[Txt (dataset_type a)]; str_of_int offset; str_of_int (batch_size a)])
     else ret query) ;;
  out <- _execute_query query ;;
  let f' := {| index := index f; query := query; i := S (i f); stop := stop f |} in
  if use_filter a then
    (* get the filter values *)
    participating_entities <- get_complementary_entities out ;;
    ret (OutWithFilter out participating_entities, f')
  else ret (Out out, f').

(** A generator object: created, suspended at the [yield], or done. *)
Inductive generator :=
| Created
| Suspended (f : frame)
| Finished.

Definition resume (a : batch_args) (f : frame) (w : world)
  : outcome (option item) * generator * world :=
  if (i f <? stop f)%nat then
    match iteration a f w with
    | (Return (it, f'), w') => (Return (Some it), Suspended f', w')
    | (Raise e, w') => (Raise e, Finished, w')
    end
  else (Return None, Finished, w).

(** [next(g)] for [g = self._get_batch(...)]; [Return None] is
    [StopIteration]. *)
Definition next (a : batch_args) (g : generator) (w : world)
  : outcome (option item) * generator * world :=
  match g with
  | Created =>
      match prologue a w with
      | (Return f, w') => resume a f w'
      | (Raise e, w') => (Raise e, Finished, w')
      end
  | Suspended f => resume a f w
  | Finished => (Return None, Finished, w)
  end.

(** How a run of [next] calls ended. *)
Inductive ending :=
| Stopped              (* StopIteration *)
| Failed (e : exn)
| Pending.             (* the generator is still suspended *)

(** The consumer calls [next] up to [List.length env] times and, after
    every batch it gets, does something of its own to the world. *)
Fixpoint consume (env : list (world -> world)) (a : batch_args)
                 (g : generator) (w : world) : list item * ending * world :=
  match env with
  | [] => ([], Pending, w)
  | step :: env' =>
      match next a g w with
      | (Return (Some it), g', w') =>
          let '(its, e, w'') := consume env' a g' (step w') in
          (it :: its, e, w'')
      | (Return None, _, w') => ([], Stopped, w')
      | (Raise e, _, w') => ([], Failed e, w')
      end
  end.

(** [list(self._get_batch(...))]: nothing happens between the calls.
    The generator yields at most [batches_count] times, so this many
    calls reach its end. *)
Definition _get_batch (a : batch_args) (w : world) : list item * ending * world :=
  match prologue a w with
  | (Raise e, w') => ([], Failed e, w')
  | (Return f, w') =>
      consume (repeat (fun w => w) (S (stop f - i f))) a (Suspended f) w'
  end.

End Adapter.

(* ================================================================== *)
(** * The adapter: ingestion *)
(* ================================================================== *)

Definition set_mapper (m : option DataIndexer) (o : SQLiteAdapter) : SQLiteAdapter :=
  {| db_name := db_name o; root_directory := root_directory o; db_path := db_path o;
     use_indexer := use_indexer o; remap := remap o; name := name o;
     verbose := verbose o; in_memory := in_memory o; chunk_size := chunk_size o;
     connection := connection o; batches_count := batches_count o; mapper := m |}.

(** [loader(data_source, chunk_size=...)]: the chunks of a source, each
    the values of a data frame.  A chunk has at least one row, as the
    chunked readers give them. *)
Definition loader_function := string -> Z -> list rows.

Section Ingestion.

Variable shuffle : nat -> rows -> rows.

(** The two collaborators outside the adapter:
    [DataSourceIdentifier(data_source).fetch_loader()] and the
    constructor [DataIndexer(data, in_memory=...)]. *)
Variable fetch_loader : string -> loader_function.
Variable new_indexer : list rows -> bool -> DataIndexer.

(** [hasattr(self, "mapper")] *)
Definition is_indexed : M bool :=
  o <- get_self ;;
  match mapper o with
  | None => ret false
  | Some _ => ret true
  end.

(** [self.data_source], [self.loader] and [self.data] are assigned
    before they are read on every path through [populate], and no other
    method reads them: they are handed along instead of being kept in
    the object.  [reload_data] returns what it stores in [self.data]. *)
Definition reload_data (loader : loader_function) (data_source : string) : M (list rows) :=
  o <- get_self ;;
  match chunk_size o with
  | None => raise (AttributeError "chunk_size")
  | Some n => ret (loader data_source n)
  end.

Definition index_entities (loader : loader_function) (data_source : string) : M unit :=
  data <- reload_data loader data_source ;;
  o <- get_self ;;
  match use_indexer o with
  | Flag true =>
      fun w => (Return tt, with_self (set_mapper (Some (new_indexer data (in_memory o))) (self w)) w)
  | Flag false => print "Data won't be indexed"
  | Prebuilt m =>
      fun w => (Return tt, with_self (set_mapper (Some m) (self w)) w)
  end.

(** [for chunk in self.data: ...] *)
Fixpoint insert_chunks (indexed : rows -> string -> M rows) (dataset_type : string)
                       (data : list rows) : M unit :=
  match data with
  | [] => ret tt
  | chunk :: rest =>
      values_triples <- indexed chunk dataset_type ;;
      _insert_values_to_a_table [Lit "triples_table"] (map RowElem values_triples) ;;
      insert_chunks indexed dataset_type rest
  end.

Definition populate (data_source dataset_type : string)
    (get_indexed_triples_arg : option (rows -> string -> M rows))
    (loader : option loader_function) : M unit :=
  let loader :=
    match loader with
    | Some l => l
    | None => fetch_loader data_source
    end in
  o <- get_self ;;
  indexed <- is_indexed ;;
  (if negb indexed && indexing_requested (use_indexer o) then
     when (verbose o) (print "indexing...") ;;
     index_entities loader data_source
   else print "Data is already indexed or no indexing is required.") ;;
  let indexed_triples :=
    match get_indexed_triples_arg with
    | Some f => f
    | None => get_indexed_triples
    end in
  data <- reload_data loader data_source ;;
  insert_chunks indexed_triples dataset_type data ;;
  when (verbose o) (print "data is populated").

(** [with self: self.populate(data_source, dataset_type=dataset_type)] *)
Definition _load (data_source dataset_type : string) : M unit :=
  with_self_do shuffle (populate data_source dataset_type None None).

End Ingestion.

(* ================================================================== *)
(** * Worlds to run the adapter in *)
(* ================================================================== *)

(** An order [random()] may give: the rows backwards. *)
Definition backwards (n : nat) (l : rows) : rows := rev l.

(** The arguments of [SQLiteAdapter("database.db", chunk_size=None)]. *)
Definition without_chunk_size : init_args :=
  {| arg_db_name := "database.db"; arg_chunk_size := None;
     arg_root_directory := "./"; arg_use_indexer := Flag true;
     arg_verbose := false; arg_remap := false;
     arg_name := "main_partition"; arg_in_memory := false |}.

(** [SQLiteAdapter("database.db")], before any database file exists. *)
Definition new_adapter : SQLiteAdapter := snd (__init__ (defaults "database.db")).

Definition no_file : world :=
  {| self := new_adapter; disk := None; stdout := []; clock := 0 |}.

Definition stored (s p o : Z) (label : string) : element :=
  RowElem [VInt s; VInt p; VInt o; VText label].

(** The world after [__enter__] and one chunk written to the triple
    table. *)
Definition store_of (values : list element) : world :=
  snd ((__enter__ backwards ;;
        _insert_values_to_a_table [Lit "triples_table"] values) no_file).

(** The table of the specification's example. *)
Definition example_store : world :=
  store_of [stored 1 10 2 "train"; stored 3 10 2 "train"; stored 1 10 4 "train"].

(** Four rows in partition train, one in partition test. *)
Definition two_page_store : world :=
  store_of [stored 1 10 2 "train"; stored 3 10 2 "train"; stored 1 10 4 "train";
            stored 1 20 5 "test"; stored 3 20 4 "train"].

Definition plain (batch_size : Z) (dataset_type : string) : batch_args :=
  {| batch_size := batch_size; dataset_type := dataset_type;
     random := false; use_filter := false; index_by := "" |}.

(** [_get_batch(batch_size=2, dataset_type="train", random=random,
    index_by=index_by)] *)
Definition ordered (index_by : string) (random : bool) : batch_args :=
  {| batch_size := 2; dataset_type := "train"; random := random;
     use_filter := false; index_by := index_by |}.

(** The rows of a table as the open connection sees them. *)
Definition visible (t : string) (w : world) : rows :=
  match connection (self w) with
  | Some c =>
      match assoc t (tables (working c)) with
      | Some tb => body tb
      | None => []
      end
  | None => []
  end.

(** The rows of a table in the database file. *)
Definition committed (t : string) (w : world) : rows :=
  match disk w with
  | Some d =>
      match assoc t (tables d) with
      | Some tb => body tb
      | None => []
      end
  | None => []
  end.

(** The database as the connection sees it. *)
Definition database_of (w : world) : database :=
  match connection (self w) with
  | Some c => working c
  | None => empty
  end.

(** [d'] is [d] with the rows [params] appended to table [t], and
    nothing else changed. *)
Definition appended (t : string) (params : rows) (d d' : database) : Prop :=
  (exists tb, assoc t (tables d) = Some tb
              /\ assoc t (tables d') = Some {| columns := columns tb; body := body tb ++ params |})
  /\ (forall t', t' <> t -> assoc t' (tables d') = assoc t' (tables d))
  /\ indexes d' = indexes d.

(** The columns the adapter gives its table. *)
Definition triples_columns : list string :=
  ["subject"; "predicate"; "object"; "dataset_type"].

Fixpoint names_eqb (a b : list string) : bool :=
  match a, b with
  | [], [] => true
  | x :: a', y :: b' => String.eqb x y && names_eqb a' b'
  | _, _ => false
  end.

Definition index_on_triples (i : string) (d : database) : bool :=
  match assoc i (indexes d) with
  | Some ix => String.eqb (on_table ix) "triples_table"
  | None => false
  end.

Definition triples_table_ok (tb : table) : bool :=
  names_eqb (map fst (columns tb)) triples_columns
  && forallb (fun r => (List.length r =? 4)%nat) (body tb).

(** If the database has a triple table, it is the adapter's: its four
    columns, and four cells in every row. *)
Definition well_formed (d : database) : bool :=
  match assoc "triples_table" (tables d) with
  | Some tb => triples_table_ok tb
  | None => true
  end.

(** The database has the adapter's triple table and the two indexes
    the complementary-entity queries name. *)
Definition has_schema (d : database) : bool :=
  match assoc "triples_table" (tables d) with
  | Some tb =>
      triples_table_ok tb
      && index_on_triples "triples_table_sp_idx" d
      && index_on_triples "triples_table_po_idx" d
  | None => false
  end.

(** From the specification's words: the distinct objects for which
    some (subject, predicate) pair of the batch recurs in the table. *)
Definition shares_subject_predicate (t : triple) (r : row) : bool :=
  value_eqb (nth 0 r VNull) (VInt (subject t))
  && value_eqb (nth 1 r VNull) (VInt (predicate t)).

Definition objects_by_pair (table : rows) (batch : list triple) : rows :=
  distinct (map (fun r => [nth 2 r VNull])
                (filter (fun r => existsb (fun t => shares_subject_predicate t r) batch) table)).

(** The text of a page query once its fields are filled, without an
    ordering. *)
Definition formatted_page (label : string) (offset count : Z) : str :=
  [Lit "SELECT * FROM triples_table INDEXED BY                  triples_table_type_idx where dataset_type ='";
   Txt label; Lit "' "; Lit " LIMIT "; Num offset; Lit ", "; Num count].

Definition formatted_random_page (label : string) (offset count : Z) : str :=
  [Lit "select * from triples_table INDEXED BY triples_table_type_idx                          where dataset_type = '";
   Txt label; Lit "' order by random() limit "; Num offset; Lit ", "; Num count; Lit ";"].

(** What the loop of [_get_batch] keeps in [index] and [query] when no
    ordering was asked for: the template before the first turn, a
    filled page query after it. *)
Definition frame_ok (label : string) (f : frame) : Prop :=
  index f = []
  /\ (query f = page_query
      \/ (exists offset count, query f = formatted_page label offset count)
      \/ (exists offset count, query f = formatted_random_page label offset count)).

Definition generator_ok (label : string) (g : generator) : Prop :=
  match g with
  | Suspended f => frame_ok label f
  | _ => True
  end.

(** A row of the partition [label]: four cells, the last one the
    label. *)
Definition in_partition (label : string) (r : row) : Prop :=
  List.length r = 4%nat /\ nth_error r 3 = Some (VText label).

(** Every row of every batch among [its] is a row of the partition
    [label], and none is one of the rows [excluded]. *)
Definition batches_within (label : string) (excluded : rows) (its : list item) : Prop :=
  forall it out r,
    In it its -> batch_of it = Some out -> In r out ->
    in_partition label r /\ ~ In r excluded.

(** What the consumer does between two batches keeps the triple table
    the adapter's. *)
Definition keeps_well_formed (step : world -> world) : Prop :=
  forall w, well_formed (database_of w) = true -> well_formed (database_of (step w)) = true.

(** An adapter that takes its triples as they come ([use_indexer=False]). *)
Definition unindexed : world :=
  {| self := snd (__init__ {| arg_db_name := "database.db";
                              arg_chunk_size := Some DEFAULT_CHUNKSIZE;
                              arg_root_directory := "./";
                              arg_use_indexer := Flag false;
                              arg_verbose := false; arg_remap := false;
                              arg_name := "main_partition";
                              arg_in_memory := false |});
     disk := None; stdout := []; clock := 0 |}.

(** The connection of a world that has one. *)
Definition connection_of (w : world) : Connection :=
  match connection (self w) with
  | Some c => c
  | None => {| working := empty; closed := true |}
  end.

(** A consumer that leaves the store alone between three batches. *)
Definition idle_consumer : list (world -> world) :=
  [fun w => w; fun w => w; fun w => w].

(** A chunk whose second row cannot be bound. *)
Definition chunk_with_bad_row : list element :=
  [stored 5 10 6 "train"; RowElem [VInt 7; VInt 10; VInt 8; VObj]].

(** The tokens of [n1,n2,...]. *)
Definition number_tokens (ns : list Z) : list token :=
  match ns with
  | [] => []
  | n :: ns' => TNum n :: flat_map (fun k => [TPunct ","%char; TNum k]) ns'
  end.

Definition is_open (w : world) : bool :=
  match connection (self w) with
  | Some c => negb (closed c)
  | None => false
  end.

(** ** Stores, for the properties of the methods *)

(** The connection is open and sees the database [d]. *)
Definition sees (w : world) (d : database) : Prop :=
  connection (self w) = Some {| working := d; closed := false |}.

(** The database [_create_database] makes of an empty file. *)
Definition fresh_database : database :=
  {| tables :=
       [("triples_table",
         {| columns := [("subject", "integer"); ("predicate", "integer");
                        ("object", "integer"); ("dataset_type", "text")];
            body := [] |})];
     indexes :=
       [("triples_table_sp_idx",
         {| on_table := "triples_table"; on_columns := ["subject"; "predicate"] |});
        ("triples_table_po_idx",
         {| on_table := "triples_table"; on_columns := ["predicate"; "object"] |});
        ("triples_table_type_idx",
         {| on_table := "triples_table"; on_columns := ["dataset_type"] |});
        ("triples_table_sub_obj_idx",
         {| on_table := "triples_table"; on_columns := ["subject"; "object"] |});
        ("triples_table_subject_idx",
         {| on_table := "triples_table"; on_columns := ["subject"] |});
        ("triples_table_object_idx",
         {| on_table := "triples_table"; on_columns := ["object"] |})] |}.

(** The names of the six indexes of the schema. *)
Definition schema_index_names : list string :=
  ["triples_table_sp_idx"; "triples_table_po_idx"; "triples_table_type_idx";
   "triples_table_sub_obj_idx"; "triples_table_subject_idx"; "triples_table_object_idx"].

Definition has_index (d : database) (i : string) : bool :=
  match assoc i (indexes d) with
  | Some _ => true
  | None => false
  end.

(** The store [_get_batch] reads: the adapter's triple table and the
    index on the partition label. *)
Definition pageable (d : database) : bool :=
  match assoc "triples_table" (tables d) with
  | Some tb => triples_table_ok tb && index_on_triples "triples_table_type_idx" d
  | None => false
  end.

(** The rows of partition [label], in table order. *)
Definition partition_rows (label : string) (d : database) : rows :=
  match assoc "triples_table" (tables d) with
  | Some tb => filter (satisfies [REq 3 (VText label)]) (body tb)
  | None => []
  end.

(** A row a table of four columns takes: four cells, each one SQLite
    can bind. *)
Definition storable (r : row) : bool :=
  (List.length r =? 4)%nat && forallb bindable r.

(** A chunk of triples as the loaders give them: at least one row, and
    three cells that SQLite can bind in every row. *)
Definition triple_row (r : row) : bool :=
  (List.length r =? 3)%nat && forallb bindable r.

Definition good_chunk (chunk : rows) : bool :=
  match chunk with
  | [] => false
  | _ => forallb triple_row chunk
  end.

(** The rows that [get_indexed_triples] makes of a chunk when nothing
    is indexed. *)
Definition labelled (label : string) (chunk : rows) : rows :=
  map (fun r => r ++ [VText label]) chunk.

(** The text of the statement [_insert_values_to_a_table] builds for
    the triple table and rows of four cells. *)
Definition insert_four : str :=
  [Lit "INSERT INTO "; Lit "triples_table"; Lit " VALUES ";
   Lit "("; Lit "?"; Lit ", "; Lit "?"; Lit ", "; Lit "?"; Lit ", "; Lit "?"; Lit ")"].

(** ** Ingestion, statements and stores, for the further properties *)

(** The objects of the two worlds differ in their connection at most. *)
Definition same_object (w w' : world) : Prop :=
  set_connection None (self w') = set_connection None (self w).

(** How [get_indexed_triples] turns a chunk into triples: through the
    mapper when indexing is asked for, not at all otherwise. *)
Definition translation (u : indexer_option) (m : option DataIndexer) : option (rows -> rows) :=
  if indexing_requested u then option_map get_indexes m
  else Some (fun chunk => chunk).

(** A loader that gives two chunks, of two rows and of one. *)
Definition two_chunks : loader_function := fun _ _ =>
  [[[VInt 1; VInt 10; VInt 2]; [VInt 3; VInt 10; VInt 2]]; [[VInt 1; VInt 10; VInt 4]]].

(** An indexer that adds 100 to every integer. *)
Definition shifting_indexer : DataIndexer :=
  {| get_indexes := map (map (fun v => match v with
                                       | VInt n => VInt (n + 100)
                                       | _ => v
                                       end)) |}.

(** The mapper [populate] works with: the one the object has, or else
    the one [index_entities] gives it. *)
Definition chosen_mapper (new_indexer : list rows -> bool -> DataIndexer)
    (o : SQLiteAdapter) (data : list rows) : option DataIndexer :=
  match mapper o with
  | Some m => Some m
  | None =>
      match use_indexer o with
      | Flag true => Some (new_indexer data (in_memory o))
      | Flag false => None
      | Prebuilt m => Some m
      end
  end.

(** The loader [populate] reads with. *)
Definition chosen_loader (fetch_loader : string -> loader_function)
    (loader : option loader_function) (data_source : string) : loader_function :=
  match loader with
  | Some l => l
  | None => fetch_loader data_source
  end.

(** The database a list of statements leaves when they are run one
    after the other, a rejected one changing nothing; [seed] is the
    number of the first. *)
Fixpoint run_queries (shuffle : nat -> rows -> rows) (seed : nat) (d : database)
                     (queries : list str) : database :=
  match queries with
  | [] => d
  | q :: rest =>
      match execute shuffle seed d q with
      | Ok _ d' => run_queries shuffle (S seed) d' rest
      | Rejected _ => run_queries shuffle (S seed) d rest
      end
  end.

(** Every index of the database is on the triple table. *)
Definition only_triples_indexes (d : database) : bool :=
  forallb (fun b => String.eqb (on_table (snd b)) "triples_table") (indexes d).

(** The database [__enter__] connects to: the one of the file, or a new
    one with the schema. *)
Definition entered (w : world) : database :=
  match disk w with
  | Some d => d
  | None => fresh_database
  end.

(** An indexer that knows no triple (1, 10, 4) and leaves it out. *)
Definition picky_indexer : DataIndexer :=
  {| get_indexes := filter (fun r => negb (row_eqb r [VInt 1; VInt 10; VInt 4])) |}.

(** The world after [__enter__] where there was no file. *)
Definition new_store : world := snd (__enter__ backwards no_file).

(** The example store after [clean_up]. *)
Definition cleared_store : world := snd (clean_up backwards example_store).

(** A consumer that writes two more rows of partition train after each
    of five batches. *)
Definition growing_consumer : list (world -> world) :=
  repeat (fun w => snd (_insert_values_to_a_table [Lit "triples_table"]
                          [stored 7 10 8 "train"; stored 9 10 8 "train"] w)) 5.

(** The store of two pages after one run of the iterator. *)
Definition counted_store : world :=
  snd (_get_batch backwards (plain 2 "train") two_page_store).

(* ================================================================== *)
(** * Properties *)
(* ================================================================== *)

Lemma value_eqb_eq a b : value_eqb a b = true <-> a = b.
Proof.
  destruct a, b; simpl; split; intros H; try discriminate; try reflexivity.
  - apply Z.eqb_eq in H. now subst.
  - inversion H. apply Z.eqb_refl.
  - apply String.eqb_eq in H. now subst.
  - inversion H. apply String.eqb_refl.
Qed.

(** ** Construction *)

(** C10: constructing the adapter with [chunk_size=None] raises in
    [__init__] and leaves the attribute [chunk_size] unassigned: with
    [remap] false the exception is the [AttributeError] of
    [self.__name__].  The default of 30000 is what the attribute holds
    only when the argument is left out, and then [__init__] returns. *)
Theorem init_chunk_size_none (a : init_args) (db : string) :
  arg_chunk_size a = None ->
  raised (fst (__init__ a)) = true
  /\ chunk_size (snd (__init__ a)) = None
  /\ (arg_remap a = false -> fst (__init__ a) = Raise (AttributeError "__name__"))
  /\ fst (__init__ (defaults db)) = Return tt
  /\ chunk_size (snd (__init__ (defaults db))) = Some 30000%Z.
Proof.
  intros Hnone. unfold __init__. rewrite Hnone.
  destruct (arg_remap a); simpl; repeat split; try reflexivity.
  intros H; discriminate H.
Qed.

Lemma init_chunk_size_none_witness :
  raised (fst (__init__ without_chunk_size)) = true
  /\ chunk_size (snd (__init__ without_chunk_size)) = None
  /\ (arg_remap without_chunk_size = false ->
      fst (__init__ without_chunk_size) = Raise (AttributeError "__name__"))
  /\ fst (__init__ (defaults "database.db")) = Return tt
  /\ chunk_size (snd (__init__ (defaults "database.db"))) = Some 30000%Z.
Proof.
  apply (init_chunk_size_none without_chunk_size "database.db"). reflexivity.
Defined.

(** The attribute is never anything but the argument. *)
Lemma init_chunk_size_from_argument (a : init_args) :
  chunk_size (snd (__init__ a)) = if arg_remap a then None else arg_chunk_size a.
Proof.
  unfold __init__. destruct (arg_remap a); [reflexivity|].
  destruct (arg_chunk_size a); reflexivity.
Qed.

(** ** The context manager *)

(** C4: leaving the [with] block through an exception rolls back but
    does not close: the connection of [example_store] is still open
    after [__exit__] with a traceback, and the same after a whole
    [with] statement whose body raises, whereas a normal exit closes
    it. *)
Theorem exit_on_error_keeps_connection_open :
  is_open example_store = true
  /\ fst (__exit__ (Some (ValueError "stop")) example_store) = Return tt
  /\ is_open (snd (__exit__ (Some (ValueError "stop")) example_store)) = true
  /\ fst (with_self_do backwards (raise (A := unit) (ValueError "stop")) no_file)
     = Raise (ValueError "stop")
  /\ is_open (snd (with_self_do backwards (raise (A := unit) (ValueError "stop")) no_file)) = true
  /\ is_open (snd (__exit__ None example_store)) = false
  /\ is_open (snd (with_self_do backwards (ret tt) no_file)) = false.
Proof. vm_compute. repeat split; reflexivity. Qed.

(** On every world with an open connection the error path leaves it
    open. *)
Lemma exit_with_traceback_never_closes (e : exn) (w : world) :
  is_open w = true -> is_open (snd (__exit__ (Some e) w)) = true.
Proof.
  unfold is_open, __exit__, rollback, open_connection, bind.
  destruct (connection (self w)) as [c|] eqn:Hc; [|discriminate].
  destruct (closed c) eqn:Hcl; [discriminate|]. intros _.
  destruct (disk w); simpl; [reflexivity|]. now rewrite Hc, Hcl.
Qed.

(** ** Filling the page query *)

Lemma format_page_query (label : string) (offset count : Z) :
  format page_query [[Txt label]; []; str_of_int offset; str_of_int count]
  = Return (formatted_page label offset count).
Proof. reflexivity. Qed.

(** A filled page query has no field left: formatting it again changes
    nothing, whatever the arguments. *)
Lemma format_formatted_page (label : string) (offset count : Z) (args : list str) :
  format (formatted_page label offset count) args
  = Return (formatted_page label offset count).
Proof. reflexivity. Qed.

Lemma format_formatted_random_page (label : string) (offset count : Z) (args : list str) :
  format (formatted_random_page label offset count) args
  = Return (formatted_random_page label offset count).
Proof. reflexivity. Qed.

(** ** The batch iterator: what goes wrong *)

Section Iterator.

Variable shuffle : nat -> rows -> rows.

(** With a filter requested, a turn of the loop never reaches its
    [yield]. *)
Lemma iteration_with_filter_raises (a : batch_args) (f : frame) (w : world) :
  use_filter a = true ->
  exists e w', iteration shuffle a f w = (Raise e, w').
Proof.
  intros Hf. unfold iteration, bind, lift.
  destruct (format (query f) _) as [q|e]; [|eauto].
  destruct (random a).
  - destruct (format random_page_query _) as [q'|e]; [|eauto].
    destruct (_execute_query shuffle q' w) as [[out|e] w']; [|eauto].
    rewrite Hf. unfold get_complementary_entities, raise. eauto.
  - unfold ret. destruct (_execute_query shuffle q w) as [[out|e] w']; [|eauto].
    rewrite Hf. unfold get_complementary_entities, raise. eauto.
Qed.

Lemma get_batch_with_filter_yields_nothing (a : batch_args) (w : world) :
  use_filter a = true -> fst (fst (_get_batch shuffle a w)) = [].
Proof.
  intros Hf. unfold _get_batch.
  destruct (prologue shuffle a w) as [[f|e] w']; [|reflexivity].
  simpl. unfold resume.
  destruct (i f <? stop f)%nat; [|reflexivity].
  destruct (iteration_with_filter_raises a f w' Hf) as (e & w'' & ->).
  reflexivity.
Qed.

(** The message of the assertion cannot be built, whatever it is
    given: its text holds a brace pair that [str.format] reads as a
    field with a name. *)
Lemma index_by_message_raises (args : list str) :
  format
    [Lit "Field index_by can only be used with random set to False and can only take values                    from this set: \{s,o,so,os,''\}, instead got: {}"]
    args
  = Raise (KeyError "s,o,so,os,''\").
Proof. reflexivity. Qed.

Lemma prologue_with_index_by_raises (a : batch_args) (w : world) :
  String.eqb (index_by a) "" = false ->
  exists e w', prologue shuffle a w = (Raise e, w').
Proof.
  intros Hi. unfold prologue.
  unfold bind at 1. unfold get_self at 1.
  unfold bind at 1.
  match goal with |- context [match ?m w with _ => _ end] => destruct (m w) as [[[]|e] w1] end;
    [|eauto].
  rewrite Hi. unfold bind at 1. unfold bind at 1. unfold lift at 1.
  rewrite index_by_message_raises. eauto.
Qed.

Lemma get_batch_with_index_by_yields_nothing (a : batch_args) (w : world) :
  String.eqb (index_by a) "" = false ->
  fst (fst (_get_batch shuffle a w)) = []
  /\ exists e, snd (fst (_get_batch shuffle a w)) = Failed e.
Proof.
  intros Hi. unfold _get_batch.
  destruct (prologue_with_index_by_raises a w Hi) as (e & w' & ->).
  simpl. eauto.
Qed.

(** Whatever SQLite rejects comes back from [_execute_query] as
    [None]. *)
Lemma execute_query_rejected (q : str) (w : world) (c : Connection) (e : sqlite_error) :
  connection (self w) = Some c ->
  closed c = false ->
  execute shuffle (clock w) (working c) q = Rejected e ->
  _execute_query shuffle q w
  = (Return None,
     {| self := self w; disk := disk w;
        stdout := stdout w ++ [("Query failed. The error '" ++ error_text e ++ "' occurred")%string];
        clock := S (clock w) |}).
Proof.
  intros Hc Hcl Hx.
  unfold _execute_query, cursor, try_except, bind, open_connection, tick, raise, print, ret.
  rewrite Hc, Hcl. simpl. rewrite Hc, Hcl. simpl. rewrite Hx. reflexivity.
Qed.

Lemma execute_query_accepted (q : str) (w : world) (c : Connection)
    (out : rows) (d : database) :
  connection (self w) = Some c ->
  closed c = false ->
  execute shuffle (clock w) (working c) q = Ok out d ->
  exists printed,
    _execute_query shuffle q w
    = (Return (Some out),
       {| self := set_connection (Some {| working := d; closed := false |}) (self w);
          disk := Some d; stdout := printed; clock := S (clock w) |}).
Proof.
  intros Hc Hcl Hx.
  unfold _execute_query, cursor, try_except, when, commit, set_working, get_self.
  unfold bind, open_connection, tick, raise, print, ret.
  rewrite Hc, Hcl. simpl. rewrite Hc, Hcl. simpl. rewrite Hx. simpl.
  destruct (verbose (self w)); simpl; eexists; reflexivity.
Qed.

Lemma execute_query_no_connection (q : str) (w : world) :
  connection (self w) = None ->
  _execute_query shuffle q w = (Raise (AttributeError "connection"), w).
Proof.
  intros Hc. unfold _execute_query, cursor. unfold bind at 1. unfold bind at 1.
  unfold open_connection at 1. now rewrite Hc.
Qed.

Lemma execute_query_closed (q : str) (w : world) (c : Connection) :
  connection (self w) = Some c ->
  closed c = true ->
  _execute_query shuffle q w = (Raise closed_database, w).
Proof.
  intros Hc Hcl. unfold _execute_query, cursor. unfold bind at 1. unfold bind at 1.
  unfold open_connection at 1. now rewrite Hc, Hcl.
Qed.

Lemma format_count_statement (table condition : str) :
  exists q, format [Lit "SELECT count(*) from {} {};"] [table; condition] = Return q.
Proof. eexists. reflexivity. Qed.

(** The [ValueError] of [get_data_size] is dead code. *)
Lemma get_data_size_never_value_error (table condition : str) (w : world) (msg : string) :
  fst (get_data_size shuffle table condition w) <> Raise (ValueError msg).
Proof.
  unfold get_data_size. unfold bind at 1. unfold lift at 1.
  destruct (format_count_statement table condition) as (q & ->).
  unfold bind at 1.
  assert (Hq : forall e, fst (_execute_query shuffle q w) = Raise e ->
                         e <> ValueError msg).
  { destruct (connection (self w)) as [c|] eqn:Hc.
    - destruct (closed c) eqn:Hcl.
      + rewrite (execute_query_closed q w c Hc Hcl). simpl.
        intros e H. inversion H. discriminate.
      + destruct (execute shuffle (clock w) (working c) q) as [out d|e0] eqn:Hx.
        * destruct (execute_query_accepted q w c out d Hc Hcl Hx) as (printed & ->).
          simpl. intros e H. discriminate H.
        * rewrite (execute_query_rejected q w c e0 Hc Hcl Hx). simpl.
          intros e H. discriminate H.
    - rewrite (execute_query_no_connection q w Hc). simpl.
      intros e H. inversion H. discriminate. }
  destruct (_execute_query shuffle q w) as [[count|e] w1]; simpl in *.
  - destruct count as [[|[|n r] rs]|]; simpl; discriminate.
  - intros H. inversion H. subst. now apply (Hq (ValueError msg)).
Qed.

(** A count statement that SQLite rejects, for a missing table or for a
    condition it cannot read, ends the same way: [None]. *)
Lemma get_data_size_rejected (table condition q : str) (w : world) (c : Connection)
    (e : sqlite_error) :
  connection (self w) = Some c ->
  closed c = false ->
  format [Lit "SELECT count(*) from {} {};"] [table; condition] = Return q ->
  execute shuffle (clock w) (working c) q = Rejected e ->
  fst (get_data_size shuffle table condition w) = Return None
  /\ last (stdout (snd (get_data_size shuffle table condition w))) ""
     = "Table is empty or not such table exists.".
Proof.
  intros Hc Hcl Hq Hx.
  assert (Hrun : exists printed,
            get_data_size shuffle table condition w
            = (Return None,
               {| self := self w; disk := disk w;
                  stdout := printed ++ ["Table is empty or not such table exists."];
                  clock := S (clock w) |})).
  { unfold get_data_size. unfold bind at 1. unfold lift at 1. rewrite Hq.
    unfold bind at 1. rewrite (execute_query_rejected q w c e Hc Hcl Hx).
    eexists. reflexivity. }
  destruct Hrun as (printed & ->). simpl. split; [reflexivity|]. apply last_last.
Qed.

(** A turn of the loop that reaches its [yield] moves the loop
    variable by one. *)
Lemma iteration_advances (a : batch_args) (f f' : frame) (w w' : world) (it : item) :
  iteration shuffle a f w = (Return (it, f'), w') ->
  i f' = S (i f) /\ stop f' = stop f.
Proof.
  unfold iteration, bind, lift, ret.
  destruct (format (query f) _) as [q1|]; [|discriminate].
  destruct (random a).
  - destruct (format random_page_query _) as [q2|]; [|discriminate].
    destruct (_execute_query shuffle q2 w) as [[out|] w1]; [|discriminate].
    destruct (use_filter a); [discriminate|].
    intros H. inversion H. simpl. auto.
  - destruct (_execute_query shuffle q1 w) as [[out|] w1]; [|discriminate].
    destruct (use_filter a); [discriminate|].
    intros H. inversion H. simpl. auto.
Qed.

(** The generator yields at most [stop - i] more batches, whatever
    happens to the store between them. *)
Lemma consume_bounded (a : batch_args) (env : list (world -> world)) :
  forall f w,
    (List.length (fst (fst (consume shuffle env a (Suspended f) w))) <= stop f - i f)%nat.
Proof.
  induction env as [|step env IH]; intros f w; simpl; [lia|].
  unfold resume.
  destruct (i f <? stop f)%nat eqn:Hlt; [|simpl; lia].
  apply Nat.ltb_lt in Hlt.
  destruct (iteration shuffle a f w) as [[[it f']|e] w'] eqn:Hit; [|simpl; lia].
  destruct (iteration_advances a f f' w w' it Hit) as [Hi Hs].
  specialize (IH f' (step w')).
  destruct (consume shuffle env a (Suspended f') (step w')) as [[its e] w'']. simpl in *.
  lia.
Qed.

(** With more calls than batches left, the run reaches the end of the
    generator or an exception. *)
Lemma consume_finishes (a : batch_args) (env : list (world -> world)) :
  forall f w,
    (stop f - i f < List.length env)%nat ->
    snd (fst (consume shuffle env a (Suspended f) w)) <> Pending.
Proof.
  induction env as [|step env IH]; intros f w; simpl; [lia|].
  intros Hlen. unfold resume.
  destruct (i f <? stop f)%nat eqn:Hlt; [|simpl; discriminate].
  apply Nat.ltb_lt in Hlt.
  destruct (iteration shuffle a f w) as [[[it f']|e] w'] eqn:Hit; [|simpl; discriminate].
  destruct (iteration_advances a f f' w w' it Hit) as [Hi Hs].
  specialize (IH f' (step w')).
  destruct (consume shuffle env a (Suspended f') (step w')) as [[its e] w'']. simpl in *.
  apply IH. lia.
Qed.

(** [list(self._get_batch(...))] always ends. *)
Lemma get_batch_finishes (a : batch_args) (w : world) :
  snd (fst (_get_batch shuffle a w)) <> Pending.
Proof.
  unfold _get_batch.
  destruct (prologue shuffle a w) as [[f|e] w']; [|simpl; discriminate].
  apply consume_finishes. rewrite repeat_length. lia.
Qed.

(** Once [query] holds a filled page query, a turn of the loop without
    [random] runs that very text again: the offset of the turn is not
    written into it. *)
Lemma iteration_repeats_query (a : batch_args) (f f' : frame) (w w' : world) (it : item)
    (label : string) (offset count : Z) :
  random a = false ->
  query f = formatted_page label offset count ->
  iteration shuffle a f w = (Return (it, f'), w') ->
  query f' = formatted_page label offset count
  /\ fst (_execute_query shuffle (formatted_page label offset count) w)
     = Return (batch_of it).
Proof.
  intros Hr Hq. unfold iteration. rewrite Hq, Hr.
  unfold bind at 1. unfold lift at 1. rewrite format_formatted_page.
  unfold bind at 1. unfold ret at 1. unfold bind at 1.
  destruct (_execute_query shuffle (formatted_page label offset count) w)
    as [[out|e] w1]; [|discriminate].
  destruct (use_filter a).
  - unfold bind, get_complementary_entities, raise. discriminate.
  - unfold ret. intros H. inversion H; subst. simpl. auto.
Qed.

End Iterator.

(** C1: on a fresh adapter over four rows of partition train and a
    batch size of 2, the iterator counts four rows and yields
    floor(4/2) = 2 batches of two rows, but the second batch is the
    first page again: [query] is overwritten by its own formatted text
    in the first turn, so the later offsets are never written into it.
    The third and the fifth row of the table are never yielded. *)
Theorem get_batch_repeats_first_page :
  fst (get_data_size backwards [Lit "triples_table"]
         [Lit "where dataset_type ='"; Txt "train"; Lit "'"] two_page_store)
  = Return (Some (VInt 4))
  /\ fst (_get_batch backwards (plain 2 "train") two_page_store)
     = ([Out (Some [[VInt 1; VInt 10; VInt 2; VText "train"];
                    [VInt 3; VInt 10; VInt 2; VText "train"]]);
         Out (Some [[VInt 1; VInt 10; VInt 2; VText "train"];
                    [VInt 3; VInt 10; VInt 2; VText "train"]])],
        Stopped)
  /\ visible "triples_table" two_page_store
     = [[VInt 1; VInt 10; VInt 2; VText "train"];
        [VInt 3; VInt 10; VInt 2; VText "train"];
        [VInt 1; VInt 10; VInt 4; VText "train"];
        [VInt 1; VInt 20; VInt 5; VText "test"];
        [VInt 3; VInt 20; VInt 4; VText "train"]].
Proof. vm_compute. repeat split; reflexivity. Qed.

(** The name the generator calls is not among the methods; the
    resolver's name is. *)
Lemma get_complementary_entities_is_no_method :
  has_method "get_complementary_entities" = false
  /\ has_method "_get_complementary_entities" = true.
Proof. split; reflexivity. Qed.

(** C7: with [use_filter=True] the first [next] raises
    [AttributeError]: the generator calls
    [self.get_complementary_entities], which the class does not have.
    No batch is yielded, with or without its complementary
    entities. *)
Theorem get_batch_with_filter_raises :
  fst (_get_batch backwards
         {| batch_size := 2; dataset_type := "train"; random := false;
            use_filter := true; index_by := "" |} two_page_store)
  = ([], Failed (AttributeError "get_complementary_entities"))
  /\ fst (_get_batch backwards
         {| batch_size := 2; dataset_type := "train"; random := true;
            use_filter := true; index_by := "" |} two_page_store)
  = ([], Failed (AttributeError "get_complementary_entities")).
Proof. vm_compute. split; reflexivity. Qed.

(** C8: an ordering with [random=False] is not accepted: for [s], [o],
    [so] and [os] the first [next] raises [KeyError] while the message
    of the assertion is built, before the assertion and before any
    ORDER BY is written.  With [random=True] the exception is the same
    [KeyError], not the assertion's. *)
Theorem get_batch_with_index_by_raises :
  fst (_get_batch backwards (ordered "s" false) two_page_store)
  = ([], Failed (KeyError "s,o,so,os,''\"))
  /\ fst (_get_batch backwards (ordered "o" false) two_page_store)
     = ([], Failed (KeyError "s,o,so,os,''\"))
  /\ fst (_get_batch backwards (ordered "so" false) two_page_store)
     = ([], Failed (KeyError "s,o,so,os,''\"))
  /\ fst (_get_batch backwards (ordered "os" false) two_page_store)
     = ([], Failed (KeyError "s,o,so,os,''\"))
  /\ fst (_get_batch backwards (ordered "s" true) two_page_store)
     = ([], Failed (KeyError "s,o,so,os,''\")).
Proof.
  split; [vm_compute; reflexivity|]. split; [vm_compute; reflexivity|].
  split; [vm_compute; reflexivity|]. split; vm_compute; reflexivity.
Qed.

(** C9: a count with a malformed condition does not fail: SQLite
    rejects the statement, [_execute_query] prints the error and hands
    back [None], and [get_data_size] returns that [None] after the same
    line it prints for a missing table.  The caller sees the same
    result in both cases; the [ValueError] of the method is never
    raised. *)
Theorem get_data_size_malformed_condition :
  parse [Lit "SELECT count(*) from "; Lit "triples_table"; Lit " "; Lit "where"; Lit ";"] = None
  /\ fst (get_data_size backwards [Lit "triples_table"] [Lit "where"] example_store)
     = Return None
  /\ fst (get_data_size backwards [Lit "no_such_table"] [] example_store)
     = Return None
  /\ last (stdout (snd (get_data_size backwards [Lit "triples_table"] [Lit "where"] example_store))) ""
     = "Table is empty or not such table exists."
  /\ last (stdout (snd (get_data_size backwards [Lit "no_such_table"] [] example_store))) ""
     = "Table is empty or not such table exists."
  /\ fst (get_data_size backwards [Lit "triples_table"] [] example_store)
     = Return (Some (VInt 3)).
Proof. vm_compute. repeat split; reflexivity. Qed.

(** ** The query executor and the bulk writer *)

Lemma assoc_put_same {A} (k : string) (a : A) (l : list (string * A)) :
  assoc k (put k a l) = Some a.
Proof.
  induction l as [|[k' a'] l IH]; simpl.
  - now rewrite String.eqb_refl.
  - destruct (String.eqb k k') eqn:E; simpl; rewrite ?String.eqb_refl, ?E; auto.
Qed.

Lemma assoc_put_other {A} (k k' : string) (a : A) (l : list (string * A)) :
  k' <> k -> assoc k' (put k a l) = assoc k' l.
Proof.
  intros Hne. induction l as [|[k0 a0] l IH]; simpl.
  - apply String.eqb_neq in Hne. now rewrite Hne.
  - destruct (String.eqb k k0) eqn:E; simpl.
    + apply String.eqb_eq in E. subst k0.
      apply String.eqb_neq in Hne. now rewrite Hne.
    + destruct (String.eqb k' k0); auto.
Qed.

Lemma appended_nil (t : string) (d : database) (tb : table) :
  assoc t (tables d) = Some tb -> appended t [] d d.
Proof.
  intros H. repeat split; auto.
  exists tb. split; auto. rewrite app_nil_r, H. now destruct tb.
Qed.

Lemma append_row_appended (t : string) (r : row) (d : database) (tb : table) :
  assoc t (tables d) = Some tb -> appended t [r] d (append_row t r d).
Proof.
  intros H. unfold append_row. rewrite H. repeat split; simpl.
  - exists tb. split; auto. apply assoc_put_same.
  - intros t' Hne. now apply assoc_put_other.
Qed.

Lemma appended_trans (t : string) (p q : rows) (d1 d2 d3 : database) :
  appended t p d1 d2 -> appended t q d2 d3 -> appended t (p ++ q) d1 d3.
Proof.
  intros ((tb & H1 & H2) & Ho & Hi) ((tb' & H1' & H2') & Ho' & Hi').
  rewrite H2 in H1'. inversion H1'; subst tb'; clear H1'. simpl in H2'.
  repeat split.
  - exists tb. split; auto. now rewrite app_assoc.
  - intros t' Hne. rewrite Ho', Ho; auto.
  - congruence.
Qed.

(** A batched insert that reports no error has appended every row. *)
Lemma insert_rows_complete (t : string) (n : nat) (params : rows) (d d' : database) (tb : table) :
  assoc t (tables d) = Some tb ->
  insert_rows t n params d = (d', None) ->
  appended t params d d'.
Proof.
  revert d tb. induction params as [|r params IH]; intros d tb Ht; simpl.
  - intros H. inversion H; subst. now apply appended_nil with tb.
  - destruct (negb (List.length r =? n)%nat); [discriminate|].
    destruct (negb (forallb bindable r)); [discriminate|].
    intros H.
    pose proof (append_row_appended t r d tb Ht) as Ha.
    assert (H2 : exists tb', assoc t (tables (append_row t r d)) = Some tb').
    { destruct Ha as ((tb0 & _ & H2) & _). eauto. }
    destruct H2 as (tb' & H2).
    pose proof (IH _ _ H2 H) as Hrest.
    change (r :: params) with ([r] ++ params).
    eapply appended_trans; [exact Ha | exact Hrest].
Qed.

Lemma executemany_complete (d d' : database) (q : str) (params : rows) :
  executemany d q params = (d', None) ->
  exists t, appended t params d d'.
Proof.
  unfold executemany.
  destruct (parse q) as [[s|t n|? ?|? ? ?|?|?]|]; try discriminate.
  destruct (assoc t (tables d)) as [tb|] eqn:Ht; [|discriminate].
  destruct (List.length (columns tb) =? n)%nat; [|discriminate].
  intros H. exists t. eapply insert_rows_complete; eauto.
Qed.

Section Executor.

Variable shuffle : nat -> rows -> rows.

(** C3 (amended): for a statement run through [_execute_query] on an
    open connection, if SQLite accepts it the rows are returned and the
    change is committed (the file holds the database the statement
    left); if SQLite rejects it, the error is caught, one line is
    printed, [None] is returned and nothing is raised: the database and
    the file are as before. *)
Theorem execute_query_outcome (q : str) (w : world) (c : Connection) :
  connection (self w) = Some c ->
  closed c = false ->
  match execute shuffle (clock w) (working c) q with
  | Ok out d =>
      fst (_execute_query shuffle q w) = Return (Some out)
      /\ database_of (snd (_execute_query shuffle q w)) = d
      /\ disk (snd (_execute_query shuffle q w)) = Some d
  | Rejected e =>
      fst (_execute_query shuffle q w) = Return None
      /\ stdout (snd (_execute_query shuffle q w))
         = stdout w ++ [("Query failed. The error '" ++ error_text e ++ "' occurred")%string]
      /\ database_of (snd (_execute_query shuffle q w)) = working c
      /\ disk (snd (_execute_query shuffle q w)) = disk w
  end.
Proof.
  intros Hc Hcl.
  destruct (execute shuffle (clock w) (working c) q) as [out d|e] eqn:Hx.
  - unfold _execute_query, cursor, try_except, bind, open_connection, tick, raise,
      print, ret, set_working, commit, get_self, when, database_of.
    rewrite Hc, Hcl. simpl. rewrite Hc, Hcl. simpl. rewrite Hx. simpl.
    destruct (verbose (self w)); simpl; auto.
  - rewrite (execute_query_rejected shuffle q w c e Hc Hcl Hx). simpl.
    unfold database_of. simpl. rewrite Hc. auto.
Qed.

End Executor.

Lemma format_placeholders (x : str) :
  exists q, format [Lit "({})"] [x] = Return q.
Proof. eexists. reflexivity. Qed.

Lemma format_insert (table placeholder : str) :
  exists q, format [Lit "INSERT INTO {} VALUES {}"] [table; placeholder] = Return q.
Proof. eexists. reflexivity. Qed.

(** The world [_insert_values_to_a_table] leaves, by whether the
    batched statement [q] it built went through. *)
Lemma insert_values_run
    (table : str) (values : list element) (w : world) (c : Connection) (d0 : database) :
  connection (self w) = Some c ->
  closed c = false ->
  disk w = Some d0 ->
  exists q out,
    match executemany (working c) q (map as_params values) with
    | (d, None) =>
        _insert_values_to_a_table table values w
        = (Return tt,
           {| self := set_connection (Some {| working := d; closed := false |}) (self w);
              disk := Some d; stdout := out; clock := clock w |})
    | (d, Some e) =>
        _insert_values_to_a_table table values w
        = (Return tt,
           {| self := set_connection (Some {| working := d0; closed := false |}) (self w);
              disk := Some d0;
              stdout := out ++ [("Error " ++ error_text e)%string];
              clock := clock w |})
    end.
Proof.
  intros Hc Hcl Hd.
  unfold _insert_values_to_a_table.
  set (size := if (List.length (np_shape values) <? 2)%nat then 1%nat
               else nth 1 (np_shape values) 0%nat).
  destruct (format_placeholders (join ", " (repeat [Lit "?"] size))) as (ph & Hph).
  destruct (format_insert table ph) as (q & Hq).
  exists q.
  unfold cursor, get_self, lift, try_except, when, commit, rollback, set_working.
  unfold bind, open_connection, ret, raise, print.
  rewrite Hph, Hq.
  destruct (executemany (working c) q (map as_params values)) as [d [e|]] eqn:Hx.
  - destruct (verbose (self w)); simpl;
      repeat (first [rewrite Hc | rewrite Hcl | rewrite Hx | rewrite Hd]; simpl);
      eexists; reflexivity.
  - destruct (verbose (self w)); simpl;
      repeat (first [rewrite Hc | rewrite Hcl | rewrite Hx | rewrite Hd]; simpl);
      eexists; reflexivity.
Qed.


(** ** Reading the text of the adapter's statements *)

Lemma lex_segs_app (q1 q2 : str) : forall m acc,
  lex_segs m acc (q1 ++ q2)
  = match lex_segs m acc q1 with
    | Some (m', acc') => lex_segs m' acc' q2
    | None => None
    end.
Proof.
  induction q1 as [|[s|t|n] q1 IH]; intros m acc; simpl.
  - reflexivity.
  - destruct (lex_lit m acc s) as [m' acc']. apply IH.
  - destruct m; try reflexivity. apply IH.
  - destruct m; try reflexivity; apply IH.
Qed.

Lemma lex_segs_numbers_tail (ns : list Z) : forall n acc,
  lex_segs LIdle (TNum n :: acc) (flat_map (fun k => [Lit ","; Num k]) ns)
  = Some (LIdle, rev (flat_map (fun k => [TPunct ","%char; TNum k]) ns) ++ TNum n :: acc).
Proof.
  induction ns as [|k ns IH]; intros n acc; simpl.
  - reflexivity.
  - rewrite IH. f_equal. f_equal.
    rewrite <- !app_assoc. reflexivity.
Qed.

Lemma join_numbers (ns : list Z) :
  join "," (map str_of_int ns)
  = match ns with
    | [] => []
    | n :: ns' => Num n :: flat_map (fun k => [Lit ","; Num k]) ns'
    end.
Proof.
  destruct ns as [|n ns]; [reflexivity|].
  revert n. induction ns as [|k ns IH]; intros n; [reflexivity|].
  change (join "," (map str_of_int (n :: k :: ns)))
    with (Num n :: Lit "," :: join "," (map str_of_int (k :: ns))).
  now rewrite IH.
Qed.

Lemma lex_segs_join (ns : list Z) (acc : list token) :
  lex_segs LIdle acc (join "," (map str_of_int ns))
  = Some (LIdle, rev (number_tokens ns) ++ acc).
Proof.
  rewrite join_numbers. destruct ns as [|n ns]; [reflexivity|].
  simpl. rewrite lex_segs_numbers_tail. now rewrite <- app_assoc.
Qed.

Lemma numbers_tail_tokens (ns : list Z) (rest : list token) :
  numbers_tail (flat_map (fun k => [TPunct ","%char; TNum k]) ns ++ TPunct ")"%char :: rest)
  = Some (ns, rest).
Proof.
  induction ns as [|k ns IH]; [reflexivity|].
  simpl. simpl in IH. now rewrite IH.
Qed.

Lemma numbers_tokens (ns : list Z) (rest : list token) :
  numbers (number_tokens ns ++ TPunct ")"%char :: rest) = Some (ns, rest).
Proof.
  destruct ns as [|n ns]; [reflexivity|].
  simpl. now rewrite numbers_tail_tokens.
Qed.

Lemma idle_char_acc (c : ascii) (acc : list token) :
  idle_char c acc = (fst (idle_char c []), snd (idle_char c []) ++ acc).
Proof.
  unfold idle_char.
  destruct (is_word_char c); [reflexivity|].
  destruct (is_space c); [reflexivity|].
  destruct (Ascii.eqb c quote); reflexivity.
Qed.

(** The tokens already gathered do not matter to the lexer. *)
Lemma lex_lit_acc (s : string) : forall m acc,
  lex_lit m acc s = (fst (lex_lit m [] s), snd (lex_lit m [] s) ++ acc).
Proof.
  induction s as [|c s IH]; intros m acc; [reflexivity|].
  assert (Hidle : forall toks,
    (let '(m', acc') := idle_char c (toks ++ acc) in lex_lit m' acc' s)
    = (fst (let '(m', acc') := idle_char c toks in lex_lit m' acc' s),
       snd (let '(m', acc') := idle_char c toks in lex_lit m' acc' s) ++ acc)).
  { intros toks. rewrite (idle_char_acc c (toks ++ acc)), (idle_char_acc c toks).
    destruct (idle_char c []) as [m' t']. simpl.
    rewrite (IH m' (t' ++ toks ++ acc)), (IH m' (t' ++ toks)). simpl.
    now rewrite <- !app_assoc. }
  destruct m as [|w|t|t]; simpl.
  - apply (Hidle []).
  - destruct (is_word_char c); [apply IH|]. apply (Hidle [word_token w]).
  - destruct (Ascii.eqb c quote); apply IH.
  - destruct (Ascii.eqb c quote); [apply IH|]. apply (Hidle [TText t]).
Qed.

Lemma lex_segs_lit (s : string) (m : lmode) (acc : list token) :
  lex_segs m acc [Lit s] = Some (fst (lex_lit m [] s), snd (lex_lit m [] s) ++ acc).
Proof. simpl. rewrite lex_lit_acc. reflexivity. Qed.

Lemma format_objects_query (a b : str) :
  format
    [Lit "select distinct object from triples_table INDEXED BY triples_table_sp_idx where subject in ({}) and predicate in ({});"]
    [a; b]
  = Return ([Lit "select distinct object from triples_table INDEXED BY triples_table_sp_idx where subject in ("]
            ++ a ++ [Lit ") and predicate in ("] ++ b ++ [Lit ");"]).
Proof. cbv -[app]. now rewrite <- !app_assoc. Qed.

(** The WHERE clause of the complementary-entity queries. *)
Lemma where_two_lists (c1 c2 : string) (ss ps : list Z) (rest : list token) :
  match rest with
  | TWord _ :: _ => false
  | _ => true
  end = true ->
  where_p (TWord "where" :: TWord c1 :: TWord "in" :: TPunct "("%char
           :: number_tokens ss ++ TPunct ")"%char
           :: TWord "and" :: TWord c2 :: TWord "in" :: TPunct "("%char
           :: number_tokens ps ++ TPunct ")"%char :: rest)
  = Some ([TIn c1 ss; TIn c2 ps], rest).
Proof.
  intros Hrest.
  cbv -[numbers number_tokens app].
  rewrite numbers_tokens.
  cbv -[numbers number_tokens app].
  rewrite numbers_tokens.
  destruct rest as [|[w|n|t|c] rest]; try reflexivity. discriminate.
Qed.

Ltac eval_lex_lit :=
  match goal with
  | |- context [lex_lit ?m [] ?s] =>
      let r := eval vm_compute in (lex_lit m [] s) in
      change (lex_lit m [] s) with r
  end;
  cbv iota beta; cbn [fst snd].

Lemma parse_objects_query (ss ps : list Z) :
  parse ([Lit "select distinct object from triples_table INDEXED BY triples_table_sp_idx where subject in ("]
            ++ join "," (map str_of_int ss) ++ [Lit ") and predicate in ("]
            ++ join "," (map str_of_int ps) ++ [Lit ");"])
  = Some (Select {| proj := PDistinct "object"; from := "triples_table";
                    indexed_by := Some "triples_table_sp_idx";
                    where_ := [TIn "subject" ss; TIn "predicate" ps];
                    order_by := ONone; limit := None |}).
Proof.
  unfold parse, lex.
  rewrite lex_segs_app, lex_segs_lit. eval_lex_lit.
  rewrite lex_segs_app, lex_segs_join.
  rewrite lex_segs_app, lex_segs_lit. eval_lex_lit.
  rewrite lex_segs_app, lex_segs_join.
  rewrite lex_segs_lit. eval_lex_lit.
  cbn [lex_end].
  repeat (rewrite ?rev_app_distr, ?rev_involutive; cbn [rev app]).
  rewrite <- !app_assoc. cbn [app].
  cbn -[numbers number_tokens where_p].
  unfold Sqlite.bind at 1.
  rewrite where_two_lists by reflexivity.
  reflexivity.
Qed.

Lemma format_subjects_query (a b : str) :
  format
    [Lit "select distinct subject from triples_table INDEXED BY                  triples_table_po_idx where predicate in ({})  and object in ({})"]
    [a; b]
  = Return ([Lit "select distinct subject from triples_table INDEXED BY                  triples_table_po_idx where predicate in ("]
            ++ a ++ [Lit ")  and object in ("] ++ b ++ [Lit ")"]).
Proof. cbv -[app]. now rewrite <- !app_assoc. Qed.

Lemma parse_subjects_query (ps os : list Z) :
  parse ([Lit "select distinct subject from triples_table INDEXED BY                  triples_table_po_idx where predicate in ("]
            ++ join "," (map str_of_int ps) ++ [Lit ")  and object in ("]
            ++ join "," (map str_of_int os) ++ [Lit ")"])
  = Some (Select {| proj := PDistinct "subject"; from := "triples_table";
                    indexed_by := Some "triples_table_po_idx";
                    where_ := [TIn "predicate" ps; TIn "object" os];
                    order_by := ONone; limit := None |}).
Proof.
  unfold parse, lex.
  rewrite lex_segs_app, lex_segs_lit. eval_lex_lit.
  rewrite lex_segs_app, lex_segs_join.
  rewrite lex_segs_app, lex_segs_lit. eval_lex_lit.
  rewrite lex_segs_app, lex_segs_join.
  rewrite lex_segs_lit. eval_lex_lit.
  cbn [lex_end].
  repeat (rewrite ?rev_app_distr, ?rev_involutive; cbn [rev app]).
  rewrite <- !app_assoc. cbn [app].
  cbn -[numbers number_tokens where_p].
  unfold Sqlite.bind at 1.
  rewrite where_two_lists by reflexivity.
  reflexivity.
Qed.

(** ** What SELECT DISTINCT returns *)

Lemma row_eqb_eq (a b : row) : row_eqb a b = true <-> a = b.
Proof.
  revert b. induction a as [|x a IH]; intros [|y b]; simpl; split; intros H;
    try discriminate; try reflexivity.
  - apply andb_true_iff in H. destruct H as [Hx Ha].
    apply value_eqb_eq in Hx. apply IH in Ha. now subst.
  - inversion H; subst. apply andb_true_iff. split.
    + now apply value_eqb_eq.
    + now apply IH.
Qed.

Lemma distinct_In (l : rows) (x : row) : In x (distinct l) <-> In x l.
Proof.
  induction l as [|r l IH]; simpl; [tauto|].
  rewrite filter_In, IH. split.
  - intros [H|[H _]]; auto.
  - intros [H|H]; auto.
    destruct (row_eqb r x) eqn:E.
    + left. now apply row_eqb_eq.
    + right. split; auto.
Qed.

Lemma distinct_NoDup (l : rows) : NoDup (distinct l).
Proof.
  induction l as [|r l IH]; simpl; constructor.
  - rewrite filter_In. intros [_ H].
    assert (E : row_eqb r r = true) by now apply row_eqb_eq.
    rewrite E in H. discriminate.
  - now apply NoDup_filter.
Qed.

Lemma holds_in (r : row) (i : nat) (vs : list Z) :
  holds r (RIn i vs) = true <-> exists n, In n vs /\ nth_error r i = Some (VInt n).
Proof.
  simpl. destruct (nth_error r i) as [x|]; split.
  - intros H. apply existsb_exists in H. destruct H as (n & Hn & He).
    apply value_eqb_eq in He. subst. eauto.
  - intros (n & Hn & He). inversion He; subst.
    apply existsb_exists. exists n. split; auto. now apply value_eqb_eq.
  - discriminate.
  - intros (n & _ & He). discriminate.
Qed.

Lemma columns_shape (cols : list (string * string)) :
  names_eqb (map fst cols) triples_columns = true ->
  exists t1 t2 t3 t4,
    cols = [("subject", t1); ("predicate", t2); ("object", t3); ("dataset_type", t4)].
Proof.
  unfold triples_columns.
  destruct cols as [|[c1 t1] [|[c2 t2] [|[c3 t3] [|[c4 t4] [|? ?]]]]]; simpl;
    try discriminate; rewrite ?andb_false_r; try discriminate.
  rewrite !andb_true_iff, !String.eqb_eq.
  intros (-> & -> & -> & -> & _). eauto.
Qed.

Section Resolver.

Variable shuffle : nat -> rows -> rows.

Lemma select_distinct_two_lists (seed : nat) (d : database) (tb : table)
    (idx c c1 c2 : string) (i i1 i2 : nat) (xs ys : list Z) :
  assoc "triples_table" (tables d) = Some tb ->
  index_on_triples idx d = true ->
  column_index c (columns tb) = Some i ->
  column_index c1 (columns tb) = Some i1 ->
  column_index c2 (columns tb) = Some i2 ->
  exec_select shuffle seed d
    {| proj := PDistinct c; from := "triples_table"; indexed_by := Some idx;
       where_ := [TIn c1 xs; TIn c2 ys]; order_by := ONone; limit := None |}
  = inr (distinct (map (fun r => [nth i r VNull])
                       (filter (satisfies [RIn i1 xs; RIn i2 ys]) (body tb)))).
Proof.
  intros Ht Hi Hc H1 H2. unfold exec_select. simpl.
  rewrite Ht. unfold index_on_triples in Hi.
  destruct (assoc idx (indexes d)) as [ix|]; [|discriminate].
  rewrite Hi. simpl. rewrite H1, H2. simpl. rewrite Hc. reflexivity.
Qed.

Lemma In_distinct_column (i i1 i2 : nat) (xs ys : list Z) (l : rows) (x : row) :
  In x (distinct (map (fun r => [nth i r VNull])
                      (filter (satisfies [RIn i1 xs; RIn i2 ys]) l)))
  <-> exists r, In r l /\ x = [nth i r VNull]
                /\ (exists n, In n xs /\ nth_error r i1 = Some (VInt n))
                /\ (exists n, In n ys /\ nth_error r i2 = Some (VInt n)).
Proof.
  rewrite distinct_In, in_map_iff. split.
  - intros (r & Hx & Hr). apply filter_In in Hr. destruct Hr as [Hr Hs].
    unfold satisfies in Hs. cbn [forallb] in Hs.
    rewrite !andb_true_iff in Hs. destruct Hs as (H1 & H2 & _).
    exists r. rewrite <- !holds_in. auto.
  - intros (r & Hr & Hx & H1 & H2). exists r. split; auto.
    apply filter_In. split; auto.
    unfold satisfies. cbn [forallb]. rewrite !andb_true_iff.
    rewrite <- holds_in in H1, H2. auto.
Qed.

Lemma In_map_triples (f : triple -> Z) (triples : list triple) (v : option value) :
  (exists m, In m (map f triples) /\ v = Some (VInt m))
  <-> (exists t, In t triples /\ v = Some (VInt (f t))).
Proof.
  split.
  - intros (m & Hm & Hv). apply in_map_iff in Hm. destruct Hm as (t & <- & Ht). eauto.
  - intros (t & Ht & Hv). exists (f t). split; auto. now apply in_map.
Qed.

(** C5 (amended): on an open connection to a database with the
    adapter's schema, the resolver returns two lists without
    repetition.  The objects are those of the table rows whose subject
    is the subject of some triple of the batch and whose predicate is
    the predicate of some triple of the batch; the two triples need not
    be the same one, so a (subject, predicate) pair that is not in the
    batch can bring objects in.  The subjects are, likewise, those of
    the rows whose predicate and whose object each occur in the batch.
    For the table (1,10,2), (3,10,2), (1,10,4) and the batch
    [(1,10,2)] the objects are 2 and 4 and the subjects 1 and 3. *)
Theorem complementary_entities_by_column (triples : list triple) (w : world) :
  is_open w = true ->
  has_schema (database_of w) = true ->
  (exists subjects objects,
     fst (_get_complementary_entities shuffle triples w)
     = Return (Some subjects, Some objects)
     /\ NoDup objects
     /\ NoDup subjects
     /\ (forall x, In x objects <->
           exists r, In r (visible "triples_table" w) /\ x = [nth 2 r VNull]
             /\ (exists t, In t triples /\ nth_error r 0 = Some (VInt (subject t)))
             /\ (exists t, In t triples /\ nth_error r 1 = Some (VInt (predicate t))))
     /\ (forall x, In x subjects <->
           exists r, In r (visible "triples_table" w) /\ x = [nth 0 r VNull]
             /\ (exists t, In t triples /\ nth_error r 1 = Some (VInt (predicate t)))
             /\ (exists t, In t triples /\ nth_error r 2 = Some (VInt (object t)))))
  /\ visible "triples_table" example_store
     = [[VInt 1; VInt 10; VInt 2; VText "train"];
        [VInt 3; VInt 10; VInt 2; VText "train"];
        [VInt 1; VInt 10; VInt 4; VText "train"]]
  /\ fst (_get_complementary_entities shuffle [(1, 10, 2)%Z] example_store)
     = Return (Some [[VInt 1]; [VInt 3]], Some [[VInt 2]; [VInt 4]]).
Proof.
  intros Hopen Hschema. split; [|split; vm_compute; reflexivity].
  unfold is_open in Hopen. unfold database_of, has_schema in Hschema.
  unfold visible.
  destruct (connection (self w)) as [c|] eqn:Hc; [|discriminate].
  destruct (closed c) eqn:Hcl; [discriminate|]. clear Hopen.
  destruct (assoc "triples_table" (tables (working c))) as [tb|] eqn:Ht; [|discriminate].
  apply andb_true_iff in Hschema. destruct Hschema as [Hschema Hpo].
  apply andb_true_iff in Hschema. destruct Hschema as [Htb Hsp].
  unfold triples_table_ok in Htb. apply andb_true_iff in Htb. destruct Htb as [Hcols _].
  destruct (columns_shape _ Hcols) as (t1 & t2 & t3 & t4 & Hshape).
  unfold _get_complementary_entities, _get_complementary_objects,
    _get_complementary_subjects.
  unfold bind at 1. unfold bind at 1. unfold lift at 1.
  rewrite format_objects_query.
  rewrite <- (map_map subject str_of_int triples), <- (map_map predicate str_of_int triples).
  destruct (execute_query_accepted shuffle
              ([Lit "select distinct object from triples_table INDEXED BY triples_table_sp_idx where subject in ("]
               ++ join "," (map str_of_int (map subject triples))
               ++ [Lit ") and predicate in ("]
               ++ join "," (map str_of_int (map predicate triples)) ++ [Lit ");"])
              w c
              (distinct (map (fun r => [nth 2 r VNull])
                 (filter (satisfies [RIn 0 (map subject triples); RIn 1 (map predicate triples)])
                         (body tb))))
              (working c) Hc Hcl) as (printed & Hobj).
  { unfold execute. rewrite parse_objects_query.
    rewrite (select_distinct_two_lists _ _ tb _ _ _ _ 2 0 1 _ _ Ht Hsp);
      try (rewrite Hshape; reflexivity).
    reflexivity. }
  rewrite Hobj. clear Hobj.
  unfold bind at 1. unfold bind at 1. unfold lift at 1.
  rewrite format_subjects_query.
  rewrite <- (map_map object str_of_int triples).
  match goal with |- context [_execute_query shuffle ?q ?w1] =>
    destruct (execute_query_accepted shuffle q w1 {| working := working c; closed := false |}
                (distinct (map (fun r => [nth 0 r VNull])
                   (filter (satisfies [RIn 1 (map predicate triples); RIn 2 (map object triples)])
                           (body tb))))
                (working c) eq_refl eq_refl) as (printed' & Hsub)
  end.
  { unfold execute. cbn [working]. rewrite parse_subjects_query.
    rewrite (select_distinct_two_lists _ _ tb _ _ _ _ 0 1 2 _ _ Ht Hpo);
      try (rewrite Hshape; reflexivity).
    reflexivity. }
  rewrite Hsub. clear Hsub. cbn [fst ret].
  eexists. eexists. split; [reflexivity|].
  split; [apply distinct_NoDup|]. split; [apply distinct_NoDup|].
  split; intros x; rewrite In_distinct_column.
  - split; intros (r & Hr & Hx & H1 & H2); exists r; repeat split; auto;
      first [now apply (In_map_triples subject triples) in H1
            | now apply (In_map_triples predicate triples) in H2
            | now apply (In_map_triples subject triples)
            | now apply (In_map_triples predicate triples)].
  - split; intros (r & Hr & Hx & H1 & H2); exists r; repeat split; auto;
      first [now apply (In_map_triples predicate triples) in H1
            | now apply (In_map_triples object triples) in H2
            | now apply (In_map_triples predicate triples)
            | now apply (In_map_triples object triples)].
Qed.

End Resolver.

(** ** Partition isolation *)

Lemma format_count_condition (label : string) :
  format [Lit "where dataset_type ='{}'"] [[Txt label]]
  = Return [Lit "where dataset_type ='"; Txt label; Lit "'"].
Proof. reflexivity. Qed.

Lemma format_count_query (label : string) :
  format [Lit "SELECT count(*) from {} {};"]
         [[Lit "triples_table"]; [Lit "where dataset_type ='"; Txt label; Lit "'"]]
  = Return [Lit "SELECT count(*) from "; Lit "triples_table"; Lit " ";
            Lit "where dataset_type ='"; Txt label; Lit "'"; Lit ";"].
Proof. reflexivity. Qed.

Lemma parse_count_query (label : string) :
  parse [Lit "SELECT count(*) from "; Lit "triples_table"; Lit " ";
         Lit "where dataset_type ='"; Txt label; Lit "'"; Lit ";"]
  = Some (Select {| proj := PCount; from := "triples_table"; indexed_by := None;
                    where_ := [TEq "dataset_type" (VText label)];
                    order_by := ONone; limit := None |}).
Proof. reflexivity. Qed.

Lemma format_random_page_query (label : string) (offset count : Z) :
  format random_page_query [[Txt label]; str_of_int offset; str_of_int count]
  = Return (formatted_random_page label offset count).
Proof. reflexivity. Qed.

Lemma parse_formatted_page (label : string) (offset count : Z) :
  parse (formatted_page label offset count)
  = Some (Select {| proj := PStar; from := "triples_table";
                    indexed_by := Some "triples_table_type_idx";
                    where_ := [TEq "dataset_type" (VText label)];
                    order_by := ONone; limit := Some (offset, count) |}).
Proof. reflexivity. Qed.

Lemma parse_formatted_random_page (label : string) (offset count : Z) :
  parse (formatted_random_page label offset count)
  = Some (Select {| proj := PStar; from := "triples_table";
                    indexed_by := Some "triples_table_type_idx";
                    where_ := [TEq "dataset_type" (VText label)];
                    order_by := ORandom; limit := Some (offset, count) |}).
Proof. reflexivity. Qed.

Lemma in_firstn {A} (n : nat) (l : list A) (x : A) : In x (firstn n l) -> In x l.
Proof.
  intros H. rewrite <- (firstn_skipn n l). apply in_or_app. now left.
Qed.

Lemma in_skipn {A} (n : nat) (l : list A) (x : A) : In x (skipn n l) -> In x l.
Proof.
  intros H. rewrite <- (firstn_skipn n l). apply in_or_app. now right.
Qed.

Lemma apply_limit_incl (l : option (Z * Z)) (rs : rows) (r : row) :
  In r (apply_limit l rs) -> In r rs.
Proof.
  destruct l as [[off cnt]|]; simpl; auto.
  destruct (Z.ltb cnt 0); intros H.
  - eapply in_skipn; eauto.
  - eapply in_skipn. eapply in_firstn; eauto.
Qed.

Lemma triples_table_rows (tb : table) (r : row) :
  triples_table_ok tb = true -> In r (body tb) -> List.length r = 4%nat.
Proof.
  unfold triples_table_ok. intros H Hr.
  apply andb_true_iff in H. destruct H as [_ H].
  rewrite forallb_forall in H. apply H in Hr. now apply Nat.eqb_eq.
Qed.

Section Isolation.

Variable shuffle : nat -> rows -> rows.
Hypothesis shuffle_permutes : forall n l, Permutation (shuffle n l) l.

(** The rows a SELECT * with the partition's WHERE clause returns, in
    table order or in random order, all belong to the partition. *)
Lemma select_partition_rows (seed : nat) (d : database) (s : select)
    (label : string) (out : rows) :
  well_formed d = true ->
  from s = "triples_table" ->
  where_ s = [TEq "dataset_type" (VText label)] ->
  proj s = PStar ->
  order_by s = ONone \/ order_by s = ORandom ->
  exec_select shuffle seed d s = inr out ->
  Forall (in_partition label) out.
Proof.
  intros Hwf Hfrom Hwhere Hproj Horder.
  unfold exec_select. rewrite Hfrom, Hwhere, Hproj.
  unfold well_formed in Hwf.
  destruct (assoc "triples_table" (tables d)) as [tb|]; [|discriminate].
  destruct (negb _); [discriminate|].
  pose proof Hwf as Hok. unfold triples_table_ok in Hok.
  apply andb_true_iff in Hok. destruct Hok as [Hcols _].
  destruct (columns_shape _ Hcols) as (t1 & t2 & t3 & t4 & Hshape).
  rewrite Hshape. cbn [resolve resolve_term column_index String.eqb Ascii.eqb Bool.eqb option_map].
  assert (Hfound : forall r,
            In r (filter (satisfies [REq 3 (VText label)]) (body tb)) ->
            in_partition label r).
  { intros r Hr. apply filter_In in Hr. destruct Hr as [Hr Hs]. split.
    - now apply triples_table_rows with tb.
    - unfold satisfies in Hs. cbn [forallb holds] in Hs.
      destruct (nth_error r 3) as [x|]; [|discriminate].
      rewrite andb_true_r in Hs. apply value_eqb_eq in Hs. now subst. }
  destruct Horder as [-> | ->]; intros H; inversion H; subst; clear H;
    apply Forall_forall; intros r Hr; apply apply_limit_incl in Hr; apply Hfound; auto.
  eapply Permutation_in; [apply shuffle_permutes | exact Hr].
Qed.

(** A SELECT does not change the database, and what it returns is
    what SQLite computes on it. *)
Lemma execute_query_select (q : str) (s : select) (w : world) :
  parse q = Some (Select s) ->
  database_of (snd (_execute_query shuffle q w)) = database_of w
  /\ batches_count (self (snd (_execute_query shuffle q w))) = batches_count (self w)
  /\ (forall out, fst (_execute_query shuffle q w) = Return (Some out) ->
        exec_select shuffle (clock w) (database_of w) s = inr out).
Proof.
  intros Hp. unfold database_of.
  destruct (connection (self w)) as [c|] eqn:Hc.
  - destruct (closed c) eqn:Hcl.
    + unfold _execute_query, cursor, bind, open_connection.
      rewrite Hc, Hcl. simpl. rewrite Hc. repeat split. intros out H. discriminate.
    + destruct (exec_select shuffle (clock w) (working c) s) as [e|out] eqn:Hx.
      * rewrite (execute_query_rejected shuffle q w c e Hc Hcl).
        -- simpl. rewrite Hc. repeat split. intros out H. discriminate.
        -- unfold execute. now rewrite Hp, Hx.
      * destruct (execute_query_accepted shuffle q w c out (working c) Hc Hcl)
          as (printed & ->).
        -- unfold execute. now rewrite Hp, Hx.
        -- simpl. repeat split. intros out' H. now inversion H.
  - unfold _execute_query, cursor, bind, open_connection.
    rewrite Hc. simpl. rewrite Hc. repeat split. intros out H. discriminate.
Qed.

Lemma get_data_size_keeps (label : string) (w : world) :
  database_of (snd (get_data_size shuffle [Lit "triples_table"]
                      [Lit "where dataset_type ='"; Txt label; Lit "'"] w))
  = database_of w.
Proof.
  unfold get_data_size. unfold bind at 1. unfold lift at 1.
  rewrite format_count_query. unfold bind at 1.
  destruct (execute_query_select _ _ w (parse_count_query label)) as (Hd & _ & _).
  destruct (_execute_query shuffle _ w) as [[count|e] w1]; simpl in Hd |- *; [|exact Hd].
  destruct count as [[|[|n r] rs]|]; simpl; exact Hd.
Qed.

Lemma prologue_ok (a : batch_args) (w w' : world) (f : frame) :
  prologue shuffle a w = (Return f, w') ->
  frame_ok (dataset_type a) f /\ database_of w' = database_of w.
Proof.
  unfold prologue. unfold bind at 1. unfold get_self at 1. cbv iota beta.
  unfold bind at 1.
  match goal with |- context [match ?m w with _ => _ end] =>
    assert (Hcount : database_of (snd (m w)) = database_of w);
    [|destruct (m w) as [[[]|e] w1]; [|discriminate]]
  end.
  { destruct (batches_count (self w)); [reflexivity|].
    unfold bind at 1. unfold lift at 1. rewrite format_count_condition.
    unfold bind at 1.
    pose proof (get_data_size_keeps (dataset_type a) w) as Hk.
    destruct (get_data_size shuffle _ _ w) as [[size|e] w1]; [|exact Hk].
    unfold bind at 1. unfold lift at 1.
    destruct (int_div size (batch_size a)); exact Hk. }
  simpl in Hcount.
  destruct (String.eqb (index_by a) "").
  - unfold bind, ret, get_self, raise.
    destruct (batches_count (self w1)); intros H; inversion H; subst.
    split; [|exact Hcount]. split; [reflexivity|]. left. reflexivity.
  - unfold bind at 1. unfold bind at 1. unfold lift at 1.
    rewrite index_by_message_raises. discriminate.
Qed.

Lemma iteration_ok (a : batch_args) (f f' : frame) (w w' : world) (it : item) :
  well_formed (database_of w) = true ->
  frame_ok (dataset_type a) f ->
  iteration shuffle a f w = (Return (it, f'), w') ->
  frame_ok (dataset_type a) f'
  /\ database_of w' = database_of w
  /\ match batch_of it with
     | Some out => Forall (in_partition (dataset_type a)) out
     | None => True
     end.
Proof.
  intros Hwf [Hindex Hquery].
  unfold iteration. cbv zeta. rewrite Hindex.
  set (offset := (Z.of_nat (i f) * batch_size a)%Z).
  match goal with |- context [format (query f) ?args] =>
    assert (Hfirst : exists q1,
      format (query f) args = Return q1
      /\ ((exists o c, q1 = formatted_page (dataset_type a) o c)
          \/ (exists o c, q1 = formatted_random_page (dataset_type a) o c)))
  end.
  { destruct Hquery as [-> | [(o & c & ->) | (o & c & ->)]].
    - rewrite format_page_query. eauto 6.
    - rewrite format_formatted_page. eauto 6.
    - rewrite format_formatted_random_page. eauto 6. }
  destruct Hfirst as (q1 & -> & Hq1).
  unfold bind at 1. unfold lift at 1. unfold bind at 1.
  match goal with |- context [if random a then ?m1 else ?m2] =>
  assert (Hsecond : exists q2 s,
    (if random a then m1 else m2) w = (Return q2, w)
    /\ ((exists o c, q2 = formatted_page (dataset_type a) o c)
        \/ (exists o c, q2 = formatted_random_page (dataset_type a) o c))
    /\ parse q2 = Some (Select s)
    /\ from s = "triples_table"
    /\ where_ s = [TEq "dataset_type" (VText (dataset_type a))]
    /\ proj s = PStar
    /\ (order_by s = ONone \/ order_by s = ORandom))
  end.
  { destruct (random a).
    - unfold lift. rewrite format_random_page_query.
      eexists. eexists. split; [reflexivity|]. split; [eauto 6|].
      split; [apply parse_formatted_random_page|]. simpl. auto.
    - destruct Hq1 as [(o & c & ->) | (o & c & ->)].
      + eexists. eexists. split; [reflexivity|]. split; [eauto 6|].
        split; [apply parse_formatted_page|]. simpl. auto.
      + eexists. eexists. split; [reflexivity|]. split; [eauto 6|].
        split; [apply parse_formatted_random_page|]. simpl. auto. }
  destruct Hsecond as (q2 & s & -> & Hq2 & Hparse & Hfrom & Hwhere & Hproj & Horder).
  unfold bind at 1.
  destruct (execute_query_select q2 s w Hparse) as (Hd & _ & Hout).
  destruct (_execute_query shuffle q2 w) as [[out|e] w1]; [|discriminate].
  simpl in Hd, Hout.
  destruct (use_filter a).
  - unfold bind, get_complementary_entities, raise. discriminate.
  - unfold ret. intros H. inversion H; subst. clear H.
    split; [|split; [exact Hd|]].
    + split; [reflexivity|]. right. exact Hq2.
    + simpl. destruct out as [out|]; [|exact I].
      eapply select_partition_rows; eauto.
Qed.

Lemma resume_ok (a : batch_args) (f : frame) (g' : generator) (w w' : world) (it : item) :
  well_formed (database_of w) = true ->
  frame_ok (dataset_type a) f ->
  resume shuffle a f w = (Return (Some it), g', w') ->
  generator_ok (dataset_type a) g'
  /\ database_of w' = database_of w
  /\ match batch_of it with
     | Some out => Forall (in_partition (dataset_type a)) out
     | None => True
     end.
Proof.
  intros Hwf Hf. unfold resume.
  destruct (i f <? stop f)%nat; [|discriminate].
  destruct (iteration shuffle a f w) as [[[it' f']|e] w1] eqn:Hit; [|discriminate].
  intros H. inversion H; subst. clear H.
  destruct (iteration_ok a f f' w w' it Hwf Hf Hit) as (Hf' & Hd & Hrows).
  auto.
Qed.

Lemma next_ok (a : batch_args) (g g' : generator) (w w' : world) (it : item) :
  well_formed (database_of w) = true ->
  generator_ok (dataset_type a) g ->
  next shuffle a g w = (Return (Some it), g', w') ->
  generator_ok (dataset_type a) g'
  /\ database_of w' = database_of w
  /\ match batch_of it with
     | Some out => Forall (in_partition (dataset_type a)) out
     | None => True
     end.
Proof.
  intros Hwf Hg. destruct g as [|f|]; simpl.
  - destruct (prologue shuffle a w) as [[f|e] w1] eqn:Hp; [|discriminate].
    destruct (prologue_ok a w w1 f Hp) as (Hf & Hd). intros H.
    rewrite <- Hd in Hwf.
    destruct (resume_ok a f g' w1 w' it Hwf Hf H) as (Hg' & Hd' & Hrows).
    repeat split; auto. congruence.
  - now apply resume_ok.
  - discriminate.
Qed.

Lemma consume_ok (a : batch_args) (env : list (world -> world)) :
  Forall keeps_well_formed env ->
  forall g w,
    well_formed (database_of w) = true ->
    generator_ok (dataset_type a) g ->
    forall it out,
      In it (fst (fst (consume shuffle env a g w))) ->
      batch_of it = Some out ->
      Forall (in_partition (dataset_type a)) out.
Proof.
  induction 1 as [|step env Hstep Henv IH]; intros g w Hwf Hg it out; simpl.
  - intros [].
  - destruct (next shuffle a g w) as [[[[it'|]|e] g'] w'] eqn:Hn; try (intros []).
    destruct (next_ok a g g' w w' it' Hwf Hg Hn) as (Hg' & Hd & Hrows).
    assert (Hwf' : well_formed (database_of (step w')) = true).
    { apply Hstep. now rewrite Hd. }
    specialize (IH g' (step w') Hwf' Hg' it out).
    destruct (consume shuffle env a g' (step w')) as [[its e] w'']. simpl in IH |- *.
    intros [<- | Hin] Hout; [|now apply IH].
    now rewrite Hout in Hrows.
Qed.

Lemma append_column_labelled (label : string) (a : rows) : forall n out,
  append_column a (repeat (VText label) n) = Return out ->
  forall r, In r out -> exists t, r = t ++ [VText label].
Proof.
  induction a as [|x a IH]; intros [|n] out; simpl; try discriminate.
  - intros H. inversion H. intros r [].
  - destruct (append_column a (repeat (VText label) n)) as [rest|e] eqn:Hrest;
      [|discriminate].
    intros H. inversion H; subst. intros r [<- | Hr]; eauto.
Qed.

Lemma get_indexed_triples_labelled (chunk : rows) (label : string) (w : world) (out : rows) :
  fst (get_indexed_triples chunk label w) = Return out ->
  forall r, In r out -> exists t, r = t ++ [VText label].
Proof.
  unfold get_indexed_triples, bind, get_self, when, lift, raise.
  destruct (verbose (self w)); simpl;
    destruct (indexing_requested (use_indexer (self w)));
    try destruct (mapper (self w)); simpl; try discriminate;
    apply append_column_labelled.
Qed.

Lemma labelled_outside_partition (t : row) (label other : string) :
  other <> label -> ~ in_partition label (t ++ [VText other]).
Proof.
  intros Hne [Hlen Hlast].
  rewrite length_app in Hlen. simpl in Hlen.
  assert (Ht : List.length t = 3%nat) by lia.
  rewrite nth_error_app2 in Hlast by lia.
  rewrite Ht in Hlast. simpl in Hlast. inversion Hlast. contradiction.
Qed.


End Isolation.

(* ================================================================== *)
(** * The properties at concrete inputs *)
(* ================================================================== *)

Lemma backwards_permutes (n : nat) (l : rows) : Permutation (backwards n l) l.
Proof. unfold backwards. symmetry. apply Permutation_rev. Qed.



(** C3, as stated, fails: SQLite rejects the statement and
    [_execute_query] returns [None]; nothing is raised. *)
Lemma execute_query_swallows_rejection :
  execute backwards (clock example_store) (database_of example_store)
    [Lit "SELECT count(*) from no_such_table ;"]
  = Rejected (OperationalError "no such table: no_such_table")
  /\ fst (_execute_query backwards [Lit "SELECT count(*) from no_such_table ;"] example_store)
     = Return None
  /\ raised (fst (_execute_query backwards [Lit "SELECT count(*) from no_such_table ;"]
                    example_store)) = false.
Proof.
  split; [vm_compute; reflexivity|]. split; vm_compute; reflexivity.
Qed.

Lemma execute_query_outcome_witness :
  connection (self example_store) = Some (connection_of example_store)
  /\ closed (connection_of example_store) = false
  /\ match execute backwards (clock example_store) (working (connection_of example_store))
             [Lit "SELECT count(*) from triples_table ;"] with
     | Ok out d =>
         fst (_execute_query backwards [Lit "SELECT count(*) from triples_table ;"] example_store)
         = Return (Some out)
         /\ database_of (snd (_execute_query backwards
                                [Lit "SELECT count(*) from triples_table ;"] example_store)) = d
         /\ disk (snd (_execute_query backwards
                         [Lit "SELECT count(*) from triples_table ;"] example_store)) = Some d
     | Rejected e =>
         fst (_execute_query backwards [Lit "SELECT count(*) from triples_table ;"] example_store)
         = Return None
         /\ stdout (snd (_execute_query backwards
                           [Lit "SELECT count(*) from triples_table ;"] example_store))
            = stdout example_store
              ++ [("Query failed. The error '" ++ error_text e ++ "' occurred")%string]
         /\ database_of (snd (_execute_query backwards
                                [Lit "SELECT count(*) from triples_table ;"] example_store))
            = working (connection_of example_store)
         /\ disk (snd (_execute_query backwards
                         [Lit "SELECT count(*) from triples_table ;"] example_store))
            = disk example_store
     end.
Proof.
  split; [reflexivity|]. split; [reflexivity|].
  apply (execute_query_outcome backwards [Lit "SELECT count(*) from triples_table ;"]
           example_store (connection_of example_store)); reflexivity.
Defined.

(** C5, as stated, fails: for the batch [(1,10,2), (3,20,4)] the only
    objects that share a (subject, predicate) pair with the batch are
    2 and 4, but the resolver also returns 5, the object of the row
    (1,20,5): its subject is that of the first triple and its predicate
    that of the second. *)
Lemma complementary_objects_beyond_pairs :
  objects_by_pair (visible "triples_table" two_page_store) [(1, 10, 2)%Z; (3, 20, 4)%Z]
  = [[VInt 2]; [VInt 4]]
  /\ fst (_get_complementary_objects backwards [(1, 10, 2)%Z; (3, 20, 4)%Z] two_page_store)
     = Return (Some [[VInt 2]; [VInt 4]; [VInt 5]]).
Proof. split; vm_compute; reflexivity. Qed.

Lemma complementary_entities_by_column_witness :
  is_open example_store = true
  /\ has_schema (database_of example_store) = true
  /\ ((exists subjects objects,
         fst (_get_complementary_entities backwards [(1, 10, 2)%Z] example_store)
         = Return (Some subjects, Some objects)
         /\ NoDup objects
         /\ NoDup subjects
         /\ (forall x, In x objects <->
               exists r, In r (visible "triples_table" example_store) /\ x = [nth 2 r VNull]
                 /\ (exists t, In t [(1, 10, 2)%Z] /\ nth_error r 0 = Some (VInt (subject t)))
                 /\ (exists t, In t [(1, 10, 2)%Z] /\ nth_error r 1 = Some (VInt (predicate t))))
         /\ (forall x, In x subjects <->
               exists r, In r (visible "triples_table" example_store) /\ x = [nth 0 r VNull]
                 /\ (exists t, In t [(1, 10, 2)%Z] /\ nth_error r 1 = Some (VInt (predicate t)))
                 /\ (exists t, In t [(1, 10, 2)%Z] /\ nth_error r 2 = Some (VInt (object t)))))
      /\ visible "triples_table" example_store
         = [[VInt 1; VInt 10; VInt 2; VText "train"];
            [VInt 3; VInt 10; VInt 2; VText "train"];
            [VInt 1; VInt 10; VInt 4; VText "train"]]
      /\ fst (_get_complementary_entities backwards [(1, 10, 2)%Z] example_store)
         = Return (Some [[VInt 1]; [VInt 3]], Some [[VInt 2]; [VInt 4]])).
Proof.
  split; [reflexivity|]. split; [reflexivity|].
  apply (complementary_entities_by_column backwards [(1, 10, 2)%Z] example_store);
    reflexivity.
Defined.


(* ================================================================== *)
(** * Further properties of the adapter's methods *)
(* ================================================================== *)

Lemma open_sees (w : world) : is_open w = true -> sees w (database_of w).
Proof.
  unfold sees, is_open, database_of.
  destruct (connection (self w)) as [[d cl]|]; [|discriminate].
  simpl. destruct cl; [discriminate|]. reflexivity.
Qed.

(** ** Writing a chunk that fits the table *)

Lemma insert_rows_no_error (t : string) (n : nat) (params : rows) : forall d,
  forallb (fun r => (List.length r =? n)%nat && forallb bindable r) params = true ->
  snd (insert_rows t n params d) = None.
Proof.
  induction params as [|r params IH]; intros d; simpl; [reflexivity|].
  rewrite !andb_true_iff. intros [[Hlen Hbind] Hrest].
  rewrite Hlen, Hbind. simpl. now apply IH.
Qed.

Lemma forallb_row_elems (k : nat) (rest : rows) :
  forallb (fun e => match row_length e with
                    | Some n => (n =? k)%nat
                    | None => false
                    end) (map RowElem rest)
  = forallb (fun r => (List.length r =? k)%nat) rest.
Proof.
  induction rest as [|r rest IH]; simpl; [reflexivity|]. now rewrite IH.
Qed.

Lemma np_shape_rows (r : row) (rest : rows) (k : nat) :
  forallb (fun r => (List.length r =? k)%nat) (r :: rest) = true ->
  np_shape (map RowElem (r :: rest)) = [S (List.length rest); k].
Proof.
  simpl. rewrite andb_true_iff. intros [Hr Hrest].
  apply Nat.eqb_eq in Hr. subst k.
  rewrite forallb_row_elems, Hrest. now rewrite length_map.
Qed.

Lemma as_params_rows (rs : rows) : map as_params (map RowElem rs) = rs.
Proof. rewrite map_map. simpl. apply map_id. Qed.

Lemma parse_insert_four : parse insert_four = Some (Insert "triples_table" 4).
Proof. reflexivity. Qed.

Lemma format_four_placeholders :
  format [Lit "({})"] [join ", " (repeat [Lit "?"] 4)]
  = Return [Lit "("; Lit "?"; Lit ", "; Lit "?"; Lit ", "; Lit "?"; Lit ", "; Lit "?"; Lit ")"].
Proof. reflexivity. Qed.

(** The world a chunk of four-cell rows leaves when the batched
    statement goes through. *)
Lemma insert_four_cells_run (values : rows) (w : world) (d d' : database) :
  sees w d ->
  values <> [] ->
  forallb (fun r => (List.length r =? 4)%nat) values = true ->
  executemany d insert_four values = (d', None) ->
  exists out,
    _insert_values_to_a_table [Lit "triples_table"] (map RowElem values) w
    = (Return tt,
       {| self := set_connection (Some {| working := d'; closed := false |}) (self w);
          disk := Some d'; stdout := out; clock := clock w |}).
Proof.
  intros Hc Hne Hlen Hx. unfold sees in Hc.
  destruct values as [|r rest]; [contradiction|].
  unfold _insert_values_to_a_table.
  rewrite (np_shape_rows r rest 4 Hlen). cbn [List.length Nat.ltb Nat.leb nth].
  rewrite format_four_placeholders, as_params_rows.
  unfold cursor, get_self, lift, try_except, when, commit, rollback, set_working.
  unfold bind, open_connection, ret, raise, print.
  match goal with |- context [format ?t ?args] =>
    change (format t args) with (Return insert_four)
  end.
  destruct (verbose (self w)); simpl;
    repeat (first [rewrite Hc | rewrite Hx]; simpl);
    eexists; reflexivity.
Qed.

Lemma storable_four_cells (values : rows) :
  forallb storable values = true ->
  forallb (fun r => (List.length r =? 4)%nat) values = true
  /\ forallb (fun r => (List.length r =? 4)%nat && forallb bindable r) values = true.
Proof.
  intros H. split; [|exact H].
  rewrite forallb_forall in *. intros r Hr. apply H in Hr.
  unfold storable in Hr. now apply andb_true_iff in Hr.
Qed.

Lemma executemany_storable (values : rows) (d : database) (tb : table) :
  assoc "triples_table" (tables d) = Some tb ->
  List.length (columns tb) = 4%nat ->
  forallb storable values = true ->
  exists d', executemany d insert_four values = (d', None)
             /\ appended "triples_table" values d d'.
Proof.
  intros Ht Hcols Hvalues.
  destruct (storable_four_cells values Hvalues) as [_ Hok].
  unfold executemany. rewrite parse_insert_four, Ht, Hcols. simpl.
  pose proof (insert_rows_no_error "triples_table" 4 values d Hok) as Hnone.
  destruct (insert_rows "triples_table" 4 values d) as [d' e] eqn:Hi.
  simpl in Hnone. subst e. exists d'. split; [reflexivity|].
  now apply insert_rows_complete with 4%nat tb.
Qed.



(** ** Labelling a chunk *)

Lemma append_column_repeat (v : value) (a : rows) :
  append_column a (repeat v (List.length a)) = Return (map (fun r => r ++ [v]) a).
Proof.
  induction a as [|r a IH]; simpl; [reflexivity|]. now rewrite IH.
Qed.

Lemma append_column_mismatch (v : value) (a : rows) : forall n,
  List.length a <> n ->
  append_column a (repeat v n)
  = Raise (ValueError "all the input array dimensions except for the concatenation axis must match exactly").
Proof.
  induction a as [|r a IH]; intros [|n] Hne; simpl; try reflexivity.
  - contradiction.
  - rewrite IH; [reflexivity|]. simpl in Hne. lia.
Qed.

Lemma get_indexed_triples_run (chunk : rows) (label : string) (w : world) :
  use_indexer (self w) = Flag false ->
  exists out,
    get_indexed_triples chunk label w
    = (Return (labelled label chunk),
       {| self := self w; disk := disk w; stdout := out; clock := clock w |}).
Proof.
  intros Hu. destruct w as [o dk printed ck]. simpl in Hu.
  unfold get_indexed_triples, bind, get_self, when, lift, print, ret.
  simpl. rewrite Hu. simpl. rewrite append_column_repeat.
  destruct (verbose o); simpl; eexists; reflexivity.
Qed.




(** ** Ingestion *)

Lemma same_object_trans (w1 w2 w3 : world) :
  same_object w1 w2 -> same_object w2 w3 -> same_object w1 w3.
Proof. unfold same_object. congruence. Qed.

Lemma same_object_settings (w w' : world) :
  same_object w w' ->
  use_indexer (self w') = use_indexer (self w)
  /\ mapper (self w') = mapper (self w)
  /\ verbose (self w') = verbose (self w)
  /\ chunk_size (self w') = chunk_size (self w)
  /\ batches_count (self w') = batches_count (self w).
Proof.
  unfold same_object. intros H.
  repeat split.
  - apply (f_equal use_indexer) in H. exact H.
  - apply (f_equal mapper) in H. exact H.
  - apply (f_equal verbose) in H. exact H.
  - apply (f_equal chunk_size) in H. exact H.
  - apply (f_equal batches_count) in H. exact H.
Qed.

Lemma get_indexed_triples_translated (chunk : rows) (label : string) (w : world)
    (tr : rows -> rows) :
  translation (use_indexer (self w)) (mapper (self w)) = Some tr ->
  List.length (tr chunk) = List.length chunk ->
  exists out,
    get_indexed_triples chunk label w
    = (Return (labelled label (tr chunk)),
       {| self := self w; disk := disk w; stdout := out; clock := clock w |}).
Proof.
  destruct w as [o dk printed ck]. simpl. unfold translation.
  intros Htr Hlen.
  unfold get_indexed_triples, bind, get_self, when, lift, print, ret. simpl. cbv zeta.
  destruct (indexing_requested (use_indexer o)).
  - destruct (mapper o) as [m|]; [|discriminate]. simpl in Htr.
    inversion Htr; subst tr. rewrite <- Hlen, append_column_repeat.
    destruct (verbose o); simpl; eexists; reflexivity.
  - inversion Htr; subst tr. rewrite append_column_repeat.
    destruct (verbose o); simpl; eexists; reflexivity.
Qed.

Lemma labelled_storable (label : string) (chunk : rows) :
  good_chunk chunk = true ->
  labelled label chunk <> [] /\ forallb storable (labelled label chunk) = true.
Proof.
  unfold good_chunk. destruct chunk as [|r chunk]; [discriminate|].
  intros H. split; [discriminate|].
  unfold labelled. rewrite forallb_forall in *. intros x Hx.
  apply in_map_iff in Hx. destruct Hx as (y & <- & Hy). apply H in Hy.
  unfold triple_row in Hy. unfold storable.
  apply andb_true_iff in Hy. destruct Hy as [Hlen Hbind].
  apply Nat.eqb_eq in Hlen.
  rewrite length_app, Hlen, forallb_app, Hbind. reflexivity.
Qed.

Lemma appended_table (t : string) (p : rows) (d d' : database) (tb : table) :
  assoc t (tables d) = Some tb ->
  appended t p d d' ->
  assoc t (tables d') = Some {| columns := columns tb; body := body tb ++ p |}.
Proof.
  intros Ht ((tb0 & H0 & H1) & _). rewrite Ht in H0. inversion H0; subst. exact H1.
Qed.

(** The loop of [populate]: every chunk is translated, labelled and
    appended, one commit per chunk. *)
Lemma insert_chunks_run (label : string) (tr : rows -> rows) (data : list rows) :
  forall (w : world) (d : database) (tb : table),
    sees w d ->
    assoc "triples_table" (tables d) = Some tb ->
    List.length (columns tb) = 4%nat ->
    translation (use_indexer (self w)) (mapper (self w)) = Some tr ->
    Forall (fun chunk => good_chunk (tr chunk) = true
                         /\ List.length (tr chunk) = List.length chunk) data ->
    exists w' d',
      insert_chunks get_indexed_triples label data w = (Return tt, w')
      /\ sees w' d'
      /\ same_object w w'
      /\ appended "triples_table"
           (List.concat (map (fun chunk => labelled label (tr chunk)) data)) d d'
      /\ (disk w = Some d -> disk w' = Some d').
Proof.
  induction data as [|chunk rest IH]; intros w d tb Hc Ht Hcols Htr Hdata.
  - exists w, d. simpl. repeat split; auto.
    + now apply appended_nil with tb.
  - inversion Hdata as [|? ? [Hgood Hlen] Hrest]; subst.
    destruct (get_indexed_triples_translated chunk label w tr Htr Hlen) as (out & Hget).
    destruct (labelled_storable label (tr chunk) Hgood) as [Hne Hstor].
    destruct (executemany_storable _ d tb Ht Hcols Hstor) as (d1 & Hx & Happ).
    destruct (storable_four_cells _ Hstor) as [Hfour _].
    set (w1 := {| self := self w; disk := disk w; stdout := out; clock := clock w |}) in *.
    assert (Hc1 : sees w1 d) by exact Hc.
    destruct (insert_four_cells_run _ w1 d d1 Hc1 Hne Hfour Hx) as (out2 & Hins).
    set (w2 := {| self := set_connection (Some {| working := d1; closed := false |}) (self w1);
                  disk := Some d1; stdout := out2; clock := clock w1 |}) in *.
    pose proof (appended_table _ _ _ _ tb Ht Happ) as Ht1.
    destruct (IH w2 d1 _ eq_refl Ht1 Hcols Htr Hrest) as (w' & d' & Hrun & Hc' & Hsame & Happ' & Hdisk).
    exists w', d'. split.
    + simpl. unfold bind at 1. rewrite Hget. unfold bind at 1. rewrite Hins. exact Hrun.
    + split; [exact Hc'|]. split; [|split].
      * apply same_object_trans with w2; [reflexivity|exact Hsame].
      * simpl. eapply appended_trans; eauto.
      * intros _. apply Hdisk. reflexivity.
Qed.

Lemma set_mapper_same (o : SQLiteAdapter) : set_mapper (mapper o) o = o.
Proof. now destruct o. Qed.

Section Populate.

Variable fetch_loader : string -> loader_function.
Variable new_indexer : list rows -> bool -> DataIndexer.

Lemma is_indexed_run (w : world) :
  is_indexed w
  = (Return (match mapper (self w) with Some _ => true | None => false end), w).
Proof. unfold is_indexed, bind, get_self, ret. now destruct (mapper (self w)). Qed.

(** The first half of [populate]: the object gets its mapper. *)
Lemma populate_indexing (loader : loader_function) (data_source : string) (w : world) (n : Z) :
  chunk_size (self w) = Some n ->
  exists out,
    (if negb (match mapper (self w) with Some _ => true | None => false end)
        && indexing_requested (use_indexer (self w))
     then
       when (verbose (self w)) (print "indexing...") ;;
       index_entities new_indexer loader data_source
     else print "Data is already indexed or no indexing is required.") w
    = (Return tt,
       {| self := set_mapper (chosen_mapper new_indexer (self w) (loader data_source n)) (self w);
          disk := disk w; stdout := out; clock := clock w |}).
Proof.
  intros Hn. destruct w as [o dk printed ck]. simpl in Hn |- *.
  unfold chosen_mapper, index_entities, reload_data.
  unfold bind, get_self, when, print, ret, raise. simpl.
  destruct (mapper o) as [m|] eqn:Hm; simpl.
  - rewrite <- Hm, set_mapper_same. eexists. reflexivity.
  - destruct (use_indexer o) as [[|]|m] eqn:Hu; simpl.
    + destruct (verbose o); simpl; rewrite Hn; simpl; rewrite Hu; simpl;
        eexists; reflexivity.
    + rewrite <- Hm, set_mapper_same. eexists. reflexivity.
    + destruct (verbose o); simpl; rewrite Hn; simpl; rewrite Hu; simpl;
        eexists; reflexivity.
Qed.

Lemma populate_run (data_source label : string) (loader : option loader_function)
    (w : world) (d : database) (tb : table) (n : Z) (tr : rows -> rows) :
  sees w d ->
  assoc "triples_table" (tables d) = Some tb ->
  List.length (columns tb) = 4%nat ->
  chunk_size (self w) = Some n ->
  translation (use_indexer (self w))
    (chosen_mapper new_indexer (self w)
       (chosen_loader fetch_loader loader data_source data_source n)) = Some tr ->
  Forall (fun chunk => good_chunk (tr chunk) = true
                       /\ List.length (tr chunk) = List.length chunk)
         (chosen_loader fetch_loader loader data_source data_source n) ->
  exists w' d',
    populate fetch_loader new_indexer data_source label None loader w = (Return tt, w')
    /\ sees w' d'
    /\ mapper (self w')
       = chosen_mapper new_indexer (self w)
           (chosen_loader fetch_loader loader data_source data_source n)
    /\ appended "triples_table"
         (List.concat (map (fun chunk => labelled label (tr chunk))
                           (chosen_loader fetch_loader loader data_source data_source n))) d d'
    /\ (disk w = Some d -> disk w' = Some d').
Proof.
  intros Hc Ht Hcols Hn Htr Hdata.
  set (l := chosen_loader fetch_loader loader data_source) in *.
  destruct (populate_indexing l data_source w n Hn) as (out & Hidx).
  set (w1 := {| self := set_mapper (chosen_mapper new_indexer (self w) (l data_source n)) (self w);
                disk := disk w; stdout := out; clock := clock w |}) in *.
  assert (Hc1 : sees w1 d) by exact Hc.
  destruct (insert_chunks_run label tr (l data_source n) w1 d tb Hc1 Ht Hcols Htr Hdata)
    as (w2 & d2 & Hrun & Hc2 & Hsame & Happ & Hdisk).
  destruct (same_object_settings _ _ Hsame) as (_ & Hmap & _).
  assert (Hpop : populate fetch_loader new_indexer data_source label None loader w
                 = (when (verbose (self w)) (print "data is populated")) w2).
  { unfold populate. fold (chosen_loader fetch_loader loader data_source). fold l.
    unfold bind at 1. unfold get_self at 1.
    unfold bind at 1. rewrite is_indexed_run.
    unfold bind at 1. rewrite Hidx.
    unfold bind at 1. unfold reload_data, bind at 1. unfold get_self at 1.
    change (chunk_size (self w1)) with (chunk_size (self w)). rewrite Hn.
    unfold ret at 1. unfold bind at 1. rewrite Hrun. reflexivity. }
  rewrite Hpop.
  destruct (verbose (self w)); simpl.
  - eexists. exists d2. split; [reflexivity|]. simpl.
    split; [exact Hc2|]. split; [exact Hmap|]. split; [exact Happ|exact Hdisk].
  - exists w2, d2.
    split; [reflexivity|]. split; [exact Hc2|]. split; [exact Hmap|].
    split; [exact Happ|exact Hdisk].
Qed.

End Populate.

(** ** Running lists of statements *)

Section Statements.

Variable shuffle : nat -> rows -> rows.

Lemma execute_queries_run (queries : list str) : forall (w : world) (d : database),
  sees w d ->
  disk w = Some d ->
  exists out,
    _execute_queries shuffle queries w
    = (Return tt,
       {| self := set_connection
                    (Some {| working := run_queries shuffle (clock w) d queries;
                             closed := false |}) (self w);
          disk := Some (run_queries shuffle (clock w) d queries);
          stdout := out;
          clock := clock w + List.length queries |}).
Proof.
  induction queries as [|q rest IH]; intros w d Hc Hd.
  - exists (stdout w). simpl. unfold ret. destruct w as [o dk printed ck].
    simpl in *. unfold sees in Hc. simpl in Hc. subst dk.
    rewrite Nat.add_0_r. f_equal. f_equal. destruct o; simpl in *. now rewrite Hc.
  - cbn [_execute_queries run_queries List.length]. unfold bind at 1.
    destruct (execute shuffle (clock w) d q) as [out d1|e] eqn:Hx.
    + destruct (execute_query_accepted shuffle q w {| working := d; closed := false |}
                  out d1 Hc eq_refl Hx) as (printed & ->).
      match goal with |- context [_execute_queries shuffle rest ?w1] =>
        destruct (IH w1 d1 eq_refl eq_refl) as (out1 & ->)
      end.
      cbn [clock self]. exists out1. rewrite Nat.add_succ_r. reflexivity.
    + rewrite (execute_query_rejected shuffle q w {| working := d; closed := false |}
                 e Hc eq_refl Hx).
      match goal with |- context [_execute_queries shuffle rest ?w1] =>
        destruct (IH w1 d Hc Hd) as (out1 & ->)
      end.
      cbn [clock self]. exists out1. rewrite Nat.add_succ_r. reflexivity.
Qed.

End Statements.

Section Schema.

Variable shuffle : nat -> rows -> rows.

Lemma execute_create_table (q : str) (t : string) (cols : list (string * string))
    (seed : nat) (d : database) :
  parse q = Some (CreateTable t cols) ->
  execute shuffle seed d q
  = match assoc t (tables d) with
    | Some _ => Rejected (OperationalError ("table " ++ t ++ " already exists"))
    | None => Ok [] {| tables := put t {| columns := cols; body := [] |} (tables d);
                       indexes := indexes d |}
    end.
Proof. unfold execute. now intros ->. Qed.

Lemma execute_create_index (q : str) (i t : string) (cols : list string)
    (seed : nat) (d : database) :
  parse q = Some (CreateIndex i t cols) ->
  execute shuffle seed d q
  = match assoc i (indexes d), assoc t (tables d) with
    | Some _, _ => Rejected (OperationalError ("index " ++ i ++ " already exists"))
    | None, None => Rejected (no_such "table" t)
    | None, Some tb =>
        match column_indexes (columns tb) cols with
        | None => Rejected (OperationalError "no such column")
        | Some _ =>
            Ok [] {| tables := tables d;
                     indexes := put i {| on_table := t; on_columns := cols |} (indexes d) |}
        end
    end.
Proof. unfold execute. now intros ->. Qed.

Lemma execute_drop_index (q : str) (i : string) (seed : nat) (d : database) :
  parse q = Some (DropIndex i) ->
  execute shuffle seed d q = Ok [] {| tables := tables d; indexes := drop i (indexes d) |}.
Proof. unfold execute. now intros ->. Qed.

Lemma execute_drop_table (q : str) (t : string) (seed : nat) (d : database) :
  parse q = Some (DropTable t) ->
  execute shuffle seed d q
  = Ok [] {| tables := drop t (tables d);
             indexes := filter (fun b => negb (String.eqb (on_table (snd b)) t)) (indexes d) |}.
Proof. unfold execute. now intros ->. Qed.

Lemma create_database_on_empty (seed : nat) :
  run_queries shuffle seed empty (_get_db_schema) = fresh_database.
Proof. vm_compute. reflexivity. Qed.


Lemma enter_run (w : world) :
  exists out ck,
    __enter__ shuffle w
    = (Return tt,
       {| self := set_connection (Some {| working := entered w; closed := false |}) (self w);
          disk := Some (entered w); stdout := out; clock := ck |}).
Proof.
  unfold __enter__, entered. destruct (disk w) as [d|] eqn:Hd.
  - exists (stdout w), (clock w). unfold with_self. now rewrite Hd.
  - unfold bind at 1. unfold print at 1. unfold bind at 1. cbv beta iota.
    unfold bind at 1. unfold set_working at 1. cbv beta iota.
    unfold _create_database.
    match goal with |- context [_execute_queries shuffle _ ?w1] =>
      destruct (execute_queries_run shuffle _get_db_schema w1 empty eq_refl eq_refl)
        as (out & ->)
    end.
    rewrite create_database_on_empty. eexists. eexists. reflexivity.
Qed.

Lemma schema_indexes (d : database) :
  forallb (has_index d) schema_index_names = true ->
  forall i, In i schema_index_names -> exists ix, assoc i (indexes d) = Some ix.
Proof.
  intros H i Hi. rewrite forallb_forall in H. apply H in Hi.
  unfold has_index in Hi. destruct (assoc i (indexes d)) as [ix|]; [eauto|discriminate].
Qed.

(** On a database that has the triple table and the six indexes, every
    statement of the schema is rejected. *)
Lemma create_database_again (seed : nat) (d : database) (tb : table) :
  assoc "triples_table" (tables d) = Some tb ->
  forallb (has_index d) schema_index_names = true ->
  run_queries shuffle seed d _get_db_schema = d.
Proof.
  intros Ht Hix. pose proof (schema_indexes d Hix) as H.
  unfold _get_db_schema. cbn [run_queries].
  rewrite (execute_create_table _ "triples_table"
             [("subject", "integer"); ("predicate", "integer");
              ("object", "integer"); ("dataset_type", "text")]) by reflexivity.
  rewrite Ht.
  destruct (H "triples_table_sp_idx") as (i1 & H1); [simpl; tauto|].
  destruct (H "triples_table_po_idx") as (i2 & H2); [simpl; tauto|].
  destruct (H "triples_table_type_idx") as (i3 & H3); [simpl; tauto|].
  destruct (H "triples_table_sub_obj_idx") as (i4 & H4); [simpl; tauto|].
  destruct (H "triples_table_subject_idx") as (i5 & H5); [simpl; tauto|].
  destruct (H "triples_table_object_idx") as (i6 & H6); [simpl; tauto|].
  rewrite (execute_create_index _ "triples_table_sp_idx" "triples_table" ["subject"; "predicate"]) by reflexivity.
  rewrite H1.
  rewrite (execute_create_index _ "triples_table_po_idx" "triples_table" ["predicate"; "object"]) by reflexivity.
  rewrite H2.
  rewrite (execute_create_index _ "triples_table_type_idx" "triples_table" ["dataset_type"]) by reflexivity.
  rewrite H3.
  rewrite (execute_create_index _ "triples_table_sub_obj_idx" "triples_table" ["subject"; "object"]) by reflexivity.
  rewrite H4.
  rewrite (execute_create_index _ "triples_table_subject_idx" "triples_table" ["subject"]) by reflexivity.
  rewrite H5.
  rewrite (execute_create_index _ "triples_table_object_idx" "triples_table" ["object"]) by reflexivity.
  rewrite H6.
  reflexivity.
Qed.

Lemma clean_up_result (seed : nat) (d : database) :
  run_queries shuffle seed d _get_clean_up
  = {| tables := drop "triples_table" (tables d);
       indexes :=
         filter (fun b => negb (String.eqb (on_table (snd b)) "triples_table"))
           (drop "triples_table_type_idx"
              (drop "triples_table_sp_idx"
                 (drop "triples_table_po_idx" (indexes d)))) |}.
Proof.
  unfold _get_clean_up. cbn [run_queries].
  rewrite (execute_drop_index _ "triples_table_po_idx") by reflexivity.
  rewrite (execute_drop_index _ "triples_table_sp_idx") by reflexivity.
  rewrite (execute_drop_index _ "triples_table_type_idx") by reflexivity.
  rewrite (execute_drop_table _ "triples_table") by reflexivity.
  reflexivity.
Qed.


Lemma assoc_drop_same {A} (k : string) (l : list (string * A)) : assoc k (drop k l) = None.
Proof.
  unfold drop. induction l as [|[k' a] l IH]; simpl; [reflexivity|].
  destruct (String.eqb k k') eqn:E; simpl; [exact IH|]. now rewrite E.
Qed.

Lemma assoc_drop_other {A} (k k' : string) (l : list (string * A)) :
  k' <> k -> assoc k' (drop k l) = assoc k' l.
Proof.
  intros Hne. unfold drop. induction l as [|[k0 a] l IH]; simpl; [reflexivity|].
  destruct (String.eqb k k0) eqn:E; simpl.
  - apply String.eqb_eq in E. subst k0.
    apply String.eqb_neq in Hne. now rewrite Hne.
  - now rewrite IH.
Qed.

Lemma assoc_In {A} (k : string) (a : A) (l : list (string * A)) :
  assoc k l = Some a -> In (k, a) l.
Proof.
  induction l as [|[k' a'] l IH]; simpl; [discriminate|].
  destruct (String.eqb k k') eqn:E.
  - apply String.eqb_eq in E. subst k'. intros H. inversion H. now left.
  - intros H. right. now apply IH.
Qed.

Lemma forallb_filter {A} (f g : A -> bool) (l : list A) :
  forallb f l = true -> forallb f (filter g l) = true.
Proof.
  rewrite !forallb_forall. intros H x Hx. apply filter_In in Hx. now apply H.
Qed.

Lemma filter_negb_nil {A} (f : A -> bool) (l : list A) :
  forallb f l = true -> filter (fun b => negb (f b)) l = [].
Proof.
  induction l as [|x l IH]; simpl; [reflexivity|].
  rewrite andb_true_iff. intros [Hx Hl]. rewrite Hx. simpl. now apply IH.
Qed.

(** The schema on a database without triple table and without
    indexes: all seven statements go through. *)
Lemma create_database_on_cleared (seed : nat) (ts : list (string * table)) :
  assoc "triples_table" ts = None ->
  run_queries shuffle seed {| tables := ts; indexes := [] |} _get_db_schema
  = {| tables := put "triples_table"
                   {| columns := [("subject", "integer"); ("predicate", "integer");
                                  ("object", "integer"); ("dataset_type", "text")];
                      body := [] |} ts;
       indexes := indexes fresh_database |}.
Proof.
  intros Ht. unfold _get_db_schema. cbn [run_queries].
  rewrite (execute_create_table _ "triples_table"
             [("subject", "integer"); ("predicate", "integer");
              ("object", "integer"); ("dataset_type", "text")]) by reflexivity.
  cbn [tables indexes]. rewrite Ht.
  rewrite (execute_create_index _ "triples_table_sp_idx" "triples_table" ["subject"; "predicate"]) by reflexivity.
  cbn [tables indexes]. rewrite assoc_put_same. cbn.
  rewrite (execute_create_index _ "triples_table_po_idx" "triples_table" ["predicate"; "object"]) by reflexivity.
  cbn [tables indexes]. rewrite assoc_put_same. cbn.
  rewrite (execute_create_index _ "triples_table_type_idx" "triples_table" ["dataset_type"]) by reflexivity.
  cbn [tables indexes]. rewrite assoc_put_same. cbn.
  rewrite (execute_create_index _ "triples_table_sub_obj_idx" "triples_table" ["subject"; "object"]) by reflexivity.
  cbn [tables indexes]. rewrite assoc_put_same. cbn.
  rewrite (execute_create_index _ "triples_table_subject_idx" "triples_table" ["subject"]) by reflexivity.
  cbn [tables indexes]. rewrite assoc_put_same. cbn.
  rewrite (execute_create_index _ "triples_table_object_idx" "triples_table" ["object"]) by reflexivity.
  cbn [tables indexes]. rewrite assoc_put_same. cbn.
  reflexivity.
Qed.

End Schema.

Section Lifecycle.

Variable shuffle : nat -> rows -> rows.


(** X5: [_create_database] on a store that already has the triple table
    and the six indexes changes nothing and raises nothing: SQLite
    rejects each statement of the schema and [_execute_query] swallows
    the rejection.  The rows of the table stay. *)
Theorem create_database_keeps_existing_schema (w : world) (d : database) (tb : table) :
  sees w d ->
  disk w = Some d ->
  assoc "triples_table" (tables d) = Some tb ->
  forallb (has_index d) schema_index_names = true ->
  fst (_create_database shuffle w) = Return tt
  /\ sees (snd (_create_database shuffle w)) d
  /\ disk (snd (_create_database shuffle w)) = Some d
  /\ clock (snd (_create_database shuffle w)) = clock w + 7.
Proof.
  intros Hc Hd Ht Hix. unfold _create_database.
  destruct (execute_queries_run shuffle _get_db_schema w d Hc Hd) as (out & ->).
  rewrite (create_database_again shuffle _ d tb Ht Hix). cbn [fst snd].
  split; [reflexivity|]. split; [reflexivity|]. split; reflexivity.
Qed.

(** X6: [clean_up] leaves no triple table and no index on it, the three
    indexes its statements do not name included; other tables stay.
    Nothing is raised and the change is committed. *)
Theorem clean_up_removes_table_and_indexes (w : world) (d : database) :
  sees w d ->
  disk w = Some d ->
  exists d',
    fst (clean_up shuffle w) = Return tt
    /\ sees (snd (clean_up shuffle w)) d'
    /\ disk (snd (clean_up shuffle w)) = Some d'
    /\ assoc "triples_table" (tables d') = None
    /\ (forall i ix, assoc i (indexes d') = Some ix -> on_table ix <> "triples_table")
    /\ (forall t, t <> "triples_table" -> assoc t (tables d') = assoc t (tables d)).
Proof.
  intros Hc Hd. unfold clean_up.
  destruct (execute_queries_run shuffle _get_clean_up w d Hc Hd) as (out & ->).
  rewrite clean_up_result. cbn [fst snd]. eexists.
  split; [reflexivity|]. split; [reflexivity|]. split; [reflexivity|].
  cbn [tables indexes]. split; [apply assoc_drop_same|]. split.
  - intros i ix H. apply assoc_In in H. apply filter_In in H. destruct H as [_ H].
    cbn [snd] in H. apply negb_true_iff, String.eqb_neq in H. exact H.
  - intros t Hne. now apply assoc_drop_other.
Qed.

(** X7: [clean_up] and then [_create_database] empty the store: the triple
    table is there again without a row, with the six indexes, and the
    other tables are as they were. *)
Theorem clean_up_then_create_database_resets (w : world) (d : database) :
  sees w d ->
  disk w = Some d ->
  only_triples_indexes d = true ->
  exists d',
    fst ((clean_up shuffle ;; _create_database shuffle) w) = Return tt
    /\ sees (snd ((clean_up shuffle ;; _create_database shuffle) w)) d'
    /\ disk (snd ((clean_up shuffle ;; _create_database shuffle) w)) = Some d'
    /\ assoc "triples_table" (tables d') = assoc "triples_table" (tables fresh_database)
    /\ indexes d' = indexes fresh_database
    /\ (forall t, t <> "triples_table" -> assoc t (tables d') = assoc t (tables d)).
Proof.
  intros Hc Hd Hix. unfold clean_up, _create_database. unfold bind.
  destruct (execute_queries_run shuffle _get_clean_up w d Hc Hd) as (out & ->).
  rewrite clean_up_result.
  match goal with |- context [_execute_queries shuffle _get_db_schema ?w1] =>
    destruct (execute_queries_run shuffle _get_db_schema w1 _ eq_refl eq_refl) as (out1 & ->)
  end.
  cbn [fst snd clock].
  rewrite filter_negb_nil.
  2:{ unfold only_triples_indexes in Hix. unfold drop. now repeat apply forallb_filter. }
  rewrite create_database_on_cleared by apply assoc_drop_same.
  eexists. split; [reflexivity|]. split; [reflexivity|]. split; [reflexivity|].
  cbn [tables indexes]. split; [now rewrite assoc_put_same|]. split; [reflexivity|].
  intros t Hne. rewrite assoc_put_other by exact Hne. now apply assoc_drop_other.
Qed.

End Lifecycle.

Lemma exit_run (w : world) (d : database) :
  sees w d ->
  __exit__ None w
  = (Return tt,
     {| self := set_connection (Some {| working := d; closed := true |}) (self w);
        disk := Some d; stdout := stdout w; clock := clock w |}).
Proof.
  unfold sees. intros Hc. unfold __exit__, commit, close, bind, open_connection.
  rewrite Hc. simpl. rewrite Hc. reflexivity.
Qed.

Lemma exit_with_traceback_run (e : exn) (w : world) (d d0 : database) :
  sees w d ->
  disk w = Some d0 ->
  __exit__ (Some e) w
  = (Return tt,
     {| self := set_connection (Some {| working := d0; closed := false |}) (self w);
        disk := Some d0; stdout := stdout w; clock := clock w |}).
Proof.
  unfold sees. intros Hc Hd. unfold __exit__, rollback, bind, open_connection, set_working.
  rewrite Hc. simpl. rewrite Hd. unfold with_self. now rewrite Hd.
Qed.

Section Block.

Variable shuffle : nat -> rows -> rows.

(** X8: The [with] statement: when the body returns with the connection
    open, what it wrote is committed and the connection is closed; when
    it raises, the connection goes back to the committed store, stays
    open, and the exception of the body is raised again. *)
Theorem with_block_commits_or_rolls_back {A} (body : M A) (w : world) (d d0 : database) :
  sees (snd (body (snd (__enter__ shuffle w)))) d ->
  disk (snd (body (snd (__enter__ shuffle w)))) = Some d0 ->
  match fst (body (snd (__enter__ shuffle w))) with
  | Return a =>
      fst (with_self_do shuffle body w) = Return a
      /\ connection (self (snd (with_self_do shuffle body w)))
         = Some {| working := d; closed := true |}
      /\ disk (snd (with_self_do shuffle body w)) = Some d
  | Raise e =>
      fst (with_self_do shuffle body w) = Raise e
      /\ sees (snd (with_self_do shuffle body w)) d0
      /\ disk (snd (with_self_do shuffle body w)) = Some d0
  end.
Proof.
  unfold with_self_do.
  destruct (enter_run shuffle w) as (out & ck & ->). cbn [fst snd].
  destruct (body _) as [[a|e] w2]; cbn [fst snd]; intros Hc Hd.
  - unfold bind. rewrite (exit_run w2 d Hc). cbn. auto.
  - unfold bind. rewrite (exit_with_traceback_run e w2 d d0 Hc Hd). cbn.
    split; [reflexivity|]. split; reflexivity.
Qed.

(** X9: After a normal [__exit__] the connection is closed for good: the
    query executor, the bulk writer and the counter raise
    [ProgrammingError], which no [except] clause of theirs catches,
    and the iterator raises it at its first [next]. *)
Theorem closed_connection_raises (q table condition : str) (values : list element)
    (a : batch_args) (w : world) :
  is_open w = true ->
  batches_count (self w) = None ->
  fst (__exit__ None w) = Return tt
  /\ fst (_execute_query shuffle q (snd (__exit__ None w))) = Raise closed_database
  /\ fst (_insert_values_to_a_table table values (snd (__exit__ None w)))
     = Raise closed_database
  /\ fst (get_data_size shuffle table condition (snd (__exit__ None w)))
     = Raise closed_database
  /\ fst (_get_batch shuffle a (snd (__exit__ None w))) = ([], Failed closed_database).
Proof.
  intros Hopen Hb. apply open_sees in Hopen.
  rewrite (exit_run w _ Hopen). cbn [fst snd].
  set (w1 := {| self := set_connection (Some {| working := database_of w; closed := true |}) (self w);
                disk := Some (database_of w); stdout := stdout w; clock := clock w |}).
  assert (Hq : forall q', _execute_query shuffle q' w1 = (Raise closed_database, w1)).
  { intros q'. now apply execute_query_closed with {| working := database_of w; closed := true |}. }
  assert (Hsize : forall t c, get_data_size shuffle t c w1 = (Raise closed_database, w1)).
  { intros t c. unfold get_data_size. unfold bind at 1. unfold lift at 1.
    destruct (format_count_statement t c) as (q' & ->).
    unfold bind at 1. now rewrite Hq. }
  split; [reflexivity|]. split; [now rewrite Hq|]. split; [|split].
  - unfold _insert_values_to_a_table, cursor, get_self, when.
    unfold bind, open_connection, print, ret.
    destruct (verbose (self w1)); reflexivity.
  - now rewrite Hsize.
  - unfold _get_batch, prologue. unfold bind at 1. unfold get_self at 1.
    unfold bind at 1. change (batches_count (self w1)) with (batches_count (self w)).
    rewrite Hb. unfold bind at 1. unfold lift at 1. rewrite format_count_condition.
    unfold bind at 1. rewrite Hsize. reflexivity.
Qed.

End Block.

Lemma insert_chunks_app (indexed : rows -> string -> M rows) (label : string)
    (a b : list rows) (w : world) :
  insert_chunks indexed label (a ++ b) w
  = (insert_chunks indexed label a ;; insert_chunks indexed label b) w.
Proof.
  revert w. induction a as [|chunk a IH]; intros w; simpl; [reflexivity|].
  unfold bind.
  destruct (indexed chunk label w) as [[values|e] w1]; [|reflexivity].
  destruct (_insert_values_to_a_table _ _ w1) as [[[]|e] w2]; [|reflexivity].
  rewrite IH. reflexivity.
Qed.

Lemma get_indexed_triples_mismatch (chunk : rows) (label : string) (w : world)
    (tr : rows -> rows) :
  translation (use_indexer (self w)) (mapper (self w)) = Some tr ->
  List.length (tr chunk) <> List.length chunk ->
  exists out,
    get_indexed_triples chunk label w
    = (Raise (ValueError "all the input array dimensions except for the concatenation axis must match exactly"),
       {| self := self w; disk := disk w; stdout := out; clock := clock w |}).
Proof.
  destruct w as [o dk printed ck]. simpl. unfold translation.
  intros Htr Hlen.
  unfold get_indexed_triples, bind, get_self, when, lift, print, ret. simpl. cbv zeta.
  destruct (indexing_requested (use_indexer o)).
  - destruct (mapper o) as [m|]; [|discriminate]. simpl in Htr.
    inversion Htr; subst tr. rewrite (append_column_mismatch _ _ _ Hlen).
    destruct (verbose o); simpl; eexists; reflexivity.
  - inversion Htr; subst tr. contradiction.
Qed.

Section Loading.

Variable shuffle : nat -> rows -> rows.
Variable fetch_loader : string -> loader_function.
Variable new_indexer : list rows -> bool -> DataIndexer.




End Loading.

(** ** Counting and paging *)

Section Paging.

Variable shuffle : nat -> rows -> rows.

Lemma select_partition (seed : nat) (d : database) (tb : table) (label : string)
    (p : projection) (ix : option string) (o : ordering) (l : option (Z * Z)) :
  assoc "triples_table" (tables d) = Some tb ->
  names_eqb (map fst (columns tb)) triples_columns = true ->
  match ix with
  | Some i => index_on_triples i d = true
  | None => True
  end ->
  match p with PDistinct _ => False | _ => True end ->
  match o with OCols _ => False | _ => True end ->
  exec_select shuffle seed d
    {| proj := p; from := "triples_table"; indexed_by := ix;
       where_ := [TEq "dataset_type" (VText label)]; order_by := o; limit := l |}
  = let found := match o with
                 | ORandom => shuffle seed (partition_rows label d)
                 | _ => partition_rows label d
                 end in
    match p with
    | PCount => inr (apply_limit l [[VInt (Z.of_nat (List.length found))]])
    | _ => inr (apply_limit l found)
    end.
Proof.
  intros Ht Hcols Hix Hp Ho. unfold exec_select, partition_rows. cbn [from indexed_by].
  rewrite Ht.
  assert (Hidx : negb match ix with
                      | Some i => match assoc i (indexes d) with
                                  | Some ix0 => String.eqb (on_table ix0) "triples_table"
                                  | None => false
                                  end
                      | None => true
                      end = false).
  { destruct ix as [i|]; [|reflexivity]. unfold index_on_triples in Hix.
    now rewrite Hix. }
  rewrite Hidx.
  destruct (columns_shape _ Hcols) as (t1 & t2 & t3 & t4 & ->).
  cbn [where_ resolve resolve_term column_index String.eqb Ascii.eqb Bool.eqb option_map
       order_by proj limit].
  destruct o as [|cs|]; [|contradiction|]; destruct p as [| |c]; try contradiction; reflexivity.
Qed.

Lemma pageable_store (d : database) :
  pageable d = true ->
  exists tb, assoc "triples_table" (tables d) = Some tb
             /\ names_eqb (map fst (columns tb)) triples_columns = true
             /\ index_on_triples "triples_table_type_idx" d = true.
Proof.
  unfold pageable. destruct (assoc "triples_table" (tables d)) as [tb|]; [|discriminate].
  unfold triples_table_ok. rewrite !andb_true_iff. intros [[Hcols _] Hix]. eauto.
Qed.

(** The count of a partition. *)
Lemma get_data_size_run (label : string) (w : world) (d : database) (tb : table) :
  sees w d ->
  assoc "triples_table" (tables d) = Some tb ->
  names_eqb (map fst (columns tb)) triples_columns = true ->
  exists out,
    get_data_size shuffle [Lit "triples_table"]
      [Lit "where dataset_type ='"; Txt label; Lit "'"] w
    = (Return (Some (VInt (Z.of_nat (List.length (partition_rows label d))))),
       {| self := set_connection (Some {| working := d; closed := false |}) (self w);
          disk := Some d; stdout := out; clock := S (clock w) |}).
Proof.
  intros Hc Ht Hcols. unfold get_data_size.
  unfold bind at 1. unfold lift at 1. rewrite format_count_query.
  unfold bind at 1.
  match goal with |- context [_execute_query shuffle ?q w] =>
    destruct (execute_query_accepted shuffle q w {| working := d; closed := false |}
                [[VInt (Z.of_nat (List.length (partition_rows label d)))]] d Hc eq_refl)
      as (out & ->)
  end.
  { unfold execute. rewrite parse_count_query. cbn [working].
    rewrite (select_partition _ d tb label PCount None ONone None Ht Hcols I I I).
    reflexivity. }
  exists out. reflexivity.
Qed.

Lemma get_data_size_no_table (label : string) (w : world) (d : database) :
  sees w d ->
  assoc "triples_table" (tables d) = None ->
  exists out,
    get_data_size shuffle [Lit "triples_table"]
      [Lit "where dataset_type ='"; Txt label; Lit "'"] w
    = (Return None,
       {| self := self w; disk := disk w; stdout := out; clock := S (clock w) |}).
Proof.
  intros Hc Ht. unfold get_data_size.
  unfold bind at 1. unfold lift at 1. rewrite format_count_query.
  unfold bind at 1.
  rewrite (execute_query_rejected shuffle _ w {| working := d; closed := false |}
             (no_such "table" "triples_table") Hc eq_refl).
  2:{ unfold execute. rewrite parse_count_query. unfold exec_select. cbn [from working].
      now rewrite Ht. }
  eexists. reflexivity.
Qed.


(** The part of [_get_batch] before the loop, on an adapter that has
    not counted yet. *)
Lemma prologue_fresh (a : batch_args) (w : world) (d : database) (tb : table) :
  sees w d ->
  assoc "triples_table" (tables d) = Some tb ->
  names_eqb (map fst (columns tb)) triples_columns = true ->
  batches_count (self w) = None ->
  batch_size a <> 0%Z ->
  index_by a = "" ->
  exists out,
    prologue shuffle a w
    = (Return {| index := []; query := page_query; i := 0;
                 stop := Z.to_nat (Z.quot (Z.of_nat (List.length (partition_rows (dataset_type a) d)))
                                          (batch_size a)) |},
       {| self := set_batches_count
                    (Some (Z.quot (Z.of_nat (List.length (partition_rows (dataset_type a) d)))
                                  (batch_size a)))
                    (set_connection (Some {| working := d; closed := false |}) (self w));
          disk := Some d; stdout := out; clock := S (clock w) |}).
Proof.
  intros Hc Ht Hcols Hb Hsize Hi. unfold prologue.
  unfold bind at 1. unfold get_self at 1. cbv beta iota.
  unfold bind at 1. rewrite Hb.
  unfold bind at 1. unfold lift at 1. rewrite format_count_condition.
  unfold bind at 1.
  destruct (get_data_size_run (dataset_type a) w d tb Hc Ht Hcols) as (out & ->).
  unfold bind at 1. unfold lift at 1. unfold int_div.
  apply Z.eqb_neq in Hsize. rewrite Hsize.
  rewrite Hi. cbn. eexists. reflexivity.
Qed.

(** The same on an adapter that has its count. *)
Lemma prologue_counted (a : batch_args) (w : world) (c : Z) :
  batches_count (self w) = Some c ->
  index_by a = "" ->
  prologue shuffle a w
  = (Return {| index := []; query := page_query; i := 0; stop := Z.to_nat c |}, w).
Proof.
  intros Hb Hi. unfold prologue.
  unfold bind at 1. unfold get_self at 1. cbv beta iota.
  unfold bind at 1. rewrite Hb. unfold ret at 1. rewrite Hi. cbn. now rewrite Hb.
Qed.


Lemma execute_page (seed : nat) (d : database) (tb : table) (label : string) (off cnt : Z) :
  assoc "triples_table" (tables d) = Some tb ->
  names_eqb (map fst (columns tb)) triples_columns = true ->
  index_on_triples "triples_table_type_idx" d = true ->
  execute shuffle seed d (formatted_page label off cnt)
  = Ok (apply_limit (Some (off, cnt)) (partition_rows label d)) d.
Proof.
  intros Ht Hcols Hix. unfold execute. rewrite parse_formatted_page.
  now rewrite (select_partition seed d tb label PStar (Some "triples_table_type_idx")
                 ONone (Some (off, cnt)) Ht Hcols Hix I I).
Qed.

Lemma execute_random_page (seed : nat) (d : database) (tb : table) (label : string)
    (off cnt : Z) :
  assoc "triples_table" (tables d) = Some tb ->
  names_eqb (map fst (columns tb)) triples_columns = true ->
  index_on_triples "triples_table_type_idx" d = true ->
  execute shuffle seed d (formatted_random_page label off cnt)
  = Ok (apply_limit (Some (off, cnt)) (shuffle seed (partition_rows label d))) d.
Proof.
  intros Ht Hcols Hix. unfold execute. rewrite parse_formatted_random_page.
  now rewrite (select_partition seed d tb label PStar (Some "triples_table_type_idx")
                 ORandom (Some (off, cnt)) Ht Hcols Hix I I).
Qed.

(** A turn of the loop in table order: the page it reads is the one
    written into [query] at the first turn. *)
Lemma iteration_plain (a : batch_args) (f : frame) (w : world) (d : database) (tb : table)
    (off cnt : Z) :
  sees w d ->
  assoc "triples_table" (tables d) = Some tb ->
  names_eqb (map fst (columns tb)) triples_columns = true ->
  index_on_triples "triples_table_type_idx" d = true ->
  random a = false ->
  use_filter a = false ->
  index f = [] ->
  (query f = page_query /\ off = (Z.of_nat (i f) * batch_size a)%Z /\ cnt = batch_size a)
  \/ query f = formatted_page (dataset_type a) off cnt ->
  exists out,
    iteration shuffle a f w
    = (Return (Out (Some (apply_limit (Some (off, cnt)) (partition_rows (dataset_type a) d))),
               {| index := []; query := formatted_page (dataset_type a) off cnt;
                  i := S (i f); stop := stop f |}),
       {| self := set_connection (Some {| working := d; closed := false |}) (self w);
          disk := Some d; stdout := out; clock := S (clock w) |}).
Proof.
  intros Hc Ht Hcols Hix Hr Hf Hindex Hq.
  unfold iteration. cbv zeta. rewrite Hindex, Hr, Hf.
  match goal with |- context [format (query f) ?args] =>
    assert (Hfmt : format (query f) args = Return (formatted_page (dataset_type a) off cnt))
  end.
  { destruct Hq as [(-> & -> & ->) | ->].
    - apply format_page_query.
    - apply format_formatted_page. }
  unfold bind at 1. unfold lift at 1. rewrite Hfmt.
  unfold bind at 1. unfold ret at 1. unfold bind at 1.
  destruct (execute_query_accepted shuffle (formatted_page (dataset_type a) off cnt) w
              {| working := d; closed := false |} _ d Hc eq_refl
              (execute_page (clock w) d tb (dataset_type a) off cnt Ht Hcols Hix))
    as (out & ->).
  exists out. reflexivity.
Qed.

(** A turn of the loop in random order: the offset of the turn, in an
    order drawn for this turn. *)
Lemma iteration_random (a : batch_args) (f : frame) (w : world) (d : database) (tb : table) :
  sees w d ->
  assoc "triples_table" (tables d) = Some tb ->
  names_eqb (map fst (columns tb)) triples_columns = true ->
  index_on_triples "triples_table_type_idx" d = true ->
  random a = true ->
  use_filter a = false ->
  index f = [] ->
  query f = page_query
  \/ (exists off cnt, query f = formatted_random_page (dataset_type a) off cnt) ->
  exists out,
    iteration shuffle a f w
    = (Return (Out (Some (apply_limit (Some ((Z.of_nat (i f) * batch_size a)%Z, batch_size a))
                            (shuffle (clock w) (partition_rows (dataset_type a) d)))),
               {| index := [];
                  query := formatted_random_page (dataset_type a)
                             (Z.of_nat (i f) * batch_size a) (batch_size a);
                  i := S (i f); stop := stop f |}),
       {| self := set_connection (Some {| working := d; closed := false |}) (self w);
          disk := Some d; stdout := out; clock := S (clock w) |}).
Proof.
  intros Hc Ht Hcols Hix Hr Hf Hindex Hq.
  unfold iteration. cbv zeta. rewrite Hindex, Hr, Hf.
  match goal with |- context [format (query f) ?args] =>
    assert (Hfmt : exists q1, format (query f) args = Return q1)
  end.
  { destruct Hq as [-> | (off & cnt & ->)].
    - rewrite format_page_query. eauto.
    - rewrite format_formatted_random_page. eauto. }
  destruct Hfmt as (q1 & Hfmt).
  unfold bind at 1. unfold lift at 1. rewrite Hfmt.
  unfold bind at 1. unfold lift at 1. rewrite format_random_page_query.
  unfold bind at 1.
  destruct (execute_query_accepted shuffle
              (formatted_random_page (dataset_type a) (Z.of_nat (i f) * batch_size a)
                 (batch_size a)) w
              {| working := d; closed := false |} _ d Hc eq_refl
              (execute_random_page (clock w) d tb (dataset_type a) _ _ Ht Hcols Hix))
    as (out & ->).
  exists out. reflexivity.
Qed.


(** The loop in table order, run to its end: every batch is the same
    page. *)
Lemma consume_plain (a : batch_args) (d : database) (tb : table) (off cnt : Z) :
  assoc "triples_table" (tables d) = Some tb ->
  names_eqb (map fst (columns tb)) triples_columns = true ->
  index_on_triples "triples_table_type_idx" d = true ->
  random a = false ->
  use_filter a = false ->
  forall (m : nat) (f : frame) (w : world),
    (stop f - i f = m)%nat ->
    sees w d ->
    index f = [] ->
    (query f = page_query /\ off = (Z.of_nat (i f) * batch_size a)%Z /\ cnt = batch_size a)
    \/ query f = formatted_page (dataset_type a) off cnt ->
    exists w',
      consume shuffle (repeat (fun w => w) (S m)) a (Suspended f) w
      = (repeat (Out (Some (apply_limit (Some (off, cnt))
                              (partition_rows (dataset_type a) d)))) m,
         Stopped, w')
      /\ clock w' = clock w + m
      /\ batches_count (self w') = batches_count (self w)
      /\ sees w' d.
Proof.
  intros Ht Hcols Hix Hr Hf. induction m as [|m IH]; intros f w Hm Hc Hindex Hq.
  - exists w. cbn [repeat consume next]. unfold resume.
    assert (Hlt : (i f <? stop f)%nat = false) by (apply Nat.ltb_ge; lia).
    rewrite Hlt. rewrite Nat.add_0_r. auto.
  - change (repeat (fun w0 : world => w0) (S (S m)))
      with ((fun w0 : world => w0) :: repeat (fun w0 : world => w0) (S m)).
    cbn [consume next]. unfold resume.
    assert (Hlt : (i f <? stop f)%nat = true) by (apply Nat.ltb_lt; lia).
    rewrite Hlt.
    destruct (iteration_plain a f w d tb off cnt Hc Ht Hcols Hix Hr Hf Hindex Hq)
      as (out & ->).
    match goal with |- context [consume shuffle _ a (Suspended ?f1) ?w1] =>
      destruct (IH f1 w1) as (w' & Hrun & Hclock & Hcount & Hsees);
        [cbn [i stop]; lia | reflexivity | reflexivity | right; reflexivity |]
    end.
    rewrite Hrun. exists w'.
    split; [reflexivity|]. split; [rewrite Hclock; cbn [clock]; lia|].
    split; [exact Hcount | exact Hsees].
Qed.

(** The loop in random order, run to its end: the batch of turn [k] is
    page [k] of an order drawn for that turn alone. *)
Lemma consume_random (a : batch_args) (d : database) (tb : table) :
  assoc "triples_table" (tables d) = Some tb ->
  names_eqb (map fst (columns tb)) triples_columns = true ->
  index_on_triples "triples_table_type_idx" d = true ->
  random a = true ->
  use_filter a = false ->
  forall (m : nat) (f : frame) (w : world),
    (stop f - i f = m)%nat ->
    sees w d ->
    index f = [] ->
    query f = page_query
    \/ (exists off cnt, query f = formatted_random_page (dataset_type a) off cnt) ->
    exists w',
      consume shuffle (repeat (fun w => w) (S m)) a (Suspended f) w
      = (map (fun k =>
                Out (Some (apply_limit
                             (Some ((Z.of_nat (i f + k) * batch_size a)%Z, batch_size a))
                             (shuffle (clock w + k) (partition_rows (dataset_type a) d)))))
             (seq 0 m),
         Stopped, w')
      /\ clock w' = clock w + m
      /\ batches_count (self w') = batches_count (self w)
      /\ sees w' d.
Proof.
  intros Ht Hcols Hix Hr Hf. induction m as [|m IH]; intros f w Hm Hc Hindex Hq.
  - exists w. cbn [repeat consume next]. unfold resume.
    assert (Hlt : (i f <? stop f)%nat = false) by (apply Nat.ltb_ge; lia).
    rewrite Hlt. rewrite Nat.add_0_r. auto.
  - change (repeat (fun w0 : world => w0) (S (S m)))
      with ((fun w0 : world => w0) :: repeat (fun w0 : world => w0) (S m)).
    cbn [consume next]. unfold resume.
    assert (Hlt : (i f <? stop f)%nat = true) by (apply Nat.ltb_lt; lia).
    rewrite Hlt.
    destruct (iteration_random a f w d tb Hc Ht Hcols Hix Hr Hf Hindex Hq) as (out & ->).
    match goal with |- context [consume shuffle _ a (Suspended ?f1) ?w1] =>
      destruct (IH f1 w1) as (w' & Hrun & Hclock & Hcount & Hsees);
        [cbn [i stop]; lia | reflexivity | reflexivity | right; eexists; eexists; reflexivity |]
    end.
    rewrite Hrun. exists w'.
    split; [|split; [rewrite Hclock; cbn [clock]; lia | split; [exact Hcount | exact Hsees]]].
    cbn [i clock]. rewrite <- cons_seq, <- seq_shift.
    cbn [map]. rewrite map_map, !Nat.add_0_r.
    f_equal. f_equal. f_equal. apply map_ext. intros k.
    now rewrite !Nat.add_succ_r.
Qed.

End Paging.

Section Batches.

Variable shuffle : nat -> rows -> rows.

Lemma filter_satisfies_nil (l : rows) : filter (satisfies []) l = l.
Proof. induction l as [|r l IH]; simpl; [reflexivity|]. now rewrite IH. Qed.

(** The count with the default arguments. *)
Lemma get_data_size_all_run (w : world) (d : database) :
  sees w d ->
  exists w',
    get_data_size shuffle [Lit "triples_table"] [] w
    = (Return (match assoc "triples_table" (tables d) with
               | Some tb => Some (VInt (Z.of_nat (List.length (body tb))))
               | None => None
               end), w')
    /\ sees w' d.
Proof.
  intros Hc. unfold get_data_size.
  unfold bind at 1. unfold lift at 1.
  change (format [Lit "SELECT count(*) from {} {};"] [[Lit "triples_table"]; []])
    with (Return [Lit "SELECT count(*) from "; Lit "triples_table"; Lit " "; Lit ";"]).
  unfold bind at 1.
  assert (Hparse : parse [Lit "SELECT count(*) from "; Lit "triples_table"; Lit " "; Lit ";"]
                   = Some (Select {| proj := PCount; from := "triples_table";
                                     indexed_by := None; where_ := [];
                                     order_by := ONone; limit := None |}))
    by reflexivity.
  destruct (assoc "triples_table" (tables d)) as [tb|] eqn:Ht.
  - match goal with |- context [_execute_query shuffle ?q w] =>
      destruct (execute_query_accepted shuffle q w {| working := d; closed := false |}
                  [[VInt (Z.of_nat (List.length (body tb)))]] d Hc eq_refl)
        as (out & ->)
    end.
    { unfold execute. rewrite Hparse. unfold exec_select. cbn [from working indexed_by].
      rewrite Ht. cbn [negb where_ resolve order_by proj limit apply_limit].
      now rewrite filter_satisfies_nil. }
    eexists. split; reflexivity.
  - rewrite (execute_query_rejected shuffle _ w {| working := d; closed := false |}
               (no_such "table" "triples_table") Hc eq_refl).
    2:{ unfold execute. rewrite Hparse. unfold exec_select. cbn [from working].
        now rewrite Ht. }
    eexists. split; [reflexivity|exact Hc].
Qed.

(** The generator yields no more batches than were counted at the
    first [next], whatever the consumer does to the store and to the
    object between two batches. *)
Lemma consume_created_bounded (a : batch_args) (env : list (world -> world))
    (w w1 : world) (f : frame) :
  prologue shuffle a w = (Return f, w1) ->
  (List.length (fst (fst (consume shuffle env a Created w))) <= stop f - i f)%nat.
Proof.
  intros Hp. destruct env as [|step env]; [simpl; lia|].
  cbn [consume next]. rewrite Hp. unfold resume.
  destruct (i f <? stop f)%nat eqn:Hlt; [|simpl; lia].
  apply Nat.ltb_lt in Hlt.
  destruct (iteration shuffle a f w1) as [[[it f']|e] w2] eqn:Hit; [|simpl; lia].
  destruct (iteration_advances shuffle a f f' w1 w2 it Hit) as [Hi Hs].
  pose proof (consume_bounded shuffle a env f' (step w2)) as Hb.
  destruct (consume shuffle env a (Suspended f') (step w2)) as [[its e] w3].
  simpl in *. lia.
Qed.






(** X18: Without a triple table the count is [None], and the first [next]
    raises [TypeError] when it divides it by the batch size. *)
Theorem get_batch_without_table (a : batch_args) (w : world) (d : database) :
  sees w d ->
  assoc "triples_table" (tables d) = None ->
  batches_count (self w) = None ->
  exists msg, fst (_get_batch shuffle a w) = ([], Failed (TypeError msg)).
Proof.
  intros Hc Ht Hb. eexists.
  unfold _get_batch, prologue.
  unfold bind at 1. unfold get_self at 1. cbv beta iota.
  unfold bind at 1. rewrite Hb.
  unfold bind at 1. unfold lift at 1. rewrite format_count_condition.
  unfold bind at 1.
  destruct (get_data_size_no_table shuffle (dataset_type a) w d Hc Ht) as (out & ->).
  unfold bind at 1. unfold lift at 1. reflexivity.
Qed.


End Batches.

Section Refusals.

Variable shuffle : nat -> rows -> rows.

(** The exceptions [get_data_size] lets out are those of a missing or
    closed connection and of an empty result. *)
Lemma get_data_size_errors (table condition : str) (w : world) (e : exn) :
  fst (get_data_size shuffle table condition w) = Raise e ->
  e = AttributeError "connection" \/ e = closed_database \/ exists msg, e = IndexError msg.
Proof.
  unfold get_data_size. unfold bind at 1. unfold lift at 1.
  destruct (format_count_statement table condition) as (q & ->).
  unfold bind at 1.
  assert (Hq : forall e0, fst (_execute_query shuffle q w) = Raise e0 ->
                          e0 = AttributeError "connection" \/ e0 = closed_database).
  { destruct (connection (self w)) as [c|] eqn:Hc.
    - destruct (closed c) eqn:Hcl.
      + rewrite (execute_query_closed shuffle q w c Hc Hcl). simpl.
        intros e0 H. inversion H. auto.
      + destruct (execute shuffle (clock w) (working c) q) as [out d|e1] eqn:Hx.
        * destruct (execute_query_accepted shuffle q w c out d Hc Hcl Hx) as (printed & ->).
          simpl. intros e0 H. discriminate H.
        * rewrite (execute_query_rejected shuffle q w c e1 Hc Hcl Hx). simpl.
          intros e0 H. discriminate H.
    - rewrite (execute_query_no_connection shuffle q w Hc). simpl.
      intros e0 H. inversion H. auto. }
  destruct (_execute_query shuffle q w) as [[count|e0] w1]; simpl in *.
  - destruct count as [[|[|n r] rs]|]; simpl; intros H; inversion H; eauto.
  - intros H. inversion H. subst. destruct (Hq e eq_refl); auto.
Qed.

(** With an ordering asked for, the part of [_get_batch] before the
    loop raises, and what it raises is the [KeyError] of the message or
    an exception of the count. *)
Lemma prologue_with_index_by (a : batch_args) (w : world) :
  String.eqb (index_by a) "" = false ->
  exists e w',
    prologue shuffle a w = (Raise e, w')
    /\ (e = KeyError "s,o,so,os,''\"
        \/ (batches_count (self w) = None
            /\ (e = AttributeError "connection" \/ e = closed_database
                \/ (exists msg, e = IndexError msg)
                \/ e = ZeroDivisionError
                \/ (exists msg, e = TypeError msg)))).
Proof.
  intros Hi. unfold prologue.
  unfold bind at 1. unfold get_self at 1. cbv beta iota.
  unfold bind at 1.
  destruct (batches_count (self w)) as [c|] eqn:Hb.
  - unfold ret at 1. rewrite Hi. unfold bind at 1. unfold bind at 1. unfold lift at 1.
    rewrite index_by_message_raises. eauto.
  - unfold bind at 1. unfold lift at 1. rewrite format_count_condition.
    unfold bind at 1.
    pose proof (get_data_size_errors [Lit "triples_table"]
                  [Lit "where dataset_type ='"; Txt (dataset_type a); Lit "'"] w) as Herr.
    destruct (get_data_size shuffle _ _ w) as [[size|e] w1].
    + unfold bind at 1. unfold lift at 1.
      destruct (int_div size (batch_size a)) as [count|e] eqn:Hdiv.
      * rewrite Hi. unfold bind at 1. unfold bind at 1. unfold lift at 1.
        rewrite index_by_message_raises. eauto.
      * exists e, w1. split; [reflexivity|]. right. split; [reflexivity|].
        unfold int_div in Hdiv.
        destruct size as [[n| | |]|]; try (inversion Hdiv; eauto 7).
        destruct (Z.eqb (batch_size a) 0); inversion Hdiv. auto 7.
    + exists e, w1. split; [reflexivity|]. right. split; [reflexivity|].
      destruct (Herr e eq_refl) as [H|[H|H]]; auto 7.
Qed.

(** X20: An ordering is never accepted.  Whatever [index_by] is given, a
    valid one or not, with [random] or without, the first [next] raises
    and no batch is yielded; the exception is never the
    [AssertionError] the method means to raise for a bad value, and on
    an adapter that has its count it is the [KeyError] of the
    assertion's message. *)
Theorem get_batch_index_by_never_accepted (a : batch_args) (w : world) :
  index_by a <> "" ->
  exists e,
    fst (_get_batch shuffle a w) = ([], Failed e)
    /\ (forall msg, e <> AssertionError msg)
    /\ (batches_count (self w) <> None -> e = KeyError "s,o,so,os,''\").
Proof.
  intros Hi. apply String.eqb_neq in Hi.
  destruct (prologue_with_index_by a w Hi) as (e & w' & Hrun & He).
  exists e. unfold _get_batch. rewrite Hrun. split; [reflexivity|]. split.
  - intros msg ->.
    destruct He as [He | (_ & [He | [He | [(m & He) | [He | (m & He)]]]])]; discriminate He.
  - intros Hb. destruct He as [He | (Hnone & _)]; [exact He | contradiction].
Qed.

(** A turn of the loop with a filter asked for, over a store it can
    page: the page is read, and then the lookup of the resolver
    fails. *)
Lemma iteration_filter (a : batch_args) (f : frame) (w : world) (d : database) (tb : table) :
  sees w d ->
  assoc "triples_table" (tables d) = Some tb ->
  names_eqb (map fst (columns tb)) triples_columns = true ->
  index_on_triples "triples_table_type_idx" d = true ->
  use_filter a = true ->
  index f = [] ->
  query f = page_query ->
  exists w',
    iteration shuffle a f w = (Raise (AttributeError "get_complementary_entities"), w')
    /\ clock w' = S (clock w).
Proof.
  intros Hc Ht Hcols Hix Hf Hindex Hq.
  unfold iteration. cbv zeta. rewrite Hindex, Hq, Hf.
  unfold bind at 1. unfold lift at 1. rewrite format_page_query.
  unfold bind at 1.
  destruct (random a).
  - unfold lift at 1. rewrite format_random_page_query. unfold bind at 1.
    match goal with |- context [_execute_query shuffle ?q w] =>
      destruct (execute_query_accepted shuffle q w {| working := d; closed := false |} _ d
                  Hc eq_refl
                  (execute_random_page shuffle (clock w) d tb (dataset_type a) _ _ Ht Hcols Hix))
        as (out & ->)
    end.
    eexists. split; reflexivity.
  - unfold ret at 1. unfold bind at 1.
    match goal with |- context [_execute_query shuffle ?q w] =>
      destruct (execute_query_accepted shuffle q w {| working := d; closed := false |} _ d
                  Hc eq_refl
                  (execute_page shuffle (clock w) d tb (dataset_type a) _ _ Ht Hcols Hix))
        as (out & ->)
    end.
    eexists. split; reflexivity.
Qed.


End Refusals.

Section Resolving.

Variable shuffle : nat -> rows -> rows.

(** X22: On a store without the triple table (after [clean_up], say) the
    resolver raises nothing: SQLite rejects both statements, and both
    lists come back as [None]. *)
Theorem complementary_entities_without_table (triples : list triple) (w : world)
    (d : database) :
  sees w d ->
  assoc "triples_table" (tables d) = None ->
  fst (_get_complementary_entities shuffle triples w) = Return (None, None)
  /\ sees (snd (_get_complementary_entities shuffle triples w)) d
  /\ disk (snd (_get_complementary_entities shuffle triples w)) = disk w.
Proof.
  intros Hc Ht.
  assert (Hrun : exists out,
            _get_complementary_entities shuffle triples w
            = (Return (None, None),
               {| self := self w; disk := disk w; stdout := out; clock := S (S (clock w)) |})).
  { unfold _get_complementary_entities, _get_complementary_objects,
      _get_complementary_subjects.
    unfold bind at 1. unfold bind at 1. unfold lift at 1.
    rewrite format_objects_query.
    rewrite <- (map_map subject str_of_int triples), <- (map_map predicate str_of_int triples).
    rewrite (execute_query_rejected shuffle _ w {| working := d; closed := false |}
               (no_such "table" "triples_table") Hc eq_refl).
    2:{ unfold execute. rewrite parse_objects_query. unfold exec_select. cbn [from working].
        now rewrite Ht. }
    unfold bind at 1. unfold bind at 1. unfold lift at 1.
    rewrite format_subjects_query.
    rewrite <- (map_map object str_of_int triples).
    match goal with |- context [_execute_query shuffle ?q ?w1] =>
      rewrite (execute_query_rejected shuffle q w1 {| working := d; closed := false |}
                 (no_such "table" "triples_table") Hc eq_refl)
    end.
    2:{ unfold execute. cbn [clock working]. rewrite parse_subjects_query.
        unfold exec_select. cbn [from]. now rewrite Ht. }
    eexists. reflexivity. }
  destruct Hrun as (out & ->). cbn [fst snd self disk].
  split; [reflexivity|]. split; [exact Hc|reflexivity].
Qed.

End Resolving.

(** * The further properties at concrete inputs *)


Lemma create_database_keeps_existing_schema_witness :
  fst (_create_database backwards example_store) = Return tt
  /\ sees (snd (_create_database backwards example_store)) (database_of example_store)
  /\ disk (snd (_create_database backwards example_store)) = Some (database_of example_store)
  /\ clock (snd (_create_database backwards example_store)) = clock example_store + 7.
Proof.
  apply (create_database_keeps_existing_schema backwards example_store
           (database_of example_store)
           {| columns := [("subject", "integer"); ("predicate", "integer");
                          ("object", "integer"); ("dataset_type", "text")];
              body := [[VInt 1; VInt 10; VInt 2; VText "train"];
                       [VInt 3; VInt 10; VInt 2; VText "train"];
                       [VInt 1; VInt 10; VInt 4; VText "train"]] |});
    vm_compute; reflexivity.
Defined.

Lemma clean_up_removes_table_and_indexes_witness :
  exists d',
    fst (clean_up backwards example_store) = Return tt
    /\ sees (snd (clean_up backwards example_store)) d'
    /\ disk (snd (clean_up backwards example_store)) = Some d'
    /\ assoc "triples_table" (tables d') = None
    /\ (forall i ix, assoc i (indexes d') = Some ix -> on_table ix <> "triples_table")
    /\ (forall t, t <> "triples_table" ->
          assoc t (tables d') = assoc t (tables (database_of example_store))).
Proof.
  apply (clean_up_removes_table_and_indexes backwards example_store
           (database_of example_store)); vm_compute; reflexivity.
Defined.

Lemma clean_up_then_create_database_resets_witness :
  exists d',
    fst ((clean_up backwards ;; _create_database backwards) example_store) = Return tt
    /\ sees (snd ((clean_up backwards ;; _create_database backwards) example_store)) d'
    /\ disk (snd ((clean_up backwards ;; _create_database backwards) example_store)) = Some d'
    /\ assoc "triples_table" (tables d') = assoc "triples_table" (tables fresh_database)
    /\ indexes d' = indexes fresh_database
    /\ (forall t, t <> "triples_table" ->
          assoc t (tables d') = assoc t (tables (database_of example_store))).
Proof.
  apply (clean_up_then_create_database_resets backwards example_store
           (database_of example_store)); vm_compute; reflexivity.
Defined.

Lemma with_block_commits_or_rolls_back_witness :
  fst (with_self_do backwards (raise (A := unit) (ValueError "stop")) no_file)
  = Raise (ValueError "stop")
  /\ sees (snd (with_self_do backwards (raise (A := unit) (ValueError "stop")) no_file))
          fresh_database
  /\ disk (snd (with_self_do backwards (raise (A := unit) (ValueError "stop")) no_file))
     = Some fresh_database.
Proof.
  apply (with_block_commits_or_rolls_back backwards (raise (A := unit) (ValueError "stop"))
           no_file fresh_database fresh_database); vm_compute; reflexivity.
Defined.

Lemma closed_connection_raises_witness :
  fst (__exit__ None example_store) = Return tt
  /\ fst (_execute_query backwards [Lit "select * from triples_table"]
            (snd (__exit__ None example_store))) = Raise closed_database
  /\ fst (_insert_values_to_a_table [Lit "triples_table"] [stored 5 10 6 "train"]
            (snd (__exit__ None example_store))) = Raise closed_database
  /\ fst (get_data_size backwards [Lit "triples_table"] []
            (snd (__exit__ None example_store))) = Raise closed_database
  /\ fst (_get_batch backwards (plain 2 "train") (snd (__exit__ None example_store)))
     = ([], Failed closed_database).
Proof.
  apply (closed_connection_raises backwards [Lit "select * from triples_table"]
           [Lit "triples_table"] [] [stored 5 10 6 "train"] (plain 2 "train") example_store);
    reflexivity.
Defined.









Lemma get_batch_without_table_witness :
  exists msg,
    fst (_get_batch backwards (plain 2 "train") cleared_store) = ([], Failed (TypeError msg)).
Proof.
  apply (get_batch_without_table backwards (plain 2 "train") cleared_store
           (database_of cleared_store)); vm_compute; reflexivity.
Defined.

Lemma get_batch_index_by_never_accepted_witness :
  exists e,
    fst (_get_batch backwards (ordered "x" false) two_page_store) = ([], Failed e)
    /\ (forall msg, e <> AssertionError msg)
    /\ (batches_count (self two_page_store) <> None -> e = KeyError "s,o,so,os,''\").
Proof.
  apply (get_batch_index_by_never_accepted backwards (ordered "x" false) two_page_store).
  discriminate.
Defined.



Lemma complementary_entities_without_table_witness :
  fst (_get_complementary_entities backwards [(1, 10, 2)%Z] cleared_store)
  = Return (None, None)
  /\ sees (snd (_get_complementary_entities backwards [(1, 10, 2)%Z] cleared_store))
          (database_of cleared_store)
  /\ disk (snd (_get_complementary_entities backwards [(1, 10, 2)%Z] cleared_store))
     = disk cleared_store.
Proof.
  apply (complementary_entities_without_table backwards [(1, 10, 2)%Z] cleared_store
           (database_of cleared_store)); vm_compute; reflexivity.
Defined.
